(* ===== verification/_CoqProject ===== *)
-Q . S2P
Prelude.v
Window.v
Tags.v
DiGraph.v
PageRank.v
PGRunner.v
Rating.v
TSRunner.v
TSMachine.v
Feed.v
Setup.v
Seed.v
PRRunner.v
Dataset.v
Scripts.v
