(* ===== verification/Prelude.v ===== *)
(** * Verification of the StackOverflowData scoring engine

    The repository computes two weekly-updated scores per user and tag of
    Stack Overflow: an authority score (PageRank on the graph of "who
    outranked whom" among the answerers of a question) and a skill rating
    (TrueSkill over the same competitions), each frozen into a snapshot
    column once, in the week of the user's judge date.  The Python sources
    are [src/pgrunner.py] (class [PGRunner], all tags), [src/pagerank.py]
    (class [PRRunner], one tag per object), [src/tsrunner.py] (class
    [TrueSkillRunner]) and [src/dataset.py] (joins the results into a
    dataset).  They read BigQuery through [pandas_gbq], keep their state in
    SQLite, and call the libraries [networkx] and [trueskill].

    ** How the parts interact, and where each is modelled

    - [Prelude] (this file): notations ([Σ[x <- l] e] for sums over a
      list), Python exceptions as values ([exn], [result], [bind], the
      loops [foldM], [foldP] and [foldS]), tactics, the hint database [s2p], and
      generic lemmas on sums of rationals, on [executemany] updates and on
      loops that write one table per element ([foldM_local]).
    - [Window]: the weekly window iterator shared by all runners
      ([oriday], [cnt], [count], [day_s], [day_e], SQL [BETWEEN]).
    - [Tags]: the two [tra] functions over a model of [str.replace].
    - [DiGraph]: the networkx [DiGraph] as a node list and a weight map,
      and the insert-or-increment edge loop of a window.
    - [PageRank]: networkx's [pagerank_scipy] (library code, modelled from
      its algorithm with the defaults the runners use), in exact rational
      arithmetic.
    - [PGRunner]: [PGRunner.run] and [runall]: per window, ingest the
      edges, recompute PageRank warm-started from [self.pager], write the
      scaled score of the users judged in the window; one commit per tag.
    - [PRRunner]: the whole of [pagerank.py]: its [USER] and [QUES]
      queries, [__init__], [__del__] (a close without commit), [_pager],
      [create_table], [run] and the script's main loop, related to the
      loop body of [PGRunner.create_table] and [PGRunner.run] by a
      refinement theorem.
    - [Rating]: the [trueskill] package as an interface (class [Engine]):
      one output rating per input group.  All TrueSkill theorems hold for
      every engine.
    - [TSRunner]: [TrueSkillRunner.run]: per question the accepted-answer
      game, then the answerers' ranked game, written back; per window the
      [ts = mu - 3 * sigma] snapshot; a commit per window, and [__del__]'s
      commit of whatever ran when a window raises.
    - [TSMachine]: the same loop as a step relation on the disk, the
      connection and the phase (committed, processing, snapshotting, as
      the specification names them), with a [kill] transition for a
      crash.
    - [Feed]: the BigQuery [QUES] queries over [QuestionRankS] (the edge
      feed with its pair construction and [GROUP BY] count, and the
      question feed).
    - [Setup]: both runners' [create_table] and the main blocks of
      [pgrunner.py] and [tsrunner.py].  A [create_tag] that raises returns
      what it committed before: [CREATE TABLE IF NOT EXISTS] outside a
      transaction commits at once, and pandas' [to_sql] commits its rows
      (with the [DELETE] before it) or rolls them back (Python 3.6+
      [sqlite3] transaction handling).
    - [Seed]: the seed feed, the [TAGS] query and both [USER] queries
      over the rows of [Score600] and [QuestionRankS].
    - [Dataset]: [DatasetGenerator.dataset_gen], the join of the feature
      rows with the PageRank and TrueSkill tables; [preprocessing] as the
      ordered BigQuery jobs it submits with their date arguments, and the
      mode dispatch of the main block.
    - [Scripts]: [TrueSkillRunner.__init__] (its [self.tags] is the
      [TAGS] query) and [tsrunner.py]'s main block closed over the rows of
      [Score600] and [QuestionRankS]; [pgrunner.py]'s main block closed
      over the [TAGS] and [USER] queries.

    State is threaded explicitly: SQLite files are finite maps from table
    name to table (a [gmap] from user id to row), the objects' fields are
    records, and exceptions are values of [result]; a loop on a connection
    that persists partial work returns the state reached with the
    exception ([foldP], [foldS]).  The BigQuery queries of the runners
    ([QUES] in [Feed]; [TAGS] and [USER] in [Seed]) are computed from the
    rows of the warehouse tables; where a theorem does not need them, the
    feeds are parameters (functions of the tag and the window).  Floats
    are exact rationals.

    ** What the theorems show

    - Snapshots: the PageRank and TrueSkill snapshots are written once, at
      the window containing the judge date, with the score of that window
      ([PGRunner.run_snapshot], [TSRunner.run_ts_snapshot]); the windows
      partition the dates ([Window.window_partition]); run on the day of
      [preprocessing], the windows end at most six days before its last
      judge date [adate], and the dates after the last window are never
      snapshotted ([Dataset.preprocessing_window_gap]).
    - The graph: the edge loop adds the feed's weights, weights never
      decrease and nodes are never removed ([DiGraph.ingest_weight],
      [DiGraph.ingest_monotone]); the feed counts exactly the instances
      where one answerer outranked another, in any row order
      ([Feed.edge_query_spec]).
    - PageRank: one step contracts by 0.85 in L1 ([step_contract]); with
      the runners' arguments the iteration returns within 200 steps a
      probability vector bounded below, so the non-convergence handler is
      dead code in exact arithmetic ([pagerank_scipy_converges]); the
      persisted scores have mean 1 ([engine_after_mean]).  Scenario 1 of
      the specification is evaluated on its input ([authority_ordering],
      an example, not a property).
    - Row order: the rows of a window's [QUES] query may come in any
      order; the graph then differs only in the order of its node list
      ([DiGraph.ingest_perm]), which [pagerank_scipy] does not see in
      exact arithmetic ([PageRank.pagerank_scipy_equiv]).  With floats the
      node order changes the order of the sums, so this is a fact of the
      model only, and no determinism property is claimed for the code.
    - Schema: across [runall] every table keeps its user ids, every
      persisted [pagerank] stays non-negative and the warm start positive
      ([PGRunner.runall_schema]).
    - Seeding: [create_table] raises [IntegrityError] exactly when a user
      has two [Score600] rows of a tag ([Seed.seed_integrity]); a seeded
      PageRank table holds the judge dates [creation_date + 120] of the
      seed feed ([Seed.seeded_pg_rows]), and keeps them through the whole
      [pgrunner.py] script, whatever [runall] raises
      ([Scripts.PGScript.script_judge_dates]); a TrueSkill store seeded for the
      tags of a window raises no [KeyError] in its question loop
      ([Seed.seeded_window_no_key_error]).
    - TrueSkill: the order of the two games and what each row receives
      ([games_in_order], [accepted_answer_game]); [KeyError] exactly on an
      answerer without a row ([process_row_result]); the asker's new
      rating is never stored ([asker_row_unchanged]); tags are independent
      ([questions_tag_scoped]).
    - Errors and commits: [PGRunner.run] raises [ZeroDivisionError]
      exactly when the first week has no edge ([run_raises_iff]); what a
      TrueSkill run leaves on disk, partial window included
      ([run_commits]; [run_partial_window_persisted] evaluates one such
      run); the TrueSkill script never completes on a fresh database, as
      its [TAGS] DataFrame is iterated by column label
      ([Setup.TSSetup.main_breaks]); [dataset_gen] cannot run twice
      ([Dataset.dataset_gen_rerun]).
    - State machine: every state reachable with kills satisfies an
      invariant proved by rule induction, so a crash leaves the store
      after the committed windows ([TSMachine.reachable_inv]).  Two
      lemmas check the machine against [TSRunner.run]: [run] is its
      kill-free execution, which is deterministic ([TSMachine.run_exec]),
      and it terminates from every state ([TSMachine.machine_terminates]).
    - End to end: after both runners complete for a tag, the dataset row
      of a user holds its features, its PageRank snapshot and its
      TrueSkill snapshot ([Dataset.dataset_row_scores]); the [pagerank.py]
      script on the seed feed leaves per tag a row exactly for the users of
      [Score600], with the seeded judge date and the snapshot of its
      window ([PRRunner.script_rows]).
    - Refinement: [pagerank.py]'s main loop leaves what the loop body of
      [PGRunner.create_table] and [PGRunner.run] from an empty warm start
      leave per tag ([PRRunner.main_refines]),
      while [PGRunner.runall] carries the warm start from one tag to the
      next: the second tag's scores are computed from the scores the first
      left in [self.pager] ([PGRunner.runall_warm_start];
      [runall_warm_start_leaks] shows on one input that they differ).
    - Tables: [PGRunner.create_table] resets every tag's table to its seed
      rows ([Setup.PGSetup.create_table_resets]); a dataset row holds the
      features, the [pagerank] and the [ts] of its user, [0.0] where
      missing ([Dataset.gen_tag_rows]).
    - Tag names: unescaping inverts escaping on tags without ['_'], and an
      escaped name has no ['#'] and no ["++"] ([Tags.tra_roundtrip],
      [Tags.tra_escape_reserved_free]).

    ** Bounds and fuel

    [PageRank.iterate] is a [Fixpoint] on the fuel [max_iter]; the runners
    pass 200.  Convergence within that fuel follows from the contraction:
    after [k] steps the L1 change is at most [2 * 0.85 ^ (k - 1)], and
    [2 * 0.85 ^ 199 < 10 ^ -6 <= N * tol] ([cap_enough], by computation).
    [Tags.replace] is defined with Equations by well-founded recursion on
    the length of the subject.  All other loops are structural over lists;
    the step relation of [TSMachine] is strongly normalising, by induction
    on the windows left, then on the questions and tags left.

    ** Not modelled

    The SQL scripts [dataset.py] submits ([Script/Score.sql],
    [Script/Rank.sql], [Script/Dataset.sql]) are not in the repository:
    of [preprocessing] only the order and arguments of its jobs are
    modelled, the feature rows are an input, and
    [Score600] and [QuestionRankS] are given as lists of rows.  The TrueSkill
    update itself is library code behind the [Engine] interface, so
    Scenario 3 of the specification is not stated.  Floating-point
    rounding, progress output, logging set-up, [_query] (a call of
    [pandas_gbq.read_gbq]), the [dataset.py] copy of [tra] (never called)
    and credentials are not modelled; a
    DataFrame with duplicate ids (possible for BigQuery results) is not
    representable by the finite maps used for indexed frames.  Dates are
    day ordinals: the judge dates are taken to be stored by [to_sql] as
    ['YYYY-MM-DD'] text, as a DATE column read by [pandas_gbq] into
    Python dates is; a [pandas_gbq] that returns timestamps would store
    ['YYYY-MM-DD 00:00:00'], which [BETWEEN day_s AND day_e] compares
    after [day_e], and the users judged on a window's last day would then
    be missed (the repository pins no versions). *)

From stdpp Require Export base list gmap.
From Stdlib Require Export ZArith QArith Qabs Qreduction Lqa Lia.

(** ** Notations of the development *)

Declare Scope s2p_scope.
Delimit Scope s2p_scope with s2p.

(** [qsum f l] is the sum [f x1 + ... + f xn] that numpy's [.sum()] and
    the sparse matrix products of the code compute over a node list. *)
Definition qsum {A} (f : A -> Q) (l : list A) : Q :=
  fold_right (fun a acc => (f a + acc)%Q) 0%Q l.

Notation "'Σ[' x '<-' l ']' e" := (qsum (fun x => e) l)
  (at level 35, x binder, l at level 60, e at level 200) : s2p_scope.

(** The strict comparison of Python floats, as a boolean on [Q]. *)
Definition Qltb (x y : Q) : bool := negb (Qle_bool y x).

Create HintDb s2p.

(** ** Python exceptions as values

    The code never catches an exception except [PowerIterationFailedConvergence]
    around the PageRank call; every other one aborts the run.  A computation
    that may raise returns a [result].  [OperationalError] and
    [IntegrityError] are sqlite3's (a missing table, malformed SQL, an
    index that exists; a duplicate primary key); [QueryError] is an error
    BigQuery reports through [pandas_gbq]; [DatabaseError] is pandas'
    wrapper of a failed [read_sql_query]. *)

Inductive exn :=
| ZeroDivisionError
| KeyError (k : Z)
| OperationalError
| IntegrityError
| QueryError
| DatabaseError.

Inductive result (A : Type) :=
| Ok (a : A)
| Raise (e : exn).
Arguments Ok {A} a.
Arguments Raise {A} e.

Definition bind {A B} (m : result A) (f : A -> result B) : result B :=
  match m with Ok a => f a | Raise e => Raise e end.

Notation "x <- m ;; k" := (bind m (fun x => k))
  (at level 100, m at next level, right associativity) : s2p_scope.

(** A [for] loop over a list whose body may raise. *)
Fixpoint foldM {A B} (f : A -> B -> result A) (l : list B) (a : A) : result A :=
  match l with
  | [] => Ok a
  | b :: l => bind (f a b) (foldM f l)
  end.

Lemma foldM_app {A B} (f : A -> B -> result A) l1 l2 a :
  foldM f (l1 ++ l2) a = bind (foldM f l1 a) (foldM f l2).
Proof.
  revert a. induction l1 as [|b l1 IH]; intros a; simpl; [reflexivity|].
  destruct (f a b); simpl; [apply IH|reflexivity].
Qed.

(** An invariant of the loop body is an invariant of the loop. *)
Lemma foldM_inv {A B} (P : A -> Prop) (f : A -> B -> result A) l a a' :
  (forall a b a', P a -> f a b = Ok a' -> P a') -> P a -> foldM f l a = Ok a' -> P a'.
Proof.
  intros Hf. revert a. induction l as [|b l IH]; intros a Ha; simpl; [by intros [= <-]|].
  destruct (f a b) eqn:E; simpl; [|discriminate]. apply IH. eauto.
Qed.

(** What a loop raises is what its body raises at a state the loop
    reaches, when the body keeps an invariant. *)
Lemma foldM_raise_inv {A B} (P : A -> Prop) (Q : exn -> Prop) (f : A -> B -> result A) l a e :
  (forall a b a', b ∈ l -> P a -> f a b = Ok a' -> P a') ->
  (forall a b e, b ∈ l -> P a -> f a b = Raise e -> Q e) ->
  P a -> foldM f l a = Raise e -> Q e.
Proof.
  intros Hf Hr. revert a. induction l as [|b l IH]; intros a Ha; simpl; [discriminate|].
  destruct (f a b) as [a1|e1] eqn:E; simpl.
  - apply IH; [intros; eapply Hf; [by right|..]; eauto|intros; eapply Hr; [by right|..]; eauto|].
    eapply Hf; [by left|..]; eauto.
  - intros [= <-]. eapply Hr; [by left|..]; eauto.
Qed.

(** A loop that returns has run its body on every element. *)
Lemma foldM_ok_elem {A B} (f : A -> B -> result A) l a a' b :
  foldM f l a = Ok a' -> b ∈ l -> exists a0 a1, f a0 b = Ok a1.
Proof.
  revert a. induction l as [|b0 l IH]; intros a; simpl; [intros _ Hb; by apply elem_of_nil in Hb|].
  destruct (f a b0) as [a1|e1] eqn:E; simpl; [|discriminate].
  intros H [->|Hb]%elem_of_cons; [eauto|]. by apply (IH a1).
Qed.

Lemma bind_Ok {A B} (m : result A) (f : A -> result B) b :
  bind m f = Ok b <-> exists a, m = Ok a /\ f a = Ok b.
Proof. destruct m; simpl; split; [eauto|intros (?&[= ->]&?)|discriminate|intros (?&?&?)]; done. Qed.

(** A [for] loop on a database connection that keeps the effects of the
    iterations before a raise (a later [commit] persists them): the state
    reached and the exception that stopped the loop, if any. *)
Fixpoint foldP {A B} (f : A -> B -> result A) (l : list B) (a : A) : A * option exn :=
  match l with
  | [] => (a, None)
  | b :: l => match f a b with Ok a' => foldP f l a' | Raise e => (a, Some e) end
  end.

Lemma foldP_ok {A B} (f : A -> B -> result A) l a a' :
  foldP f l a = (a', None) <-> foldM f l a = Ok a'.
Proof.
  revert a. induction l as [|b l IH]; intros a; simpl; [split; congruence|].
  destruct (f a b); simpl; [apply IH|split; discriminate].
Qed.

(** An invariant of the loop body holds where a [foldP] loop stops. *)
Lemma foldP_inv {A B} (P : A -> Prop) (f : A -> B -> result A) l a a' oe :
  (forall a b a', P a -> f a b = Ok a' -> P a') -> P a -> foldP f l a = (a', oe) -> P a'.
Proof.
  intros Hf. revert a. induction l as [|b l IH]; intros a Ha; simpl; [by intros [= <- _]|].
  destruct (f a b) eqn:E; [apply IH; eauto|by intros [= <- _]].
Qed.

(** A loop stopped by a raise has run a prefix of its list. *)
Lemma foldP_raise {A B} (f : A -> B -> result A) l a a' e :
  foldP f l a = (a', Some e) <->
  exists l1 b l2, l = l1 ++ b :: l2 /\ foldM f l1 a = Ok a' /\ f a' b = Raise e.
Proof.
  revert a. induction l as [|b l IH]; intros a; simpl.
  - split; [discriminate|]. intros ([|??] & ? & ? & ? & _); discriminate.
  - destruct (f a b) as [a1|e1] eqn:Ef; rewrite ?IH; split.
    + intros (l1 & b' & l2 & -> & H1 & H2). exists (b :: l1), b', l2. simpl. rewrite Ef. done.
    + intros ([|b1 l1] & b' & l2 & Hl & H1 & H2); simpl in *; injection Hl as <- ->.
      * injection H1 as <-. congruence.
      * rewrite Ef in H1. cbn [bind] in H1. by exists l1, b', l2.
    + intros [= <- <-]. by exists [], b, l.
    + intros ([|b1 l1] & b' & l2 & Hl & H1 & H2); simpl in *; injection Hl as <- ->.
      * injection H1 as <-. congruence.
      * rewrite Ef in H1. cbn [bind] in H1. discriminate.
Qed.

(** A loop whose body persists what it did before it raised (statements
    that autocommit, or a connection committed by its destructor): the
    body returns the state it reached and the exception, if any. *)
Fixpoint foldS {A B} (f : A -> B -> A * option exn) (l : list B) (a : A) : A * option exn :=
  match l with
  | [] => (a, None)
  | b :: l => match f a b with (a', None) => foldS f l a' | stopped => stopped end
  end.

(** The body of a [foldS] read as a body that raises. *)
Definition stepM {A B} (f : A -> B -> A * option exn) (a : A) (b : B) : result A :=
  match f a b with (a', None) => Ok a' | (_, Some e) => Raise e end.

Lemma foldS_ok {A B} (f : A -> B -> A * option exn) l a a' :
  foldS f l a = (a', None) <-> foldM (stepM f) l a = Ok a'.
Proof.
  revert a. induction l as [|b l IH]; intros a; simpl; [split; congruence|].
  unfold stepM at 1. destruct (f a b) as [a1 [e|]]; simpl; [split; discriminate|apply IH].
Qed.

(** ** Loops that write one entry per element

    A loop over table names whose body at [b] writes only the table [b]
    (a script creating and filling one table per tag). *)
Section KeyedLoop.
Context {K V : Type} `{Countable K}.
Variable f : gmap K V -> K -> result (gmap K V).
Hypothesis f_local : forall m b m', f m b = Ok m' -> forall k, k <> b -> m' !! k = m !! k.

Lemma foldM_local_other l m m' k :
  foldM f l m = Ok m' -> k ∉ l -> m' !! k = m !! k.
Proof.
  revert m. induction l as [|b l IH]; intros m; cbn [foldM]; [by intros [= <-]|].
  destruct (f m b) as [m1|] eqn:E; cbn [bind]; [|discriminate].
  intros Hf Hk%not_elem_of_cons. rewrite (IH m1 Hf) by tauto. apply (f_local _ _ _ E). tauto.
Qed.

(** Over distinct names, the entry of [b] at the end of the loop is the
    one the body wrote at [b]. *)
Lemma foldM_local (P : option V -> Prop) l m m' b :
  (forall m0 m1, f m0 b = Ok m1 -> P (m1 !! b)) ->
  NoDup l -> foldM f l m = Ok m' -> b ∈ l -> P (m' !! b).
Proof.
  intros HP. revert m. induction l as [|b0 l IH]; intros m Hnd; cbn [foldM];
    [by intros _ ?%elem_of_nil|].
  apply NoDup_cons in Hnd as [Hb0 Hnd].
  destruct (f m b0) as [m1|] eqn:E; cbn [bind]; [|discriminate].
  intros Hf [->|Hb]%elem_of_cons; [|by apply (IH m1)].
  rewrite (foldM_local_other _ _ _ _ Hf Hb0). by apply (HP m).
Qed.
End KeyedLoop.

(** ** Tactics of the development *)

(** Closes a decidable goal on concrete data by evaluating its decision
    procedure. *)
Ltac decide_concrete := apply (bool_decide_unpack _); vm_compute; exact I.

(** Steps through [m >>= f = Ok b -> ...]: the raising case is discarded,
    the successful one is named [Hm]. *)
Ltac step_bind Hm :=
  lazymatch goal with
  | |- bind ?m _ = Ok _ -> _ => destruct m eqn:Hm; cbn [bind]; [|discriminate]
  end.

(** Splits [H : x ∈ [a; b; ...]] into one goal per element. *)
Ltac elem_cases H :=
  simpl in H; repeat (apply elem_of_cons in H as [->|H]);
  try (apply elem_of_nil in H; contradiction).

(** ** Generic lemmas on [qsum] *)

Section Qsum.
Context {A : Type}.
Open Scope Q_scope.
Implicit Types (f g : A -> Q) (l : list A).

Lemma qsum_nil f : qsum f [] = 0.
Proof. reflexivity. Qed.

Lemma qsum_cons f a l : qsum f (a :: l) = f a + qsum f l.
Proof. reflexivity. Qed.

Lemma qsum_app f l1 l2 : qsum f (l1 ++ l2) == qsum f l1 + qsum f l2.
Proof.
  induction l1 as [|a l1 IH]; simpl.
  - ring.
  - rewrite IH. ring.
Qed.

Lemma qsum_ext f g l :
  (forall a, a ∈ l -> f a == g a) -> qsum f l == qsum g l.
Proof.
  induction l as [|a l IH]; intros H; simpl; [reflexivity|].
  rewrite (H a) by set_solver. rewrite IH by set_solver. reflexivity.
Qed.

Lemma qsum_plus f g l : qsum (fun a => f a + g a) l == qsum f l + qsum g l.
Proof. induction l as [|a l IH]; simpl; [ring|]. rewrite IH. ring. Qed.

Lemma qsum_minus f g l : qsum (fun a => f a - g a) l == qsum f l - qsum g l.
Proof. induction l as [|a l IH]; simpl; [ring|]. rewrite IH. ring. Qed.

Lemma qsum_scale c f l : qsum (fun a => c * f a) l == c * qsum f l.
Proof. induction l as [|a l IH]; simpl; [ring|]. rewrite IH. ring. Qed.

Lemma qsum_const c l : qsum (fun _ => c) l == inject_Z (Z.of_nat (length l)) * c.
Proof.
  induction l as [|a l IH]; simpl; [ring|]. rewrite IH.
  rewrite Nat2Z.inj_succ, <- Z.add_1_l, inject_Z_plus. ring.
Qed.

Lemma qsum_le f g l :
  (forall a, a ∈ l -> f a <= g a) -> qsum f l <= qsum g l.
Proof.
  induction l as [|a l IH]; intros H; simpl; [apply Qle_refl|].
  apply Qplus_le_compat; [apply H; set_solver | apply IH; set_solver].
Qed.

Lemma qsum_nonneg f l : (forall a, a ∈ l -> 0 <= f a) -> 0 <= qsum f l.
Proof.
  induction l as [|a l IH]; intros H; simpl; [apply Qle_refl|].
  apply (Qplus_le_compat 0 _ 0); [apply H; set_solver | apply IH; set_solver].
Qed.

Lemma qsum_pos f l : l <> [] -> (forall a, a ∈ l -> 0 < f a) -> 0 < qsum f l.
Proof.
  destruct l as [|a l]; intros Hne H; [done|]. simpl.
  assert (0 < f a) by (apply H; set_solver).
  assert (0 <= qsum f l) by (apply qsum_nonneg; intros; apply Qlt_le_weak, H; set_solver).
  lra.
Qed.

Lemma qsum_abs f l : Qabs (qsum f l) <= qsum (fun a => Qabs (f a)) l.
Proof.
  induction l as [|a l IH]; simpl; [apply Qle_refl|].
  eapply Qle_trans; [apply Qabs_triangle|]. apply Qplus_le_compat; [apply Qle_refl|exact IH].
Qed.

Lemma qsum_map {B} (h : B -> A) f (l : list B) : qsum f (map h l) = qsum (fun b => f (h b)) l.
Proof. induction l; simpl; congruence. Qed.
End Qsum.

(** Exchanging the order of a double sum. *)
Lemma qsum_swap {A B} (f : A -> B -> Q) (la : list A) (lb : list B) :
  (qsum (fun a => qsum (fun b => f a b) lb) la ==
   qsum (fun b => qsum (fun a => f a b) la) lb)%Q.
Proof.
  induction la as [|a la IH]; simpl.
  - symmetry. induction lb as [|b lb IHb]; simpl; [reflexivity|]. rewrite IHb. ring.
  - rewrite IH, <- qsum_plus. reflexivity.
Qed.

#[export] Instance qsum_proper {A} :
  Proper (pointwise_relation A Qeq ==> eq ==> Qeq) (@qsum A).
Proof.
  intros f g Hfg l ? <-. apply qsum_ext. intros a _. apply Hfg.
Qed.

(** A sum over a list does not depend on the order of the list. *)
#[export] Instance qsum_perm {A} (f : A -> Q) : Proper ((≡ₚ) ==> Qeq) (qsum f).
Proof.
  intros l1 l2 Hp. induction Hp as [|a l1 l2 _ IH|a b l|l1 l2 l3 _ IH1 _ IH2]; simpl.
  - reflexivity.
  - by rewrite IH.
  - ring.
  - by rewrite IH1, IH2.
Qed.

Lemma Qltb_spec (x y : Q) : Qltb x y = true <-> (x < y)%Q.
Proof.
  unfold Qltb. rewrite negb_true_iff. split.
  - intros H. apply Qnot_le_lt. intros Hle. apply Qle_bool_iff in Hle. congruence.
  - intros H. destruct (Qle_bool y x) eqn:E; [|reflexivity].
    apply Qle_bool_iff in E. exfalso. apply (Qlt_not_le x y); assumption.
Qed.

#[export] Hint Resolve qsum_nonneg qsum_le : s2p.

(** ** Row-wise [UPDATE ... WHERE key = ?] over a map *)

(** [executemany("UPDATE ... WHERE id=?", pairs)] with distinct keys: a key
    listed in [pairs] has its row changed by [f w], a missing row stays
    missing, every other row is untouched. *)
Lemma fold_alter_lookup {K V W} `{Countable K} (f : W -> V -> V) (l : list (K * W))
    (m : gmap K V) i :
  NoDup l.*1 ->
  fold_left (fun t '(k, w) => alter (f w) k t) l m !! i =
  match (list_to_map l : gmap K W) !! i with Some w => f w <$> m !! i | None => m !! i end.
Proof.
  revert m. induction l as [|[k w] l IH]; intros m Hnd; simpl.
  - by rewrite lookup_empty.
  - apply NoDup_cons in Hnd as [Hk Hnd]. rewrite IH by done. rewrite lookup_insert.
    destruct (decide (k = i)) as [->|Hne].
    + rewrite (not_elem_of_list_to_map_1 _ _ Hk), lookup_alter. simpl. by case_decide.
    + destruct ((list_to_map l : gmap K W) !! i); by rewrite lookup_alter_ne.
Qed.
