(* ===== verification/Window.v ===== *)
(** * The weekly window iterator shared by both runners

    [pgrunner.py:93-98], [pagerank.py:94-98] and [tsrunner.py:100-104]
    compute the same window sequence: [cnt = (today - oriday).days - 629 +
    120], [for ind in range(int(cnt / 7))], [day_s = oriday + 7 * ind],
    [day_e = oriday + 7 * ind + 6].  A date is its proleptic Gregorian
    ordinal ([date.toordinal]); the [isoformat] strings the code compares
    with SQL [BETWEEN] order like the ordinals for four-digit years. *)

From S2P Require Import Prelude.

Module Window.
Local Open Scope Z_scope.

(** [date(2008, 7, 31).toordinal()], Stack Overflow's creation date. *)
Definition oriday : Z := 733254.

(** [(date.today() - self.oriday).days - 629 + 120] *)
Definition cnt (today : Z) : Z := today - oriday - 629 + 120.

(** [len(range(int(cnt / 7)))]: [int] truncates toward zero and a
    non-positive bound gives no iteration. *)
Definition count (today : Z) : nat := Z.to_nat (Z.quot (cnt today) 7).

Definition day_s (ind : nat) : Z := oriday + 7 * Z.of_nat ind.
Definition day_e (ind : nat) : Z := oriday + 7 * Z.of_nat ind + 6.

(** [judge_date BETWEEN day_s AND day_e] *)
Definition in_window (d : Z) (ind : nat) : bool :=
  (day_s ind <=? d) && (d <=? day_e ind).

(** The index of the window a date [d >= oriday] falls in. *)
Definition window_of (d : Z) : nat := Z.to_nat ((d - oriday) / 7).

(** The dates some processed window contains. *)
Definition covered (today d : Z) : bool :=
  (oriday <=? d) && (d <? oriday + 7 * Z.of_nat (count today)).

Lemma in_window_spec d ind :
  in_window d ind = true <-> oriday <= d /\ ind = window_of d.
Proof.
  unfold in_window, day_s, day_e, window_of.
  rewrite andb_true_iff, !Z.leb_le. split.
  - intros [H1 H2]. split; [lia|].
    assert ((d - oriday) / 7 = Z.of_nat ind) as ->; [|by rewrite Nat2Z.id].
    symmetry. apply Z.div_unique with (d - oriday - 7 * Z.of_nat ind); lia.
  - intros [H1 ->]. rewrite Z2Nat.id by (apply Z.div_pos; lia).
    pose proof (Z.mul_div_le (d - oriday) 7). pose proof (Z.mod_pos_bound (d - oriday) 7).
    pose proof (Z.div_mod (d - oriday) 7). lia.
Qed.

(** C28: the windows partition the dates from [oriday] on: a date lies
    in exactly one window, the one [window_of] names, and it lies in a
    window the loop processes exactly when it is [covered]. *)
Theorem window_partition today d :
  (forall ind, in_window d ind = true <-> oriday <= d /\ ind = window_of d) /\
  (covered today d = true <->
     exists ind, (ind < count today)%nat /\ in_window d ind = true).
Proof.
  split; [apply in_window_spec|].
  unfold covered. rewrite andb_true_iff, Z.leb_le, Z.ltb_lt. split.
  - intros [H1 H2]. exists (window_of d). rewrite in_window_spec. split; [|done].
    unfold window_of. apply Nat2Z.inj_lt. rewrite Z2Nat.id by (apply Z.div_pos; lia).
    apply Z.div_lt_upper_bound; lia.
  - intros (ind & Hlt & Hin). apply in_window_spec in Hin as [H1 ->]. split; [done|].
    unfold window_of in Hlt. apply Nat2Z.inj_lt in Hlt.
    rewrite Z2Nat.id in Hlt by (apply Z.div_pos; lia).
    pose proof (Z.mul_div_le (d - oriday) 7). pose proof (Z.mod_pos_bound (d - oriday) 7).
    pose proof (Z.div_mod (d - oriday) 7). lia.
Qed.

(** Consecutive windows are adjacent: no day between two windows. *)
Lemma day_s_succ ind : day_s (S ind) = day_e ind + 1.
Proof. unfold day_s, day_e. lia. Qed.

(** The judge date [d] lies in one of the first [k] windows. *)
Definition done_by (k : nat) (d : Z) : bool :=
  (oriday <=? d)%Z && (window_of d <? k)%nat.

Lemma done_by_S k d :
  done_by (S k) d = done_by k d || in_window d k.
Proof.
  unfold done_by. destruct (in_window d k) eqn:E.
  - apply in_window_spec in E as [H ->].
    rewrite orb_true_r. apply andb_true_iff. rewrite Z.leb_le, Nat.ltb_lt. lia.
  - rewrite orb_false_r. destruct (Z.leb_spec oriday d); simpl; [|done].
    destruct (Nat.ltb_spec (window_of d) (S k)), (Nat.ltb_spec (window_of d) k);
      try done; try lia.
    exfalso. assert (window_of d = k) as Hk by lia.
    assert (in_window d k = true) by (apply in_window_spec; done). congruence.
Qed.

Lemma done_by_in_window k d : in_window d k = true -> done_by k d = false.
Proof.
  intros H. apply in_window_spec in H as [_ ->]. unfold done_by.
  rewrite (proj2 (Nat.ltb_ge _ _)) by lia. apply andb_false_r.
Qed.

Lemma done_by_0 d : done_by 0 d = false.
Proof. unfold done_by. apply andb_false_r. Qed.

Lemma covered_done_by today d :
  covered today d = done_by (count today) d.
Proof.
  unfold covered, done_by. destruct (Z.leb_spec oriday d) as [H|H]; [simpl|done].
  unfold window_of. apply eq_iff_eq_true. rewrite Z.ltb_lt, Nat.ltb_lt.
  rewrite <- (Nat2Z.id (count today)) at 2.
  rewrite <- Z2Nat.inj_lt by (try apply Z.div_pos; lia).
  pose proof (Z.mul_div_le (d - oriday) 7). pose proof (Z.mod_pos_bound (d - oriday) 7).
  pose proof (Z.div_mod (d - oriday) 7). lia.
Qed.

End Window.
