(* ===== verification/Tags.v ===== *)
(** * Tag names and their escaping

    Tag names such as [c#] and [c++] cannot name SQLite tables, so the code
    translates them.  [pgrunner.py:38-39] and [tsrunner.py:43-44] escape a
    feed tag into a table name ([tag.replace('#', '_sharp').replace('++',
    '_plus')]); [pagerank.py:39-40] and [dataset.py:69-70] translate a table
    name back ([tag.replace('_sharp', '#').replace('_plus', '++')]).
    Python's [str.replace] scans left to right and replaces the leftmost
    non-overlapping occurrences; it is modelled on lists of characters by
    [replace], defined with Equations by well-founded recursion on the
    length of the subject, and reasoned about with its equations and
    [funelim].  The theorems: unescaping inverts escaping on tags without
    ['_'] ([tra_roundtrip]), and an escaped name has no ['#'] and no ["++"]
    ([tra_escape_reserved_free]). *)

From S2P Require Import Prelude.
From Stdlib Require Import Ascii String.
From Equations Require Import Equations.

Module Tags.

Fixpoint is_prefix (p s : list ascii) : bool :=
  match p, s with
  | [], _ => true
  | a :: p', b :: s' => Ascii.eqb a b && is_prefix p' s'
  | _ :: _, [] => false
  end.

Lemma is_prefix_length p s : is_prefix p s = true -> (List.length p <= List.length s)%nat.
Proof.
  revert s. induction p as [|a p IH]; intros [|b s]; simpl; try lia; try discriminate.
  rewrite andb_true_iff. intros [_ H]. specialize (IH _ H). lia.
Qed.

(** [s.replace(old, new)] for a non-empty [old] (every call of the code
    has a literal non-empty [old]). *)
Equations? replace (old new s : list ascii) : list ascii by wf (List.length s) lt :=
  replace old new s with decide (old <> [] /\ is_prefix old s = true) => {
    | left H := new ++ replace old new (drop (List.length old) s);
    | right _ with s => {
        | [] := [];
        | c :: s' := c :: replace old new s' } }.
Proof.
  match goal with Hp : is_prefix _ _ = true |- _ => apply is_prefix_length in Hp end.
  rewrite length_drop. destruct old; [congruence|]. simpl in *. lia.
Qed.

Definition str_replace (old new s : string) : string :=
  string_of_list_ascii (replace (list_ascii_of_string old) (list_ascii_of_string new)
                                (list_ascii_of_string s)).

(** [tra] of [pgrunner.py] and [tsrunner.py]: feed tag to table name. *)
Definition tra_escape (tag : string) : string :=
  str_replace "++" "_plus" (str_replace "#" "_sharp" tag).

(** [tra] of [pagerank.py] and [dataset.py]: table name to feed tag. *)
Definition tra_unescape (tag : string) : string :=
  str_replace "_plus" "++" (str_replace "_sharp" "#" tag).

Lemma is_prefix_app p s : is_prefix p (p ++ s) = true.
Proof. induction p as [|a p IH]; simpl; [done|]. by rewrite Ascii.eqb_refl, IH. Qed.

Lemma replace_nil old new : replace old new [] = [].
Proof.
  simp replace. destruct (decide _) as [Hd|Hn]; simp replace; [|done].
  exfalso. destruct Hd as [Hne H]. by destruct old.
Qed.

Lemma replace_hit old new s : old <> [] -> replace old new (old ++ s) = new ++ replace old new s.
Proof.
  intros Hne. simp replace. destruct (decide _) as [Hy|H]; simp replace.
  - by rewrite drop_app_length.
  - exfalso. apply H. split; [done|]. apply is_prefix_app.
Qed.

Lemma replace_skip old new c s :
  is_prefix old (c :: s) = false -> replace old new (c :: s) = c :: replace old new s.
Proof.
  intros Hp. simp replace. destruct (decide _) as [Hd|Hn]; simp replace; [|done].
  exfalso. destruct Hd. congruence.
Qed.

Lemma replace_skip_app o os new x s :
  o ∉ x -> replace (o :: os) new (x ++ s) = x ++ replace (o :: os) new s.
Proof.
  induction x as [|c x IH]; intros Hx; [done|]. simpl.
  rewrite replace_skip, IH; [done|set_solver|].
  simpl. destruct (Ascii.eqb_spec o c); [set_solver|done].
Qed.

#[local] Instance ascii_eqdec : EqDecision ascii := ascii_dec.

Local Abbreviation hash := ["#"%char].
Local Abbreviation sharp := ["_"%char; "s"%char; "h"%char; "a"%char; "r"%char; "p"%char].
Local Abbreviation pp := ["+"%char; "+"%char].
Local Abbreviation plus := ["_"%char; "p"%char; "l"%char; "u"%char; "s"%char].

(** The two functions [tra] on lists of characters. *)
Definition esc (l : list ascii) := replace pp plus (replace hash sharp l).
Definition unesc (l : list ascii) := replace plus pp (replace sharp hash l).

Lemma R1_cons c l :
  replace hash sharp (c :: l) = (if Ascii.eqb c "#" then sharp else [c]) ++ replace hash sharp l.
Proof.
  destruct (Ascii.eqb_spec c "#") as [->|Hc].
  - by apply (replace_hit hash sharp l).
  - apply (replace_skip_app _ _ _ [c]). set_solver.
Qed.

Lemma skip1 o os new c s : o <> c -> replace (o :: os) new (c :: s) = c :: replace (o :: os) new s.
Proof. intros H. apply (replace_skip_app _ _ _ [c]). set_solver. Qed.

(** Unescaping undoes escaping on a name without ['_']: every ['_'] of an
    escaped name starts a [_sharp] or a [_plus] that escaping wrote. *)
Lemma unesc_esc l : "_"%char ∉ l -> unesc (esc l) = l.
Proof.
  induction l as [l IH] using (well_founded_induction (well_founded_ltof _ (@List.length ascii))).
  unfold ltof in IH. destruct l as [|c l]; intros Hl; unfold esc, unesc.
  { by rewrite !replace_nil. }
  rewrite R1_cons. destruct (Ascii.eqb_spec c "#") as [->|Hc].
  - rewrite (replace_skip_app _ _ _ sharp) by decide_concrete.
    rewrite (replace_hit sharp hash) by done.
    rewrite (replace_skip_app _ _ _ hash) by decide_concrete.
    f_equal. apply IH; [simpl; lia|set_solver].
  - destruct (ascii_dec c "+") as [->|Hp].
    + destruct l as [|c' l]; [vm_compute; reflexivity|].
      destruct (ascii_dec c' "+") as [->|Hp'].
      * rewrite R1_cons. simpl app. change ("+"%char :: "+"%char :: ?X) with (pp ++ X).
        rewrite (replace_hit pp plus) by done.
        simpl app. rewrite replace_skip by reflexivity. rewrite !(skip1 _ _ hash) by discriminate.
        change ("_"%char :: "p"%char :: "l"%char :: "u"%char :: "s"%char :: ?X) with (plus ++ X).
        rewrite (replace_hit plus pp) by done. simpl app. do 2 f_equal.
        apply IH; [simpl; lia|set_solver].
      * simpl app. rewrite replace_skip.
        2: { rewrite R1_cons. destruct (Ascii.eqb c' "#"); cbn [is_prefix app];
             [done|by rewrite (proj2 (Ascii.eqb_neq _ _) (not_eq_sym Hp'))]. }
        rewrite !skip1 by done. f_equal. apply IH; [simpl; lia|set_solver].
    + assert ("_"%char <> c) by (intros Heq; subst c; set_solver).
      simpl app. rewrite (skip1 "+"%char) by congruence.
      rewrite (skip1 _ _ hash), (skip1 _ _ pp) by congruence.
      f_equal. apply IH; [simpl; lia|set_solver].
Qed.

Lemma str_replace_list old new s :
  list_ascii_of_string (str_replace old new s) =
  replace (list_ascii_of_string old) (list_ascii_of_string new) (list_ascii_of_string s).
Proof. apply list_ascii_of_string_of_list_ascii. Qed.

(** C29: on a tag without ['_'] (Stack Overflow tags are made of lower-case
    letters, digits and [+ # . -]), the [tra] of [pagerank.py] and
    [dataset.py] inverts the [tra] of [pgrunner.py] and [tsrunner.py], so a
    table name gives back the tag it was made from. *)
Theorem tra_roundtrip tag :
  "_"%char ∉ list_ascii_of_string tag -> tra_unescape (tra_escape tag) = tag.
Proof.
  intros Ht. unfold tra_unescape, tra_escape, str_replace at 1.
  rewrite (str_replace_list "_sharp"), (str_replace_list "++"), (str_replace_list "#").
  change (string_of_list_ascii (unesc (esc (list_ascii_of_string tag))) = tag).
  rewrite unesc_esc by done. apply string_of_list_ascii_of_string.
Qed.

(** Two consecutive ['+'] somewhere in the list. *)
Fixpoint has_pp (l : list ascii) : bool :=
  match l with
  | a :: ((b :: _) as t) => (Ascii.eqb a "+" && Ascii.eqb b "+") || has_pp t
  | _ => false
  end.

Lemma has_pp_cons c l : c <> "+"%char -> has_pp (c :: l) = has_pp l.
Proof.
  intros Hc. destruct l as [|b l]; [done|]. cbn [has_pp].
  by rewrite (proj2 (Ascii.eqb_neq _ _) Hc).
Qed.

Lemma replace_not_in old new c s :
  c ∉ s -> c ∉ new -> c ∉ replace old new s.
Proof.
  funelim (replace old new s); intros Hs Hn.
  - rewrite elem_of_app. intros [Hin|Hin]; [done|]. revert Hin.
    match goal with IH : context [replace] |- _ => apply IH end; [|done].
    intros Hin. apply Hs. by apply (subseteq_drop (List.length old) s).
  - apply not_elem_of_nil.
  - apply not_elem_of_cons in Hs as [Ha Hs]. apply not_elem_of_cons. split; [done|].
    match goal with IH : context [replace] |- _ => by apply IH end.
Qed.

Lemma has_pp_cons2 a b t : has_pp (a :: b :: t) = (Ascii.eqb a "+" && Ascii.eqb b "+") || has_pp (b :: t).
Proof. reflexivity. Qed.

Lemma R2_no_pp s : has_pp (replace pp plus s) = false.
Proof.
  induction s as [s IH] using (well_founded_induction (well_founded_ltof _ (@List.length ascii))).
  unfold ltof in IH. destruct s as [|c s]; [by rewrite replace_nil|].
  destruct (ascii_dec c "+") as [->|Hc].
  - destruct s as [|c' s]; [vm_compute; reflexivity|].
    destruct (ascii_dec c' "+") as [->|Hc'].
    + change ("+"%char :: "+"%char :: s) with (pp ++ s). rewrite replace_hit by done.
      cbn [app]. rewrite !has_pp_cons by discriminate. apply IH. simpl; lia.
    + rewrite replace_skip by (cbn [is_prefix]; by rewrite (proj2 (Ascii.eqb_neq _ _) (not_eq_sym Hc'))).
      rewrite (skip1 "+"%char _ _ c') by congruence.
      rewrite has_pp_cons2, (proj2 (Ascii.eqb_neq c' _) Hc'), andb_false_r, orb_false_l.
      rewrite <- (skip1 "+"%char _ _ c') by congruence. apply IH. simpl; lia.
  - rewrite skip1 by congruence. rewrite has_pp_cons by done. apply IH. simpl; lia.
Qed.

Lemma R1_no_hash s : "#"%char ∉ replace hash sharp s.
Proof.
  induction s as [|c s IH]; [rewrite replace_nil; apply not_elem_of_nil|].
  rewrite R1_cons. apply not_elem_of_app. split; [|done].
  destruct (Ascii.eqb_spec c "#"); [decide_concrete|set_solver].
Qed.

(** C30: Scenario 4 of the specification: the table name [tra] makes of
    a tag has no ['#'] and no ["++"]. *)
Theorem tra_escape_reserved_free tag :
  "#"%char ∉ list_ascii_of_string (tra_escape tag) /\
  has_pp (list_ascii_of_string (tra_escape tag)) = false.
Proof.
  unfold tra_escape. rewrite !str_replace_list.
  change (list_ascii_of_string "++") with pp. change (list_ascii_of_string "_plus") with plus.
  change (list_ascii_of_string "#") with hash. change (list_ascii_of_string "_sharp") with sharp.
  split; [|apply R2_no_pp].
  apply replace_not_in; [apply R1_no_hash|decide_concrete].
Qed.

Lemma tra_roundtrip_witness :
  "_"%char ∉ list_ascii_of_string "c#" /\ tra_escape "c#" = "c_sharp"%string /\
  tra_unescape (tra_escape "c#") = "c#"%string.
Proof.
  split; [decide_concrete|]. split; [vm_compute; reflexivity|].
  apply tra_roundtrip. decide_concrete.
Defined.

End Tags.
