(* ===== verification/DiGraph.v ===== *)
(** * The authority graph: networkx [DiGraph] as the runners use it

    [pgrunner.py] and [pagerank.py] keep a [networkx.DiGraph] whose nodes
    are user ids and whose edges carry an integer ["weight"]; each window
    adds its edges with the insert-or-increment loop of
    [pgrunner.py:103-107].  The graph is a record of the node list in
    insertion order (networkx's node dict) and a map from ordered pairs to
    weights (the ["weight"] attribute of [_succ[u][v]]). *)

From S2P Require Import Prelude.

Module DiGraph.
Local Open Scope Z_scope.

Record t := mk { nodes : list Z; wt : gmap (Z * Z) Z }.

Definition empty : t := mk [] ∅.

(** [G.add_node u]: a node already present keeps its position. *)
Definition add_node (g : t) (u : Z) : t :=
  if bool_decide (u ∈ nodes g) then g else mk (nodes g ++ [u]) (wt g).

Definition has_edge (g : t) (u v : Z) : bool :=
  bool_decide (is_Some (wt g !! (u, v))).

(** [G.add_edge(u, v, weight=w)]: adds [u], then [v], then sets the
    attribute. *)
Definition add_edge (g : t) (u v w : Z) : t :=
  let g' := add_node (add_node g u) v in
  mk (nodes g') (<[(u, v) := w]> (wt g')).

(** [G[u][v]['weight'] += w] on an existing edge. *)
Definition incr_weight (g : t) (u v w : Z) : t :=
  mk (nodes g) (<[(u, v) := default 0 (wt g !! (u, v)) + w]> (wt g)).

(** One iteration of the loop body of [pgrunner.py:103-107]. *)
Definition ingest_edge (g : t) (e : Z * Z * Z) : t :=
  let '(src, tar, weight) := e in
  if has_edge g src tar then incr_weight g src tar weight
  else add_edge g src tar weight.

Definition ingest (g : t) (edges : list (Z * Z * Z)) : t :=
  fold_left ingest_edge edges g.

Definition number_of_nodes (g : t) : nat := length (nodes g).

Definition weight (g : t) (u v : Z) : Z := default 0 (wt g !! (u, v)).

(** Well-formedness of a networkx graph as the runner builds it: no node
    twice, both ends of every edge are nodes, every weight is positive. *)
Record wf (g : t) : Prop := {
  wf_nodup : NoDup (nodes g);
  wf_ends : forall u v w, wt g !! (u, v) = Some w -> u ∈ nodes g /\ v ∈ nodes g;
  wf_pos : forall u v w, wt g !! (u, v) = Some w -> (0 < w)%Z
}.

Lemma empty_wf : wf empty.
Proof. split; simpl; [constructor| |]; intros u v w; by rewrite lookup_empty. Qed.

(** Sum of the weights a list of feed rows carries for the pair [(u,v)]. *)
Definition feed_weight (edges : list (Z * Z * Z)) (u v : Z) : Z :=
  fold_right (fun '(s, t, w) acc => if bool_decide ((s, t) = (u, v)) then (w + acc)%Z else acc)
    0%Z edges.

(** ** Lemmas on one step *)

Lemma add_node_nodes g u :
  nodes (add_node g u) = if bool_decide (u ∈ nodes g) then nodes g else nodes g ++ [u].
Proof. unfold add_node. by case_bool_decide. Qed.

Lemma elem_of_add_node g u x : x ∈ nodes (add_node g u) <-> x = u \/ x ∈ nodes g.
Proof.
  rewrite add_node_nodes. case_bool_decide; set_solver.
Qed.

Lemma add_node_wt g u : wt (add_node g u) = wt g.
Proof. unfold add_node. by case_bool_decide. Qed.

Lemma weight_ingest_edge g s t w u v :
  weight (ingest_edge g (s, t, w)) u v =
  (weight g u v + if bool_decide ((s, t) = (u, v)) then w else 0)%Z.
Proof.
  unfold weight, ingest_edge, has_edge, incr_weight, add_edge.
  case_bool_decide as Hst; case_bool_decide as Huv; simpl;
    rewrite ?add_node_wt.
  - inversion Huv; subst. rewrite lookup_insert_eq. simpl. lia.
  - rewrite lookup_insert_ne by congruence. lia.
  - inversion Huv; subst. rewrite lookup_insert_eq.
    destruct (wt g !! (u, v)); simpl; [exfalso; eauto|lia].
  - rewrite lookup_insert_ne by congruence. lia.
Qed.

Lemma elem_of_ingest_edge g s t w x :
  x ∈ nodes (ingest_edge g (s, t, w)) <->
  (has_edge g s t = false /\ (x = s \/ x = t)) \/ x ∈ nodes g.
Proof.
  unfold ingest_edge, incr_weight, add_edge.
  destruct (has_edge g s t); simpl; [intuition congruence|].
  rewrite !elem_of_add_node. tauto.
Qed.

Lemma add_node_nodup g u : NoDup (nodes g) -> NoDup (nodes (add_node g u)).
Proof.
  intros Hnd. rewrite add_node_nodes. case_bool_decide as Hu; [done|].
  apply NoDup_app. split_and!; [done| |apply NoDup_singleton].
  intros x Hx ->%list_elem_of_singleton. contradiction.
Qed.

Lemma ingest_edge_wf g s t w : wf g -> (0 < w)%Z -> wf (ingest_edge g (s, t, w)).
Proof.
  intros [Hnd Hends Hpos] Hw. unfold ingest_edge, has_edge, incr_weight, add_edge.
  case_bool_decide as Hst.
  - destruct Hst as [w0 Hw0]. split; simpl.
    + exact Hnd.
    + intros u v w'. rewrite lookup_insert.
      case_decide as E; [inversion E; subst; eauto | eauto].
    + intros u v w'. rewrite lookup_insert, Hw0. simpl.
      case_decide; [intros [= <-]; specialize (Hpos _ _ _ Hw0); lia | eauto].
  - split; simpl.
    + by do 2 apply add_node_nodup.
    + intros u v w'. rewrite lookup_insert, !add_node_wt, !elem_of_add_node.
      case_decide as E; [inversion E; subst; intros; tauto|].
      intros H. destruct (Hends _ _ _ H). tauto.
    + intros u v w'. rewrite lookup_insert, !add_node_wt.
      case_decide; [intros [= <-]; lia | eauto].
Qed.

(** ** The insert-or-increment loop over a whole window *)

Definition feed_pos (edges : list (Z * Z * Z)) : Prop :=
  Forall (fun '(_, _, w) => 0 < w) edges.

Lemma feed_weight_cons s t w edges u v :
  feed_weight ((s, t, w) :: edges) u v =
  (if bool_decide ((s, t) = (u, v)) then w else 0) + feed_weight edges u v.
Proof. simpl. case_bool_decide; lia. Qed.

Lemma ingest_cons g e edges : ingest g (e :: edges) = ingest (ingest_edge g e) edges.
Proof. reflexivity. Qed.

(** C3: after a window, the weight of every pair is its old weight plus
    the weights the window's feed carries for it: the loop adds to an
    existing edge and creates a missing one with the feed weight, and
    never loses weight. *)
Theorem ingest_weight g edges u v :
  weight (ingest g edges) u v = weight g u v + feed_weight edges u v.
Proof.
  revert g. induction edges as [|[[s t] w] edges IH]; intros g; [simpl; lia|].
  rewrite ingest_cons, IH, weight_ingest_edge, feed_weight_cons. case_bool_decide; lia.
Qed.

Lemma ingest_wf g edges : wf g -> feed_pos edges -> wf (ingest g edges).
Proof.
  intros Hg Hf. revert g Hg. induction Hf as [|[[s t] w] edges Hw Hf IH]; intros g Hg;
    simpl; [done|].
  apply IH, ingest_edge_wf; assumption.
Qed.

Lemma ingest_nodes_mono g edges x : x ∈ nodes g -> x ∈ nodes (ingest g edges).
Proof.
  revert g. induction edges as [|[[s t] w] edges IH]; intros g Hx; [done|].
  rewrite ingest_cons. apply IH, elem_of_ingest_edge. tauto.
Qed.

Lemma has_edge_ends g s t : wf g -> has_edge g s t = true -> s ∈ nodes g /\ t ∈ nodes g.
Proof.
  intros Hg H. unfold has_edge in H. apply bool_decide_eq_true in H.
  destruct H as [w Hw]. eapply wf_ends; eauto.
Qed.

(** The node set after a window is the old node set and the ends of the
    window's edges: networkx never removes a node. *)
Lemma ingest_nodes g edges x :
  wf g -> feed_pos edges ->
  x ∈ nodes (ingest g edges) <->
  x ∈ nodes g \/ exists s t w, (s, t, w) ∈ edges /\ (x = s \/ x = t).
Proof.
  intros Hg Hf. revert g Hg. induction Hf as [|[[s t] w] edges Hw Hf IH]; intros g Hg.
  - simpl. split; [tauto|]. intros [H|(?&?&?&H&_)]; [done|]. by apply elem_of_nil in H.
  - rewrite ingest_cons, IH by (by apply ingest_edge_wf). rewrite elem_of_ingest_edge.
    setoid_rewrite elem_of_cons. split.
    + intros [[[_ Hx]|Hx]|(s'&t'&w'&Hin&Hx)]; eauto 10.
    + intros [Hx|(s'&t'&w'&[[= -> -> ->]|Hin]&Hx)]; [tauto| |eauto 10].
      destruct (has_edge g s t) eqn:E; [|tauto].
      apply (has_edge_ends _ _ _ Hg) in E. left; right. destruct Hx; subst; tauto.
Qed.

(** C17: edge weights never decrease and nodes are never removed while
    the graph accumulates windows with positive feed weights. *)
Theorem ingest_monotone g edges u v x :
  feed_pos edges ->
  weight g u v <= weight (ingest g edges) u v /\
  (x ∈ nodes g -> x ∈ nodes (ingest g edges)).
Proof.
  intros Hf. split; [|apply ingest_nodes_mono].
  rewrite ingest_weight. enough (0 <= feed_weight edges u v) by lia.
  induction Hf as [|[[s t] w] edges Hw Hf IH]; rewrite ?feed_weight_cons; simpl;
    [lia|case_bool_decide; lia].
Qed.

(** From the empty graph, a window with at least one edge leaves a node. *)
Lemma ingest_empty_nonempty edges : edges <> [] -> nodes (ingest empty edges) <> [].
Proof.
  destruct edges as [|[[s t] w] edges]; [done|]. intros _.
  rewrite ingest_cons. intros Hnil.
  assert (s ∈ nodes (ingest (ingest_edge empty (s, t, w)) edges)) as Hs.
  { apply ingest_nodes_mono, elem_of_ingest_edge. left. split; [done|by left]. }
  rewrite Hnil in Hs. by apply elem_of_nil in Hs.
Qed.

Lemma ingest_nonempty g edges : nodes g <> [] -> nodes (ingest g edges) <> [].
Proof.
  destruct (nodes g) as [|x l] eqn:E; [done|]. intros _ Hnil.
  assert (x ∈ nodes (ingest g edges)) as Hx by (apply ingest_nodes_mono; rewrite E; left).
  rewrite Hnil in Hx. by apply elem_of_nil in Hx.
Qed.

(** ** The order of a window's rows *)

(** The same weights, and the same nodes in another order. *)
Definition equiv (g1 g2 : t) : Prop := nodes g1 ≡ₚ nodes g2 /\ wt g1 = wt g2.

#[export] Instance equiv_equivalence : Equivalence equiv.
Proof.
  split.
  - intros g. by split.
  - intros g1 g2 [Hn Hw]. by split.
  - intros g1 g2 g3 [Hn1 Hw1] [Hn2 Hw2]. split; [by rewrite Hn1|congruence].
Qed.

(** Every edge has both ends among the nodes, no node twice. *)
Definition closed (g : t) : Prop :=
  NoDup (nodes g) /\ forall u v w, wt g !! (u, v) = Some w -> u ∈ nodes g /\ v ∈ nodes g.

Lemma empty_closed : closed empty.
Proof. split; [constructor|]. intros u v w H. simpl in H. by rewrite lookup_empty in H. Qed.

Lemma wt_ingest_edge g s t w :
  wt (ingest_edge g (s, t, w)) = <[(s, t) := default 0 (wt g !! (s, t)) + w]> (wt g).
Proof.
  unfold ingest_edge, has_edge, incr_weight, add_edge.
  case_bool_decide as H; simpl; [done|]. rewrite !add_node_wt.
  destruct (wt g !! (s, t)) eqn:E; [exfalso; eauto|done].
Qed.

Lemma elem_of_ingest_edge_closed g s t w x :
  closed g -> x ∈ nodes (ingest_edge g (s, t, w)) <-> x = s \/ x = t \/ x ∈ nodes g.
Proof.
  intros [_ Hends]. rewrite elem_of_ingest_edge. unfold has_edge.
  case_bool_decide as H; [|naive_solver]. destruct H as [w0 Hw0].
  destruct (Hends _ _ _ Hw0). naive_solver.
Qed.

Lemma ingest_edge_closed g e : closed g -> closed (ingest_edge g e).
Proof.
  destruct e as [[s t] w]. intros Hc. pose proof Hc as [Hnd Hends]. split.
  - unfold ingest_edge. destruct (has_edge g s t); simpl; [done|]. by do 2 apply add_node_nodup.
  - intros u v w'. rewrite wt_ingest_edge, lookup_insert, !elem_of_ingest_edge_closed by done.
    case_decide as E; [injection E as <- <-; tauto|]. intros H. destruct (Hends _ _ _ H). tauto.
Qed.

Lemma add_node_perm g1 g2 u : nodes g1 ≡ₚ nodes g2 -> nodes (add_node g1 u) ≡ₚ nodes (add_node g2 u).
Proof.
  intros Hp. rewrite !add_node_nodes.
  case_bool_decide as H1; case_bool_decide as H2; rewrite ?Hp in H1; try done; by rewrite Hp.
Qed.

Lemma ingest_edge_equiv g1 g2 e : equiv g1 g2 -> equiv (ingest_edge g1 e) (ingest_edge g2 e).
Proof.
  destruct e as [[s t] w]. intros [Hn Hw]. split; [|by rewrite !wt_ingest_edge, Hw].
  unfold ingest_edge, has_edge. rewrite Hw.
  case_bool_decide; simpl; [done|]. by do 2 apply add_node_perm.
Qed.

Lemma ingest_equiv g1 g2 l : equiv g1 g2 -> equiv (ingest g1 l) (ingest g2 l).
Proof.
  revert g1 g2. induction l as [|e l IH]; intros g1 g2 H; [done|].
  apply IH, ingest_edge_equiv, H.
Qed.

Lemma ingest_edge_swap g e1 e2 :
  closed g -> equiv (ingest_edge (ingest_edge g e1) e2) (ingest_edge (ingest_edge g e2) e1).
Proof.
  destruct e1 as [[s1 t1] w1], e2 as [[s2 t2] w2]. intros Hc. split.
  - apply NoDup_Permutation; [apply ingest_edge_closed, ingest_edge_closed, Hc..|].
    intros x. rewrite !elem_of_ingest_edge_closed by (try apply ingest_edge_closed; done). tauto.
  - rewrite !wt_ingest_edge. apply map_eq. intros k. rewrite !lookup_insert.
    repeat case_decide; simplify_eq/=; f_equal; lia.
Qed.

Lemma ingest_closed g l : closed g -> closed (ingest g l).
Proof. revert g. induction l as [|e l IH]; intros g Hc; [done|]. apply IH, ingest_edge_closed, Hc. Qed.

(** The graph after a window does not depend on the order of the
    window's rows, up to the order of its node list. *)
Lemma ingest_perm g l1 l2 : closed g -> l1 ≡ₚ l2 -> equiv (ingest g l1) (ingest g l2).
Proof.
  intros Hc Hp. revert g Hc. induction Hp as [|e l1 l2 _ IH|e1 e2 l|l1 l2 l3 _ IH1 _ IH2]; intros g Hc.
  - done.
  - apply IH, ingest_edge_closed, Hc.
  - exact (ingest_equiv _ _ l (ingest_edge_swap g e2 e1 Hc)).
  - etrans; [apply IH1, Hc|apply IH2, Hc].
Qed.

(** ** Witnesses *)

Lemma ingest_monotone_witness :
  feed_pos [(1, 2, 2); (2, 3, 1)] /\
  weight empty 1 2 <= weight (ingest empty [(1, 2, 2); (2, 3, 1)]) 1 2 /\
  (1 ∈ nodes (ingest empty [(1, 2, 2)]) -> 1 ∈ nodes (ingest (ingest empty [(1, 2, 2)]) [(2, 3, 1)])).
Proof.
  assert (Hf : feed_pos [(1, 2, 2); (2, 3, 1)]) by (repeat constructor).
  split; [exact Hf|]. split.
  - exact (proj1 (ingest_monotone empty _ 1 2 1 Hf)).
  - apply (ingest_monotone _ [(2, 3, 1)] 1 2 1). repeat constructor.
Defined.

End DiGraph.
