(* ===== verification/PageRank.v ===== *)
(** * Authority scores: networkx [pagerank_scipy] on the authority graph

    The runners call [nx.pagerank_scipy(graph, max_iter=200,
    nstart=pr_start)] ([pgrunner.py:112], [pagerank.py:112]).  That
    function belongs to networkx, not to this repository; it is modelled
    here from its documented algorithm with the defaults the runners leave
    in place: damping [alpha = 0.85], tolerance [tol = 1e-6], uniform
    personalization and dangling weights, the start vector [nstart]
    normalised by its sum, and the L1 convergence test [err < N * tol].
    Floats are modelled by exact rationals; a vector over the node list is
    a finite map from node to value, as the returned dict is. *)

From S2P Require Import Prelude DiGraph.

Module PageRank.
Local Open Scope Q_scope.
Local Open Scope s2p_scope.

Definition alpha : Q := 85 # 100.

(** [a ^ n] for a natural exponent. *)
Fixpoint qpow (a : Q) (n : nat) : Q :=
  match n with O => 1 | S n => a * qpow a n end.
Definition tol : Q := 1 # 1000000.

(** A vector over the node list, as the dict networkx returns. *)
Abbreviation vec := (gmap Z Q).

(** [nstart.get(n, 0)] *)
Definition at_ (x : vec) (u : Z) : Q := default 0 (x !! u).

(** The node list [list(G)], in insertion order. *)
Abbreviation nodes g := (DiGraph.nodes g).

Section WithGraph.
Variable g : DiGraph.t.


(** [N = len(G)] as a rational. *)
Definition N : Q := inject_Z (Z.of_nat (length (nodes g))).

(** [p = repeat(1.0 / N, N)]: personalization and dangling weights. *)
Definition p : Q := 1 / N.

(** The entry of [to_scipy_sparse_matrix(G, nodelist, weight)]. *)
Definition w (u v : Z) : Q := inject_Z (DiGraph.weight g u v).

(** [S = M.sum(axis=1)] *)
Definition out_w (u : Z) : Q := Σ[v <- nodes g] w u v.

(** [is_dangling = where(S == 0)] *)
Definition dangling (u : Z) : bool := Qeq_bool (out_w u) 0.

(** The row-normalised matrix [Q * M] ([S[S != 0] = 1.0 / S[S != 0]]). *)
Definition M (u v : Z) : Q := if dangling u then 0 else w u v / out_w u.

(** [dict(zip(nodelist, x))]: materialise a vector over the nodes. *)
Definition tabulate (f : Z -> Q) : vec :=
  foldr (fun v m => <[v := Qred (f v)]> m) ∅ (nodes g).

(** [sum(x[is_dangling])] *)
Definition dsum (x : vec) : Q := Σ[u <- nodes g] (if dangling u then at_ x u else 0).

(** One power-iteration step:
    [x = alpha * (x * M + sum(x[is_dangling]) * dangling_weights) + (1 - alpha) * p]. *)
Definition step (x : vec) : vec :=
  tabulate (fun v => alpha * ((Σ[u <- nodes g] at_ x u * M u v) + dsum x * p) + (1 - alpha) * p).

(** [err = absolute(x - xlast).sum()] *)
Definition err (x xlast : vec) : Q := Σ[v <- nodes g] Qabs (at_ x v - at_ xlast v).

(** [for _ in range(max_iter): ...; raise PowerIterationFailedConvergence]:
    [None] is the exception. *)
Fixpoint iterate (fuel : nat) (xlast : vec) : option vec :=
  match fuel with
  | O => None
  | S k =>
      let x := step xlast in
      if Qltb (err x xlast) (N * tol) then Some x else iterate k x
  end.

(** [x = array([nstart.get(n, 0) for n in nodelist]); x = x / x.sum()] *)
Definition start (nstart : vec) : vec :=
  let s := Σ[u <- nodes g] at_ nstart u in tabulate (fun u => at_ nstart u / s).

(** [pagerank_scipy(G, max_iter, nstart)]: an empty graph gives [{}]. *)
Definition pagerank_scipy (max_iter : nat) (nstart : vec) : option vec :=
  if bool_decide (nodes g = []) then Some ∅ else iterate max_iter (start nstart).

End WithGraph.
(** ** Properties of one step *)

Section Props.
Variable g : DiGraph.t.
Hypothesis Hwf : DiGraph.wf g.

(** A probability vector over the nodes. *)
Definition prob (x : vec) : Prop :=
  (forall u, u ∈ nodes g -> 0 <= at_ x u) /\ (Σ[u <- nodes g] at_ x u) == 1.

Lemma at_tabulate_gen (f : Z -> Q) (l : list Z) v :
  v ∈ l -> at_ (foldr (fun v m => <[v := Qred (f v)]> m) ∅ l) v == f v.
Proof.
  induction l as [|a l IH]; simpl; intros Hv; [by apply elem_of_nil in Hv|].
  unfold at_ in *. rewrite lookup_insert. case_decide as E.
  - subst. simpl. apply Qred_correct.
  - apply IH. apply elem_of_cons in Hv. destruct Hv; [congruence|done].
Qed.

Lemma at_tabulate f v : v ∈ nodes g -> at_ (tabulate g f) v == f v.
Proof. apply at_tabulate_gen. Qed.

Lemma tabulate_dom f u v : tabulate g f !! u = Some v -> u ∈ nodes g.
Proof.
  unfold tabulate. induction (nodes g) as [|a l IH]; simpl; [by rewrite lookup_empty|].
  rewrite lookup_insert. case_decide; [subst; set_solver|]. intros Hl. apply IH in Hl. set_solver.
Qed.

(** The dict [pagerank_scipy] returns has exactly the graph's nodes as keys
    (for a non-empty graph). *)
Lemma pagerank_scipy_dom m nstart x u v : nodes g <> [] ->
  pagerank_scipy g m nstart = Some x -> x !! u = Some v -> u ∈ nodes g.
Proof.
  intros Hne. unfold pagerank_scipy. rewrite bool_decide_eq_false_2 by done.
  generalize (start g nstart). induction m as [|k IH]; intros y; simpl; [discriminate|].
  destruct (Qltb _ _); [intros [= <-]; apply tabulate_dom|apply IH].
Qed.

Lemma N_pos : nodes g <> [] -> 0 < N g.
Proof.
  intros Hne. unfold N. destruct (nodes g) as [|a l]; [done|].
  simpl length. rewrite <- (Zlt_Qlt 0). lia.
Qed.

Lemma N_p : nodes g <> [] -> N g * p g == 1.
Proof. intros Hne. pose proof (N_pos Hne). unfold p. field. lra. Qed.

Lemma p_nonneg : 0 <= p g.
Proof.
  unfold p, N. destruct (nodes g) as [|a l]; [vm_compute; discriminate|].
  apply Qle_shift_div_l; [rewrite <- (Zlt_Qlt 0); simpl length; lia|lra].
Qed.

Lemma w_nonneg u v : 0 <= w g u v.
Proof.
  unfold w, DiGraph.weight. rewrite <- (Zle_Qle 0).
  destruct (DiGraph.wt g !! (u, v)) eqn:E; simpl; [|lia].
  pose proof (DiGraph.wf_pos _ Hwf _ _ _ E). lia.
Qed.

Lemma out_w_nonneg u : 0 <= out_w g u.
Proof. apply qsum_nonneg. intros v _. apply w_nonneg. Qed.

Lemma M_nonneg u v : 0 <= M g u v.
Proof.
  unfold M, dangling. destruct (Qeq_bool (out_w g u) 0) eqn:E; [apply Qle_refl|].
  apply Qle_shift_div_l; [|pose proof (w_nonneg u v); lra].
  destruct (Qle_lt_or_eq _ _ (out_w_nonneg u)) as [H|H]; [done|].
  assert (Qeq_bool (out_w g u) 0 = true) by (apply Qeq_bool_iff; symmetry; exact H).
  congruence.
Qed.

Lemma dangling_false u : dangling g u = false -> ~ out_w g u == 0.
Proof. unfold dangling. intros E H. apply Qeq_bool_iff in H. congruence. Qed.

(** Every row of the normalised matrix sums to 1, a dangling row to 0. *)
Lemma rowsum u : (Σ[v <- nodes g] M g u v) == if dangling g u then 0 else 1.
Proof.
  unfold M. destruct (dangling g u) eqn:E.
  - rewrite qsum_const. ring.
  - transitivity (Σ[v <- nodes g] / out_w g u * w g u v).
    { apply qsum_ext. intros v _. unfold Qdiv. ring. }
    rewrite qsum_scale. pose proof (dangling_false u E) as Hne.
    rewrite Qmult_comm. apply Qmult_inv_r. exact Hne.
Qed.

(** Pushing a vector through the matrix keeps the mass of the rows that
    are not dangling. *)
Lemma sum_through_M (c : Z -> Q) :
  (Σ[v <- nodes g] Σ[u <- nodes g] c u * M g u v) ==
  Σ[u <- nodes g] c u * (if dangling g u then 0 else 1).
Proof.
  etransitivity; [symmetry; apply (qsum_swap (fun u v => c u * M g u v))|].
  apply qsum_ext. intros u _. rewrite qsum_scale, rowsum. reflexivity.
Qed.

Lemma split_dangling (c : Z -> Q) :
  (Σ[u <- nodes g] if dangling g u then c u else 0) +
  (Σ[u <- nodes g] c u * (if dangling g u then 0 else 1)) ==
  Σ[u <- nodes g] c u.
Proof.
  rewrite <- qsum_plus. apply qsum_ext. intros u _.
  destruct (dangling g u); ring.
Qed.

Lemma qsum_shift (f : Z -> Q) c :
  (Σ[v <- nodes g] f v + c) == (Σ[v <- nodes g] f v) + N g * c.
Proof. rewrite qsum_plus, qsum_const. reflexivity. Qed.

Lemma step_at x v : v ∈ nodes g ->
  at_ (step g x) v ==
  alpha * ((Σ[u <- nodes g] at_ x u * M g u v) + dsum g x * p g) + (1 - alpha) * p g.
Proof. apply at_tabulate. Qed.

(** The mass after one step: [alpha * mass + (1 - alpha)]. *)
Lemma step_sum x : nodes g <> [] ->
  (Σ[v <- nodes g] at_ (step g x) v) == alpha * (Σ[u <- nodes g] at_ x u) + (1 - alpha).
Proof.
  intros Hne. rewrite (qsum_ext _ _ _ (step_at x)).
  rewrite qsum_shift, qsum_scale, qsum_shift, sum_through_M, <- (split_dangling (at_ x)).
  pose proof (N_p Hne) as HNp.
  assert (forall A B, alpha * (B + N g * (A * p g)) + N g * ((1 - alpha) * p g) ==
                      alpha * (A + B) + (1 - alpha)) as Hring.
  { intros A B. transitivity (alpha * (B + A * (N g * p g)) + (1 - alpha) * (N g * p g));
      [ring|]. rewrite HNp. ring. }
  apply (Hring (dsum g x)).
Qed.

(** Every entry after a step is at least [(1 - alpha) / N]. *)
Lemma step_lower x v :
  (forall u, u ∈ nodes g -> 0 <= at_ x u) -> v ∈ nodes g ->
  (1 - alpha) * p g <= at_ (step g x) v.
Proof.
  intros Hx Hv. rewrite step_at by done.
  assert (0 <= Σ[u <- nodes g] at_ x u * M g u v).
  { apply qsum_nonneg. intros u Hu. apply Qmult_le_0_compat; [auto|apply M_nonneg]. }
  assert (0 <= dsum g x).
  { apply qsum_nonneg. intros u Hu. destruct (dangling g u); [auto|apply Qle_refl]. }
  pose proof p_nonneg. assert (0 <= dsum g x * p g) by (apply Qmult_le_0_compat; done).
  unfold alpha in *. lra.
Qed.

(** ** The power iteration is an L1 contraction of factor [alpha] *)

Lemma step_diff x y v : v ∈ nodes g ->
  at_ (step g x) v - at_ (step g y) v ==
  alpha * ((Σ[u <- nodes g] (at_ x u - at_ y u) * M g u v) +
           (Σ[u <- nodes g] if dangling g u then at_ x u - at_ y u else 0) * p g).
Proof.
  intros Hv. rewrite !step_at by done.
  assert (E1 : (Σ[u <- nodes g] (at_ x u - at_ y u) * M g u v) ==
               (Σ[u <- nodes g] at_ x u * M g u v) - Σ[u <- nodes g] at_ y u * M g u v).
  { rewrite <- qsum_minus. apply qsum_ext. intros. ring. }
  assert (E2 : (Σ[u <- nodes g] if dangling g u then at_ x u - at_ y u else 0) ==
               dsum g x - dsum g y).
  { unfold dsum. rewrite <- qsum_minus. apply qsum_ext. intros. destruct (dangling g _); ring. }
  rewrite E1, E2. ring.
Qed.

Lemma diff_bound (d : Z -> Q) : nodes g <> [] ->
  (Σ[v <- nodes g] Qabs ((Σ[u <- nodes g] d u * M g u v) +
                         (Σ[u <- nodes g] if dangling g u then d u else 0) * p g))
  <= Σ[u <- nodes g] Qabs (d u).
Proof.
  intros Hne.
  apply Qle_trans with (Σ[v <- nodes g] (Σ[u <- nodes g] Qabs (d u) * M g u v) +
                          (Σ[u <- nodes g] if dangling g u then Qabs (d u) else 0) * p g).
  - apply qsum_le. intros v _.
    eapply Qle_trans; [apply Qabs_triangle|]. apply Qplus_le_compat.
    + eapply Qle_trans; [apply qsum_abs|]. apply qsum_le. intros u _.
      rewrite Qabs_Qmult, (Qabs_pos (M g u v)) by apply M_nonneg. apply Qle_refl.
    + rewrite Qabs_Qmult, (Qabs_pos (p g)) by apply p_nonneg.
      apply Qmult_le_compat_r; [|apply p_nonneg].
      eapply Qle_trans; [apply qsum_abs|]. apply qsum_le. intros u _.
      destruct (dangling g u); apply Qle_refl.
  - rewrite qsum_shift, (sum_through_M (fun u => Qabs (d u))).
    rewrite <- (split_dangling (fun u => Qabs (d u))).
    pose proof (N_p Hne) as HNp.
    apply Qle_lteq. right.
    set (A := Σ[u <- nodes g] if dangling g u then Qabs (d u) else 0).
    transitivity (A * (N g * p g) + Σ[u <- nodes g] Qabs (d u) * (if dangling g u then 0 else 1));
      [ring|]. rewrite HNp. ring.
Qed.

(** C27: one power-iteration step brings two vectors closer by the
    damping factor: [err (step x) (step y) <= 0.85 * err x y]. *)
Theorem step_contract x y : nodes g <> [] ->
  err g (step g x) (step g y) <= alpha * err g x y.
Proof.
  intros Hne. unfold err.
  apply Qle_trans with (Σ[v <- nodes g] alpha * Qabs
      ((Σ[u <- nodes g] (at_ x u - at_ y u) * M g u v) +
       (Σ[u <- nodes g] if dangling g u then at_ x u - at_ y u else 0) * p g)).
  - apply Qle_lteq. right. apply qsum_ext. intros v Hv.
    rewrite step_diff by done. rewrite Qabs_Qmult, (Qabs_pos alpha) by (unfold alpha; lra).
    reflexivity.
  - rewrite qsum_scale. apply Qmult_le_l; [unfold alpha; lra|].
    apply (diff_bound (fun u => at_ x u - at_ y u) Hne).
Qed.

(** ** Probability vectors and convergence within the cap *)

Lemma err_prob x y : prob x -> prob y -> err g x y <= 2.
Proof.
  intros [Hx Sx] [Hy Sy]. unfold err.
  apply Qle_trans with (Σ[v <- nodes g] at_ x v + at_ y v).
  - apply qsum_le. intros v Hv. apply Qabs_Qle_condition.
    specialize (Hx v Hv). specialize (Hy v Hv). lra.
  - rewrite qsum_plus, Sx, Sy. lra.
Qed.

Lemma step_prob x : nodes g <> [] -> prob x -> prob (step g x).
Proof.
  intros Hne [Hx Sx]. split.
  - intros v Hv. eapply Qle_trans; [|apply step_lower; done].
    pose proof p_nonneg. apply Qmult_le_0_compat; [unfold alpha; lra|done].
  - rewrite step_sum, Sx by done. ring.
Qed.

Lemma start_prob nstart :
  (forall u, u ∈ nodes g -> 0 <= at_ nstart u) ->
  0 < (Σ[u <- nodes g] at_ nstart u) ->
  prob (start g nstart).
Proof.
  intros Hn Hs. unfold start. split.
  - intros u Hu. rewrite at_tabulate by done.
    apply Qle_shift_div_l; [done|]. specialize (Hn u Hu). lra.
  - rewrite (qsum_ext _ (fun u => / (Σ[u <- nodes g] at_ nstart u) * at_ nstart u)).
    + rewrite qsum_scale. rewrite Qmult_comm. apply Qmult_inv_r. lra.
    + intros u Hu. rewrite at_tabulate by done. unfold Qdiv. ring.
Qed.

Lemma qpow_nonneg a n : 0 <= a -> 0 <= qpow a n.
Proof.
  intros Ha. induction n as [|n IH]; simpl; [lra|]. by apply Qmult_le_0_compat.
Qed.

(** If the first residual is at most [c] and [c * alpha^k] is below the
    threshold, the loop returns within [k + 1] iterations. *)
Lemma iterate_some k x c : nodes g <> [] ->
  err g (step g x) x <= c -> c * qpow alpha k < N g * tol -> is_Some (iterate g (S k) x).
Proof.
  intros Hne. revert x c. induction k as [|k IH]; intros x c Hc Hk; simpl iterate.
  - simpl in Hk. destruct (Qltb _ _) eqn:E; [eauto|].
    exfalso. assert (err g (step g x) x < N g * tol) as H by lra.
    apply Qltb_spec in H. congruence.
  - destruct (Qltb _ _) eqn:E; [eauto|]. apply (IH _ (alpha * c)).
    + eapply Qle_trans; [apply step_contract; done|].
      apply Qmult_le_l; [unfold alpha; lra|done].
    + simpl in Hk. assert (c * (alpha * qpow alpha k) == alpha * c * qpow alpha k) as <- by ring.
      exact Hk.
Qed.

(** What the loop returns is a step of a probability vector. *)
Lemma iterate_result fuel x y : nodes g <> [] -> prob x -> iterate g fuel x = Some y ->
  prob y /\ forall u, u ∈ nodes g -> (1 - alpha) * p g <= at_ y u.
Proof.
  intros Hne. revert x. induction fuel as [|k IH]; intros x Hx; simpl; [discriminate|].
  destruct (Qltb _ _); [intros [= <-]|]; [|apply IH; by apply step_prob].
  split; [by apply step_prob|]. intros u Hu. apply step_lower; [apply Hx|done].
Qed.

Lemma N_ge_1 : nodes g <> [] -> 1 <= N g.
Proof.
  intros Hne. unfold N. destruct (nodes g) as [|a l]; [done|].
  rewrite <- (Zle_Qle 1). simpl length. lia.
Qed.

(** [2 * 0.85^199 < 1e-6]: the cap of 200 iterations is enough. *)
Lemma cap_enough : 2 * qpow alpha 199 < tol.
Proof. vm_compute. reflexivity. Qed.

(** C5: on the runners' call ([max_iter = 200], a non-empty well-formed
    graph, a start vector that is non-negative with positive sum),
    [pagerank_scipy] returns: [PowerIterationFailedConvergence] is never
    raised in exact arithmetic.  The result is a probability vector
    whose entries are all at least [(1 - alpha) / N]. *)
Theorem pagerank_scipy_converges nstart :
  nodes g <> [] ->
  (forall u, u ∈ nodes g -> 0 <= at_ nstart u) ->
  0 < (Σ[u <- nodes g] at_ nstart u) ->
  exists x, pagerank_scipy g 200 nstart = Some x /\ prob x /\
    forall u, u ∈ nodes g -> (1 - alpha) * p g <= at_ x u.
Proof.
  intros Hne Hn Hs. unfold pagerank_scipy. rewrite bool_decide_eq_false_2 by done.
  pose proof (start_prob _ Hn Hs) as Hp0.
  destruct (iterate_some 199 (start g nstart) 2 Hne) as [x Hx].
  - apply err_prob; [apply step_prob|]; done.
  - pose proof cap_enough. pose proof (N_ge_1 Hne). unfold tol in *. nra.
  - exists x. split; [done|]. exact (iterate_result _ _ _ Hne Hp0 Hx).
Qed.

End Props.
(** ** Invariance under the order of the node list *)

Lemma Qltb_compat a a' b b' : a == a' -> b == b' -> Qltb a b = Qltb a' b'.
Proof.
  intros Ha Hb. apply eq_iff_eq_true. rewrite !Qltb_spec, Ha, Hb. reflexivity.
Qed.

Lemma tabulate_lookup_gen (f : Z -> Q) (l : list Z) v :
  (foldr (fun v m => <[v := Qred (f v)]> m) ∅ l : vec) !! v =
  if bool_decide (v ∈ l) then Some (Qred (f v)) else None.
Proof.
  induction l as [|a l IH]; cbn [foldr].
  - by rewrite lookup_empty, bool_decide_eq_false_2 by apply not_elem_of_nil.
  - rewrite lookup_insert, IH. destruct (decide (a = v)) as [->|Hne].
    + by rewrite bool_decide_eq_true_2 by set_solver.
    + repeat case_bool_decide; set_solver.
Qed.

Section NodeOrder.
Variables g1 g2 : DiGraph.t.
Hypothesis Heq : DiGraph.equiv g1 g2.

Lemma N_equiv : N g1 = N g2.
Proof. unfold N. by rewrite (Permutation_length (proj1 Heq)). Qed.

Lemma w_equiv u v : w g1 u v = w g2 u v.
Proof. unfold w, DiGraph.weight. by rewrite (proj2 Heq). Qed.

Lemma out_w_equiv u : out_w g1 u == out_w g2 u.
Proof.
  unfold out_w. rewrite (proj1 Heq). apply qsum_ext. intros v _. by rewrite w_equiv.
Qed.

Lemma dangling_equiv u : dangling g1 u = dangling g2 u.
Proof.
  unfold dangling. apply eq_iff_eq_true. rewrite !Qeq_bool_iff, out_w_equiv. reflexivity.
Qed.

Lemma M_equiv u v : M g1 u v == M g2 u v.
Proof.
  unfold M. rewrite dangling_equiv, w_equiv. destruct (dangling g2 u); [reflexivity|].
  apply Qdiv_comp; [reflexivity|apply out_w_equiv].
Qed.

Lemma tabulate_equiv f1 f2 :
  (forall v, v ∈ nodes g1 -> f1 v == f2 v) -> tabulate g1 f1 = tabulate g2 f2.
Proof.
  intros Hf. apply map_eq. intros v. unfold tabulate. rewrite !tabulate_lookup_gen.
  rewrite (bool_decide_ext (v ∈ nodes g2) (v ∈ nodes g1)) by (symmetry; apply elem_of_Permutation_proper, Heq).
  case_bool_decide as Hv; [|done]. f_equal. by apply Qred_complete, Hf.
Qed.

Lemma dsum_equiv x : dsum g1 x == dsum g2 x.
Proof.
  unfold dsum. rewrite (proj1 Heq). apply qsum_ext. intros u _. by rewrite dangling_equiv.
Qed.

Lemma step_equiv x : step g1 x = step g2 x.
Proof.
  apply tabulate_equiv. intros v _. unfold p. rewrite N_equiv, dsum_equiv, (proj1 Heq).
  rewrite (qsum_ext (fun u => at_ x u * M g1 u v) (fun u => at_ x u * M g2 u v)) by
    (intros u _; by rewrite M_equiv).
  reflexivity.
Qed.

Lemma err_equiv x y : err g1 x y == err g2 x y.
Proof. unfold err. by rewrite (proj1 Heq). Qed.

Lemma iterate_equiv k x : iterate g1 k x = iterate g2 k x.
Proof.
  revert x. induction k as [|k IH]; intros x; [done|]. simpl.
  rewrite step_equiv, (Qltb_compat _ (err g2 (step g2 x) x) _ (N g2 * tol)).
  - by destruct (Qltb _ _).
  - by rewrite <- step_equiv, err_equiv.
  - by rewrite N_equiv.
Qed.

(** [pagerank_scipy] sees the graph through its weights and its node
    set: the order of the node list does not change the result. *)
Lemma pagerank_scipy_equiv k x : pagerank_scipy g1 k x = pagerank_scipy g2 k x.
Proof.
  unfold pagerank_scipy.
  assert (Hs : start g1 x = start g2 x).
  { apply tabulate_equiv. intros u _. by rewrite (proj1 Heq). }
  rewrite Hs, iterate_equiv.
  assert (nodes g1 = [] <-> nodes g2 = []) as Hnil.
  { pose proof (proj1 Heq) as Hp. split; intros H; rewrite H in Hp;
      [by apply Permutation_nil|by apply Permutation_nil; symmetry]. }
  by repeat case_bool_decide; tauto.
Qed.

End NodeOrder.

(** ** Witnesses, on the graph 1 -> 2 (weight 2), 2 -> 3 (weight 1) *)

Definition g_example : DiGraph.t := DiGraph.ingest DiGraph.empty [(1, 2, 2); (2, 3, 1)]%Z.
Definition nstart_example : vec := <[1%Z := 1]> (<[2%Z := 1]> (<[3%Z := 1]> ∅)).

Lemma g_example_wf : DiGraph.wf g_example.
Proof. apply DiGraph.ingest_wf; [apply DiGraph.empty_wf|repeat constructor]. Qed.

Lemma pagerank_scipy_converges_witness :
  nodes g_example <> [] /\ 0 < (Σ[u <- nodes g_example] at_ nstart_example u) /\
  exists x, pagerank_scipy g_example 200 nstart_example = Some x /\ prob g_example x /\
    forall u, u ∈ nodes g_example -> (1 - alpha) * p g_example <= at_ x u.
Proof.
  assert (Hne : nodes g_example <> []) by (vm_compute; discriminate).
  assert (Hs : 0 < (Σ[u <- nodes g_example] at_ nstart_example u)) by (vm_compute; reflexivity).
  split; [exact Hne|]. split; [exact Hs|].
  apply (pagerank_scipy_converges g_example g_example_wf nstart_example Hne); [|exact Hs].
  intros u Hu. vm_compute in Hu.
  repeat (apply elem_of_cons in Hu as [->|Hu]; [vm_compute; discriminate|]). by apply elem_of_nil in Hu.
Defined.

Lemma step_contract_witness :
  nodes g_example <> [] /\
  err g_example (step g_example ∅) (step g_example nstart_example) <=
  alpha * err g_example ∅ nstart_example.
Proof.
  assert (Hne : nodes g_example <> []) by (vm_compute; discriminate).
  split; [exact Hne|]. exact (step_contract g_example g_example_wf ∅ nstart_example Hne).
Defined.

End PageRank.
