(* ===== verification/PGRunner.v ===== *)
(** * The PageRank runner ([pgrunner.py], class [PGRunner])

    [PGRunner] keeps the warm-start dict [self.pager] and the SQLite store
    [Data/PageRank.sqlite], one table per escaped tag with rows
    [(user_id, judge_date, pagerank)].  [run(tag)] rebuilds the authority
    graph from nothing, walks the weekly windows, and per window ingests
    the window's edges, recomputes PageRank warm-started from [self.pager],
    and writes [pagerank * number_of_nodes] for the users whose judge date
    falls in the window; it commits once, after the last window.
    [runall] runs every tag in turn on the same object. *)

From S2P Require Import Prelude Window Tags DiGraph PageRank.
From Stdlib Require Import String.

Module PGRunner.
Local Open Scope Q_scope.
Local Open Scope s2p_scope.

(** A row of a tag table ([create_table], [pgrunner.py:73-77]). *)
Record row := mk_row { judge_date : Z; pagerank : Q }.

Abbreviation table := (gmap Z row).

(** [self._pager(uid)], [pgrunner.py:59-63] *)
Definition _pager (pager : gmap Z Q) (uid : Z) : Q :=
  match pager !! uid with Some v => v | None => 0 end.

(** [dict.fromkeys(keys, v)] *)
Definition fromkeys (keys : list Z) (v : Q) : gmap Z Q :=
  foldr (fun k m => <[k := v]> m) ∅ keys.

(** [pr_start = dict.fromkeys(graph, 1.0 / graph.number_of_nodes())];
    [pr_start.update(self.pager)] ([pgrunner.py:108-110]).  The division
    is evaluated before the dict is built, also on an empty graph. *)
Definition pr_start (g : DiGraph.t) (pager : gmap Z Q) : result (gmap Z Q) :=
  if (DiGraph.number_of_nodes g =? 0)%nat then Raise ZeroDivisionError
  else Ok (pager ∪ fromkeys (DiGraph.nodes g) (1 / PageRank.N g)).

(** The state [run] threads through the windows: the local [graph] and
    the object's [self.pager]. *)
Record engine := mk_engine { graph : DiGraph.t; pager : gmap Z Q }.

(** Lines 101-114: ingest the window's edges, then
    [try: self.pager = nx.pagerank_scipy(graph, max_iter=200, nstart=pr_start)
     except nx.PowerIterationFailedConvergence: pass]. *)
Definition update_engine (edges : list (Z * Z * Z)) (e : engine) : result engine :=
  let g := DiGraph.ingest (graph e) edges in
  start <- pr_start g (pager e) ;;
  Ok (mk_engine g (match PageRank.pagerank_scipy g 200 start with
                   | Some x => x
                   | None => pager e
                   end)).

(** [judge_date BETWEEN day_s AND day_e] *)
Definition in_range (ds de : Z) (r : row) : bool := bool_decide (ds <= judge_date r <= de)%Z.

(** [SELECT user_id FROM tag WHERE judge_date BETWEEN day_s AND day_e] *)
Definition judge_user (tbl : table) (ds de : Z) : list Z :=
  (map_to_list tbl) ≫= (fun '(id, r) => if in_range ds de r then [id] else []).

(** [executemany("UPDATE tag SET pagerank=? WHERE user_id=?", rows)]: a
    row that does not exist is left alone. *)
Definition set_pagerank (tbl : table) (updates : list (Q * Z)) : table :=
  fold_left (fun t '(v, id) => alter (fun r => mk_row (judge_date r) v) id t) updates tbl.

(** Lines 116-122. *)
Definition snapshot (e : engine) (ds de : Z) (tbl : table) : table :=
  let num := inject_Z (Z.of_nat (DiGraph.number_of_nodes (graph e))) in
  set_pagerank tbl (map (fun id => (_pager (pager e) id * num, id)) (judge_user tbl ds de)).

(** The loop body, lines 97-123, for window [ind]; [feed ds de] is the
    result of the [QUES] query for the tag and the window. *)
Definition window (feed : Z -> Z -> list (Z * Z * Z))
    (st : engine * table) (ind : nat) : result (engine * table) :=
  let '(e, tbl) := st in
  let ds := Window.day_s ind in
  let de := Window.day_e ind in
  e' <- update_engine (feed ds de) e ;;
  Ok (e', snapshot e' ds de tbl).

(** The object: [self.pager] and the committed tables of [self.prdb]. *)
Record runner := mk_runner { r_pager : gmap Z Q; r_db : gmap string table }.

(** [__del__], lines 53-54: the connection is closed without a commit;
    what stays on disk is what [run] committed. *)
Definition __del__ (r : runner) : gmap string table := r_db r.

(** [run(tag)], lines 90-126.  The [QUES] query of the tag is [feed];
    [graph = nx.DiGraph()] starts empty; [self.prdb.commit()] happens
    after the loop, so a raise leaves the committed store as it was.
    Without a table for the tag, the first window still ingests its edges
    and computes PageRank, and its [SELECT] raises. *)
Definition run (today : Z) (feed : Z -> Z -> list (Z * Z * Z))
    (r : runner) (tag : string) : result runner :=
  let name := Tags.tra_escape tag in
  match Window.count today with
  | O => Ok r
  | n =>
      match r_db r !! name with
      | None =>
          _ <- update_engine (feed (Window.day_s 0) (Window.day_e 0)) (mk_engine DiGraph.empty (r_pager r)) ;;
          Raise OperationalError
      | Some tbl =>
          st <- foldM (window feed) (seq 0 n) (mk_engine DiGraph.empty (r_pager r), tbl) ;;
          Ok (mk_runner (pager st.1) (<[name := st.2]> (r_db r)))
      end
  end.

(** [runall()], lines 129-132: every tag on the same object.  Each [run]
    commits its tag; a raise stops the loop with the tags before it
    committed. *)
Definition runall (today : Z) (feeds : string -> Z -> Z -> list (Z * Z * Z))
    (tags : list string) (r : runner) : runner * option exn :=
  foldP (fun r tag => run today (feeds tag) r tag) tags r.

(** ** The snapshot of one window *)

Lemma judge_user_gen (l : list (Z * row)) ds de :
  NoDup l.*1 ->
  NoDup (l ≫= (fun '(id, r) => if in_range ds de r then [id] else [])) /\
  forall x, x ∈ l ≫= (fun '(id, r) => if in_range ds de r then [id] else []) ->
            x ∈ l.*1.
Proof.
  induction l as [|[id r] l IH]; simpl; intros Hnd.
  - split; [constructor|]. intros x Hx. by apply elem_of_nil in Hx.
  - apply NoDup_cons in Hnd as [Hid Hnd]. destruct (IH Hnd) as [IH1 IH2].
    destruct (in_range ds de r); simpl; split.
    + constructor; [|done]. intros Hin. by apply Hid, IH2.
    + intros x [->|Hx]%elem_of_cons; [left|right; by apply IH2].
    + done.
    + intros x Hx. right. by apply IH2.
Qed.

Lemma judge_user_nodup tbl ds de : NoDup (judge_user tbl ds de).
Proof. apply judge_user_gen, NoDup_fst_map_to_list. Qed.

Lemma elem_of_judge_user tbl ds de id :
  id ∈ judge_user tbl ds de <-> exists r, tbl !! id = Some r /\ in_range ds de r = true.
Proof.
  unfold judge_user. rewrite list_elem_of_bind. split.
  - intros ([id' r] & Hin & Hl). apply elem_of_map_to_list in Hl.
    destruct (in_range ds de r) eqn:Hr; [|by apply elem_of_nil in Hin].
    apply list_elem_of_singleton in Hin as ->. by exists r.
  - intros (r & Hl & Hr). exists (id, r). rewrite elem_of_map_to_list. split; [|done].
    simpl. rewrite Hr. set_solver.
Qed.

Lemma set_pagerank_lookup (F : Z -> Q) ids tbl id :
  NoDup ids ->
  set_pagerank tbl (map (fun i => (F i, i)) ids) !! id =
  if bool_decide (id ∈ ids) then (fun r => mk_row (judge_date r) (F id)) <$> tbl !! id
  else tbl !! id.
Proof.
  revert tbl. induction ids as [|i ids IH]; intros tbl Hnd.
  - case_bool_decide as H; [by apply elem_of_nil in H|done].
  - apply NoDup_cons in Hnd as [Hi Hnd]. unfold set_pagerank in IH |- *. simpl. rewrite IH by done.
    rewrite lookup_alter. case_bool_decide as H1; case_bool_decide as H2; try set_solver;
      case_decide; subst; try done; set_solver.
Qed.

(** What one window's [UPDATE] does to a row: the rows whose judge date
    lies in [[ds, de]] get the scaled score, the others are untouched. *)
Lemma snapshot_lookup e ds de tbl id :
  snapshot e ds de tbl !! id =
  (fun r => if in_range ds de r
            then mk_row (judge_date r)
                   (_pager (pager e) id * inject_Z (Z.of_nat (DiGraph.number_of_nodes (graph e))))
            else r) <$> tbl !! id.
Proof.
  unfold snapshot. rewrite set_pagerank_lookup by apply judge_user_nodup.
  destruct (tbl !! id) as [r|] eqn:E; simpl.
  - case_bool_decide as H.
    + apply elem_of_judge_user in H as (r' & E' & Hr). rewrite E in E'. injection E' as <-.
      by rewrite Hr.
    + destruct (in_range ds de r) eqn:Hr; [|done].
      exfalso. apply H, elem_of_judge_user. eauto.
  - by case_bool_decide.
Qed.

(** ** One engine update *)

(** Every value of the warm-start dict is positive. *)
Definition pager_pos (pager : gmap Z Q) : Prop := forall u v, pager !! u = Some v -> 0 < v.

Definition engine_inv (e : engine) : Prop := DiGraph.wf (graph e) /\ pager_pos (pager e).

Lemma fromkeys_lookup keys c u :
  fromkeys keys c !! u = if bool_decide (u ∈ keys) then Some c else None.
Proof.
  unfold fromkeys. induction keys as [|k keys IH]; cbn [foldr].
  - rewrite lookup_empty. by rewrite bool_decide_eq_false_2 by apply not_elem_of_nil.
  - rewrite lookup_insert, IH. destruct (decide (k = u)); repeat case_bool_decide; try done; exfalso; set_solver.
Qed.

Lemma update_engine_raise edges e ex :
  update_engine edges e = Raise ex <->
  DiGraph.nodes (DiGraph.ingest (graph e) edges) = [] /\ ex = ZeroDivisionError.
Proof.
  unfold update_engine, pr_start, DiGraph.number_of_nodes.
  destruct (DiGraph.nodes (DiGraph.ingest (graph e) edges)) eqn:E; simpl; [|split; [done|intros [? ?]; done]].
  split; [intros [= <-]|intros [_ ->]]; done.
Qed.

Lemma update_engine_ok edges e :
  DiGraph.nodes (DiGraph.ingest (graph e) edges) <> [] ->
  exists e', update_engine edges e = Ok e' /\ graph e' = DiGraph.ingest (graph e) edges.
Proof.
  intros Hne. unfold update_engine, pr_start, DiGraph.number_of_nodes.
  destruct (DiGraph.nodes (DiGraph.ingest (graph e) edges)) eqn:E; [done|]. simpl. eauto.
Qed.

Lemma pr_start_at g pager u :
  pager_pos pager -> u ∈ DiGraph.nodes g ->
  0 < PageRank.at_ (pager ∪ fromkeys (DiGraph.nodes g) (1 / PageRank.N g)) u.
Proof.
  intros Hp Hu. unfold PageRank.at_.
  destruct (pager !! u) as [v|] eqn:E.
  - rewrite (lookup_union_Some_l _ _ _ _ E). simpl. by apply (Hp u).
  - rewrite fin_maps.lookup_union_r, fromkeys_lookup, bool_decide_eq_true_2 by done. simpl.
    assert (0 < PageRank.N g) by (apply PageRank.N_pos; by intros Hn; rewrite Hn in Hu; apply elem_of_nil in Hu).
    apply Qlt_shift_div_l; lra.
Qed.

Lemma _pager_at x u : _pager x u = PageRank.at_ x u.
Proof. unfold _pager, PageRank.at_. by destruct (x !! u). Qed.

(** One window keeps the engine invariant, and afterwards the raw
    scores of the graph's nodes sum to 1. *)
Lemma update_engine_inv edges e e' :
  engine_inv e -> DiGraph.feed_pos edges -> update_engine edges e = Ok e' ->
  engine_inv e' /\ (Σ[u <- DiGraph.nodes (graph e')] _pager (pager e') u) == 1.
Proof.
  intros [Hwf Hp] Hf. set (g := DiGraph.ingest (graph e) edges).
  assert (Hwf' : DiGraph.wf g) by (by apply DiGraph.ingest_wf).
  destruct (decide (DiGraph.nodes g = [])) as [Hn|Hn].
  { intros Hu. destruct (update_engine edges e) eqn:E; [|discriminate].
    assert (update_engine edges e = Raise ZeroDivisionError) by (by apply update_engine_raise).
    congruence. }
  unfold update_engine, pr_start, DiGraph.number_of_nodes. fold g.
  destruct (List.length (DiGraph.nodes g) =? 0)%nat eqn:E0;
    [apply Nat.eqb_eq, length_zero_iff_nil in E0; done|]. simpl.
  destruct (PageRank.pagerank_scipy_converges g Hwf'
              (pager e ∪ fromkeys (DiGraph.nodes g) (1 / PageRank.N g)) Hn)
    as (x & Hx & [_ Hsum] & Hlow).
  - intros u Hu. apply Qlt_le_weak. by apply pr_start_at.
  - apply qsum_pos; [done|]. intros u Hu. by apply pr_start_at.
  - rewrite Hx. intros [= <-]. simpl. split; [split; [done|]|].
    + intros u v Hv. simpl in Hv. assert (u ∈ DiGraph.nodes g) as Hu by (eapply PageRank.pagerank_scipy_dom; eauto).
      specialize (Hlow u Hu). unfold PageRank.at_ in Hlow. rewrite Hv in Hlow. simpl in Hlow.
      assert (0 < PageRank.N g) by (by apply PageRank.N_pos).
      assert (0 < PageRank.p g) by (unfold PageRank.p; apply Qlt_shift_div_l; lra).
      eapply Qlt_le_trans; [|exact Hlow]. unfold PageRank.alpha.
      apply Qmult_lt_0_compat; [lra|done].
    + rewrite <- Hsum. apply qsum_ext. intros u _. by rewrite _pager_at.
Qed.

(** ** The windows of one [run] *)

Section Run.
Variable feed : Z -> Z -> list (Z * Z * Z).

(** The engine part of the loop body for window [i]. *)
Definition upd (e : engine) (i : nat) : result engine :=
  update_engine (feed (Window.day_s i) (Window.day_e i)) e.

(** The engine after the first [k] windows, from [self.pager = pager0]. *)
Definition engine_after (pager0 : gmap Z Q) (k : nat) : result engine :=
  foldM upd (seq 0 k) (mk_engine DiGraph.empty pager0).

(** The value written for [id] at window [i]: [_pager(id) * num]. *)
Definition scaled (e : engine) (id : Z) : Q :=
  _pager (pager e) id * inject_Z (Z.of_nat (DiGraph.number_of_nodes (graph e))).

Definition score (pager0 : gmap Z Q) (i : nat) (id : Z) : Q :=
  match engine_after pager0 (S i) with Ok e => scaled e id | Raise _ => 0 end.

Lemma in_range_window ind r :
  in_range (Window.day_s ind) (Window.day_e ind) r = Window.in_window (judge_date r) ind.
Proof.
  unfold in_range, Window.in_window. case_bool_decide as H.
  - symmetry. apply andb_true_iff. rewrite !Z.leb_le. lia.
  - symmetry. apply not_true_iff_false. rewrite andb_true_iff, !Z.leb_le. lia.
Qed.

(** The loop over the first [k] windows: the engine follows
    [engine_after], and a row is rewritten exactly when its judge date
    lies in one of those windows, with the score of that window. *)
Lemma fold_windows k pager0 tbl e tbl' :
  foldM (window feed) (seq 0 k) (mk_engine DiGraph.empty pager0, tbl) = Ok (e, tbl') ->
  engine_after pager0 k = Ok e /\
  forall id, tbl' !! id =
    (fun r => if Window.done_by k (judge_date r)
              then mk_row (judge_date r) (score pager0 (Window.window_of (judge_date r)) id)
              else r) <$> tbl !! id.
Proof.
  revert e tbl'. induction k as [|k IH]; intros e tbl' H.
  - injection H as <- <-. split; [done|]. intros id. destruct (tbl !! id); simpl; [|done].
    unfold Window.done_by. by rewrite andb_false_r.
  - unfold engine_after in *. rewrite seq_S in H |- *. change (0 + k)%nat with k in *.
    rewrite foldM_app in H. rewrite foldM_app.
    apply bind_Ok in H as ([e1 tbl1] & H1 & H2). destruct (IH _ _ H1) as [He1 Ht1].
    cbn [foldM] in H2. unfold window in H2. cbv beta iota zeta in H2.
    destruct (update_engine (feed (Window.day_s k) (Window.day_e k)) e1) as [e2|] eqn:Hu;
      cbv [bind] in H2; [|discriminate]. injection H2 as <- <-.
    rewrite He1. simpl. unfold upd. rewrite Hu. split; [done|].
    intros id. rewrite snapshot_lookup, Ht1. destruct (tbl !! id) as [r|]; [simpl|done].
    f_equal. rewrite Window.done_by_S.
    destruct (Window.in_window (judge_date r) k) eqn:Hw.
    + rewrite orb_true_r, (Window.done_by_in_window _ _ Hw), in_range_window, Hw. f_equal.
      apply Window.in_window_spec in Hw as [_ <-].
      unfold score, engine_after. rewrite seq_S, foldM_app, He1. simpl. unfold upd. by rewrite Hu.
    + rewrite orb_false_r.
      destruct (Window.done_by k (judge_date r)); rewrite in_range_window; simpl; by rewrite Hw.
Qed.

(** The tag table after a [run] that returns. *)
Lemma run_table today r tag r' tbl :
  run today feed r tag = Ok r' -> r_db r !! Tags.tra_escape tag = Some tbl ->
  exists tbl', r_db r' !! Tags.tra_escape tag = Some tbl' /\
    forall id, tbl' !! id =
      (fun row => if Window.covered today (judge_date row)
                  then mk_row (judge_date row) (score (r_pager r) (Window.window_of (judge_date row)) id)
                  else row) <$> tbl !! id.
Proof.
  intros Hrun Htbl. unfold run in Hrun.
  destruct (Window.count today) as [|n] eqn:Hn.
  - injection Hrun as <-. exists tbl. split; [done|]. intros id.
    destruct (tbl !! id); simpl; [|done]. by rewrite Window.covered_done_by, Hn, Window.done_by_0.
  - rewrite Htbl in Hrun. rewrite <- Hn in Hrun.
    apply bind_Ok in Hrun as ([e tbl'] & Hf & [= <-]).
    destruct (fold_windows _ _ _ _ _ Hf) as [_ Ht]. exists tbl'. simpl.
    rewrite lookup_insert_eq. split; [done|]. intros id. rewrite Ht.
    destruct (tbl !! id); simpl; [|done]. by rewrite Window.covered_done_by.
Qed.

(** The judge dates of a table. *)
Definition dates (tbl : table) : gmap Z Z := judge_date <$> tbl.

(** [run] changes no judge date of any table. *)
Lemma run_judge_dates today r tag r' :
  run today feed r tag = Ok r' -> dates <$> r_db r' = dates <$> r_db r.
Proof.
  unfold run. destruct (Window.count today) as [|n] eqn:Hn; [by intros [= <-]|]. rewrite <- Hn.
  destruct (r_db r !! _) as [tbl|] eqn:Ht; [|intros (? & _ & ?)%bind_Ok; discriminate].
  intros ([e tbl'] & Hf & [= <-])%bind_Ok. destruct (fold_windows _ _ _ _ _ Hf) as [_ Hl].
  cbn [r_db]. rewrite fmap_insert. apply insert_id. rewrite lookup_fmap, Ht. cbn [fmap option_fmap option_map].
  f_equal. apply map_eq. intros id. unfold dates. rewrite !lookup_fmap, Hl.
  destruct (tbl !! id); [simpl|done]. by destruct (Window.done_by _ _).
Qed.

(** C1: after [run(tag)] succeeds, every row of the tag table keeps its
    judge date, and its [pagerank] is the value [_pager(id) * num]
    computed at the one window that contains its judge date when a
    processed window contains it; otherwise it keeps its seeded value.
    So the snapshot is taken once, at that window, and later windows
    never touch it. *)
Theorem run_snapshot today r tag r' tbl id row :
  run today feed r tag = Ok r' ->
  r_db r !! Tags.tra_escape tag = Some tbl -> tbl !! id = Some row ->
  exists tbl', r_db r' !! Tags.tra_escape tag = Some tbl' /\
    tbl' !! id = Some (if Window.covered today (judge_date row)
                       then mk_row (judge_date row)
                              (score (r_pager r) (Window.window_of (judge_date row)) id)
                       else row).
Proof.
  intros Hrun Htbl Hrow. destruct (run_table _ _ _ _ _ Hrun Htbl) as (tbl' & H1 & H2).
  exists tbl'. split; [done|]. by rewrite H2, Hrow.
Qed.

Lemma windows_ok e tbl l : DiGraph.nodes (graph e) <> [] ->
  exists e' tbl', foldM (window feed) l (e, tbl) = Ok (e', tbl').
Proof.
  revert e tbl. induction l as [|i l IH]; intros e tbl Hne; simpl; [eauto|].
  destruct (update_engine_ok (feed (Window.day_s i) (Window.day_e i)) e) as (e1 & He1 & Hg1).
  { by apply DiGraph.ingest_nonempty. }
  rewrite He1. simpl. apply IH. rewrite Hg1. by apply DiGraph.ingest_nonempty.
Qed.

Lemma run_eq today r tag tbl n :
  Window.count today = S n -> r_db r !! Tags.tra_escape tag = Some tbl ->
  run today feed r tag =
  (e1 <- update_engine (feed (Window.day_s 0) (Window.day_e 0)) (mk_engine DiGraph.empty (r_pager r)) ;;
   st <- foldM (window feed) (seq 1 n) (e1, snapshot e1 (Window.day_s 0) (Window.day_e 0) tbl) ;;
   Ok (mk_runner (pager st.1) (<[Tags.tra_escape tag := st.2]> (r_db r)))).
Proof.
  intros Hn Htbl. unfold run. rewrite Hn, Htbl. cbn [seq foldM]. unfold window at 1.
  cbv beta iota zeta. destruct (update_engine _ _); reflexivity.
Qed.

(** C8: with the tag table present and at least one window to process,
    [run(tag)] raises [ZeroDivisionError] exactly when the first week
    has no edge (the graph is empty when [1.0 / number_of_nodes()] is
    evaluated), and otherwise returns: no later window can raise, and
    the [PowerIterationFailedConvergence] handler never lets an
    exception through. *)
Theorem run_raises_iff today r tag tbl :
  r_db r !! Tags.tra_escape tag = Some tbl -> (0 < Window.count today)%nat ->
  (run today feed r tag = Raise ZeroDivisionError <->
     feed (Window.day_s 0) (Window.day_e 0) = []) /\
  (feed (Window.day_s 0) (Window.day_e 0) <> [] -> exists r', run today feed r tag = Ok r').
Proof.
  intros Htbl Hc. destruct (Window.count today) as [|n] eqn:Hn; [lia|].
  rewrite (run_eq _ _ _ _ _ Hn Htbl).
  destruct (decide (feed (Window.day_s 0) (Window.day_e 0) = [])) as [E|E].
  - assert (update_engine (feed (Window.day_s 0) (Window.day_e 0))
              (mk_engine DiGraph.empty (r_pager r)) = Raise ZeroDivisionError) as ->
      by (apply update_engine_raise; by rewrite E).
    simpl. split; [split; done|intros H; contradiction].
  - destruct (update_engine_ok (feed (Window.day_s 0) (Window.day_e 0))
                (mk_engine DiGraph.empty (r_pager r))) as (e1 & He1 & Hg1).
    { by apply DiGraph.ingest_empty_nonempty. }
    destruct (windows_ok e1 (snapshot e1 (Window.day_s 0) (Window.day_e 0) tbl) (seq 1 n))
      as (e' & tbl' & Hw).
    { rewrite Hg1. by apply DiGraph.ingest_empty_nonempty. }
    rewrite He1. simpl. rewrite Hw. simpl.
    split; [split; [discriminate|intros; contradiction]|eauto].
Qed.

(** C18: after any window of a run whose feed carries positive counts,
    the raw scores of the graph's nodes sum to 1, so the persisted
    values [_pager(id) * number_of_nodes] of the graph's nodes have
    mean 1. *)
Theorem engine_after_mean pager0 k e :
  pager_pos pager0 -> (forall i, DiGraph.feed_pos (feed (Window.day_s i) (Window.day_e i))) ->
  engine_after pager0 (S k) = Ok e ->
  (Σ[u <- DiGraph.nodes (graph e)] scaled e u) ==
  inject_Z (Z.of_nat (DiGraph.number_of_nodes (graph e))).
Proof.
  intros Hp Hf. unfold engine_after. rewrite seq_S, foldM_app. change (0 + k)%nat with k.
  destruct (foldM upd (seq 0 k) _) as [e1|] eqn:E1; simpl; [|discriminate].
  assert (engine_inv e1) as Hinv.
  { refine (foldM_inv engine_inv upd _ _ _ _ _ E1); [|split; [apply DiGraph.empty_wf|exact Hp]].
    intros a i a' Ha Hu. exact (proj1 (update_engine_inv _ _ _ Ha (Hf i) Hu)). }
  destruct (upd e1 k) as [e2|] eqn:E2; simpl; [intros [= <-]|discriminate].
  destruct (update_engine_inv _ _ _ Hinv (Hf k) E2) as [_ Hsum].
  unfold scaled. rewrite (qsum_ext _ (fun u => inject_Z (Z.of_nat (DiGraph.number_of_nodes (graph e2))) *
                                               _pager (pager e2) u)) by (intros; ring).
  rewrite qsum_scale, Hsum. ring.
Qed.

(** [run] writes only the table of its tag. *)
Lemma run_db_other today r tag r' k :
  run today feed r tag = Ok r' -> k <> Tags.tra_escape tag -> r_db r' !! k = r_db r !! k.
Proof.
  unfold run. destruct (Window.count today) as [|n]; [by intros [= <-]|].
  destruct (r_db r !! _) as [tbl|]; [|intros (? & _ & ?)%bind_Ok; discriminate].
  intros ([e tbl'] & _ & [= <-])%bind_Ok Hk. cbn [r_db]. by rewrite lookup_insert_ne by congruence.
Qed.

End Run.

(** ** The schema of the store

    [user_id INTEGER PRIMARY KEY NOT NULL, judge_date DATE NOT NULL,
    pagerank REAL NOT NULL]: no run adds or removes a row or a table, and
    a score is [_pager(id) * num], never negative. *)

(** The user ids of every table. *)
Definition ids (db : gmap string table) : gmap string (gset Z) := dom <$> db.

(** Every persisted [pagerank] is non-negative. *)
Definition table_ok (tbl : table) : Prop := forall id row, tbl !! id = Some row -> 0 <= pagerank row.

Definition runner_inv (r : runner) : Prop :=
  pager_pos (r_pager r) /\ forall name tbl, r_db r !! name = Some tbl -> table_ok tbl.

Lemma _pager_nonneg pg id : pager_pos pg -> 0 <= _pager pg id.
Proof.
  intros Hp. unfold _pager. destruct (pg !! id) eqn:E; [apply Qlt_le_weak; by apply (Hp id)|lra].
Qed.

Lemma snapshot_dom e ds de tbl : dom (snapshot e ds de tbl) = dom tbl.
Proof. apply set_eq. intros id. by rewrite !elem_of_dom, snapshot_lookup, fmap_is_Some. Qed.

Lemma snapshot_ok e ds de tbl : pager_pos (pager e) -> table_ok tbl -> table_ok (snapshot e ds de tbl).
Proof.
  intros Hp Ht id row. rewrite snapshot_lookup. destruct (tbl !! id) as [r|] eqn:E; [|done].
  simpl. intros [= <-]. destruct (in_range ds de r); [|by apply (Ht id)]. simpl.
  apply Qmult_le_0_compat; [by apply _pager_nonneg|].
  change 0 with (inject_Z 0). rewrite <- Zle_Qle. lia.
Qed.

Lemma windows_schema feed l e tbl e' tbl' :
  (forall ds de, DiGraph.feed_pos (feed ds de)) -> engine_inv e -> table_ok tbl ->
  foldM (window feed) l (e, tbl) = Ok (e', tbl') ->
  engine_inv e' /\ table_ok tbl' /\ dom tbl' = dom tbl.
Proof.
  intros Hf He Ht H.
  assert (Hstep : forall st i st', engine_inv st.1 /\ table_ok st.2 /\ dom st.2 = dom tbl ->
                    window feed st i = Ok st' -> engine_inv st'.1 /\ table_ok st'.2 /\ dom st'.2 = dom tbl).
  { intros [e1 t1] i st' (He1 & Ht1 & Hd1). unfold window. cbv beta iota zeta.
    destruct (update_engine _ e1) as [e3|] eqn:Hu; cbn [bind]; [|discriminate]. intros [= <-]. simpl.
    destruct (update_engine_inv _ _ _ He1 (Hf _ _) Hu) as [He3 _].
    split_and!; [done|apply snapshot_ok; [apply He3|done]|by rewrite snapshot_dom]. }
  exact (foldM_inv _ _ _ (e, tbl) (e', tbl') Hstep (conj He (conj Ht eq_refl)) H).
Qed.

Lemma run_schema today feed r tag r' :
  (forall ds de, DiGraph.feed_pos (feed ds de)) -> runner_inv r ->
  run today feed r tag = Ok r' -> runner_inv r' /\ ids (r_db r') = ids (r_db r).
Proof.
  intros Hf [Hp Hdb] Hrun. unfold run in Hrun.
  destruct (Window.count today) as [|n]; [by injection Hrun as <-|].
  destruct (r_db r !! _) as [tbl|] eqn:Ht; [|destruct (update_engine _ _); cbn [bind] in Hrun; discriminate].
  apply bind_Ok in Hrun as ([e tbl'] & Hw & [= <-]).
  assert (He0 : engine_inv (mk_engine DiGraph.empty (r_pager r))) by (split; [apply DiGraph.empty_wf|done]).
  destruct (windows_schema _ _ _ _ _ _ Hf He0 (Hdb _ _ Ht) Hw) as ([_ He] & Hok & Hd).
  split; [split|].
  - exact He.
  - intros name t. simpl. rewrite lookup_insert. case_decide; [intros [= <-]; done|apply Hdb].
  - unfold ids. simpl. rewrite fmap_insert, Hd. apply insert_id. by rewrite lookup_fmap, Ht.
Qed.

(** C19: The store keeps its schema across [runall]: every table keeps
    its user ids, every persisted [pagerank] stays a non-negative real,
    and the warm start [self.pager] stays positive, also where a raise
    stops the loop, provided every feed has positive weights. *)
Theorem runall_schema today feeds tags r r' oe :
  (forall t ds de, DiGraph.feed_pos (feeds t ds de)) -> runner_inv r ->
  runall today feeds tags r = (r', oe) -> runner_inv r' /\ ids (r_db r') = ids (r_db r).
Proof.
  intros Hf Hr. unfold runall.
  apply (foldP_inv (fun r1 => runner_inv r1 /\ ids (r_db r1) = ids (r_db r))); [|by split].
  intros a t a' [Ha Hd] Hrun. destruct (run_schema _ _ _ _ _ (Hf t) Ha Hrun) as [Ha' Hd'].
  split; [done|congruence].
Qed.

(** [runall] changes no judge date, also where a raise stops it. *)
Lemma runall_judge_dates today feeds tags r r' oe :
  runall today feeds tags r = (r', oe) -> dates <$> r_db r' = dates <$> r_db r.
Proof.
  unfold runall. apply (foldP_inv (fun r1 => dates <$> r_db r1 = dates <$> r_db r)); [|done].
  intros a t a' Ha Hrun. by rewrite (run_judge_dates _ _ _ _ _ Hrun).
Qed.

(** C15: The warm start carries over from one tag to the next.  When
    [runall] completes over two tags [t1] and [t2] with distinct table
    names, the scores it writes for [t2] are those of [run(t2)] started
    from the [self.pager] that [run(t1)] left, not from an empty one: a
    row of [t2] whose judge date a processed window contains gets the
    score of that window computed from [run(t1)]'s final scores. *)
Theorem runall_warm_start today feeds t1 t2 r r' tbl id row :
  Tags.tra_escape t1 <> Tags.tra_escape t2 ->
  runall today feeds [t1; t2] r = (r', None) ->
  r_db r !! Tags.tra_escape t2 = Some tbl -> tbl !! id = Some row ->
  exists r1 tbl', run today (feeds t1) r t1 = Ok r1 /\ r_db r' !! Tags.tra_escape t2 = Some tbl' /\
    tbl' !! id = Some (if Window.covered today (judge_date row)
                       then mk_row (judge_date row)
                              (score (feeds t2) (r_pager r1) (Window.window_of (judge_date row)) id)
                       else row).
Proof.
  intros Hne Hall Ht Hrow. unfold runall in Hall. cbn [foldP] in Hall.
  destruct (run today (feeds t1) r t1) as [r1|e] eqn:E1; [|discriminate].
  destruct (run today (feeds t2) r1 t2) as [r2|e] eqn:E2; [|discriminate]. injection Hall as <-.
  rewrite <- (run_db_other _ _ _ _ _ (Tags.tra_escape t2) E1) in Ht by congruence.
  destruct (run_table _ _ _ _ _ _ E2 Ht) as (tbl' & H1 & H2).
  exists r1, tbl'. split_and!; [done|done|]. by rewrite H2, Hrow.
Qed.

(** ** Witnesses: two weeks of the tag [c#] *)

(** Week 0 brings the edge 1 -> 2 (user 2 outranked user 1 twice), week 1
    the edge 2 -> 3. *)
Definition feed_example (ds de : Z) : list (Z * Z * Z) :=
  if bool_decide (ds = Window.day_s 0) then [(1, 2, 2)]%Z
  else if bool_decide (ds = Window.day_s 1) then [(2, 3, 1)]%Z else [].

(** [date(2010, 1, 1)]: [cnt = 14], two windows. *)
Definition today_example : Z := 733777.

Definition table_example : table :=
  <[1%Z := mk_row (Window.day_s 0 + 3) 0]> (<[3%Z := mk_row (Window.day_s 1 + 6) 0]>
  (<[4%Z := mk_row (Window.day_s 2) 0]> ∅)).

Definition runner_example : runner := mk_runner ∅ {[ "c_sharp"%string := table_example ]}.

Lemma feed_example_pos i : DiGraph.feed_pos (feed_example (Window.day_s i) (Window.day_e i)).
Proof.
  unfold feed_example. repeat case_bool_decide; repeat constructor.
Qed.

(** Scenario 1 of the specification, on its input: after the edge 1 -> 2 of weight 2
    and, the next week, the edge 2 -> 3 of weight 1, the scores order
    [score(3) > score(2) > score(1)]. *)
Example authority_ordering :
  exists e, engine_after feed_example ∅ 2 = Ok e /\
    scaled e 1 < scaled e 2 /\ scaled e 2 < scaled e 3.
Proof.
  eexists. split; [vm_compute; reflexivity|]. split; vm_compute; reflexivity.
Qed.

Lemma run_snapshot_witness :
  exists r' tbl',
    run today_example feed_example runner_example "c#" = Ok r' /\
    r_db runner_example !! Tags.tra_escape "c#" = Some table_example /\
    table_example !! 1%Z = Some (mk_row (Window.day_s 0 + 3) 0) /\
    r_db r' !! Tags.tra_escape "c#" = Some tbl' /\
    tbl' !! 1%Z = Some (if Window.covered today_example (Window.day_s 0 + 3)
                       then mk_row (Window.day_s 0 + 3)
                              (score feed_example ∅ (Window.window_of (Window.day_s 0 + 3)) 1)
                       else mk_row (Window.day_s 0 + 3) 0).
Proof.
  assert (Hrun : exists r', run today_example feed_example runner_example "c#" = Ok r')
    by (eexists; vm_compute; reflexivity).
  destruct Hrun as [r' Hrun].
  assert (Htbl : r_db runner_example !! Tags.tra_escape "c#" = Some table_example)
    by (vm_compute; reflexivity).
  assert (Hrow : table_example !! 1%Z = Some (mk_row (Window.day_s 0 + 3) 0)) by reflexivity.
  destruct (run_snapshot feed_example _ _ _ _ _ _ _ Hrun Htbl Hrow) as (tbl' & H1 & H2).
  exists r', tbl'. split_and!; assumption.
Defined.

Lemma run_raises_iff_witness :
  r_db runner_example !! Tags.tra_escape "c#" = Some table_example /\
  (0 < Window.count today_example)%nat /\
  (run today_example feed_example runner_example "c#" = Raise ZeroDivisionError <->
     feed_example (Window.day_s 0) (Window.day_e 0) = []) /\
  (feed_example (Window.day_s 0) (Window.day_e 0) <> [] ->
     exists r', run today_example feed_example runner_example "c#" = Ok r').
Proof.
  assert (Htbl : r_db runner_example !! Tags.tra_escape "c#" = Some table_example)
    by (vm_compute; reflexivity).
  assert (Hc : (0 < Window.count today_example)%nat) by (vm_compute; lia).
  split; [exact Htbl|]. split; [exact Hc|].
  exact (run_raises_iff feed_example _ _ _ _ Htbl Hc).
Defined.

Lemma engine_after_mean_witness :
  pager_pos ∅ /\ (forall i, DiGraph.feed_pos (feed_example (Window.day_s i) (Window.day_e i))) /\
  exists e, engine_after feed_example ∅ 2 = Ok e /\
    (Σ[u <- DiGraph.nodes (graph e)] scaled e u) ==
    inject_Z (Z.of_nat (DiGraph.number_of_nodes (graph e))).
Proof.
  assert (Hp : pager_pos ∅) by (intros u v; by rewrite lookup_empty).
  split; [exact Hp|]. split; [exact feed_example_pos|].
  assert (He : exists e, engine_after feed_example ∅ 2 = Ok e) by (eexists; vm_compute; reflexivity).
  destruct He as [e He]. exists e. split; [exact He|].
  exact (engine_after_mean feed_example _ 1 _ Hp feed_example_pos He).
Defined.

(** Two tags: [c#] with [feed_example], and [java], whose first week has
    users 2 and 3 outranking user 1. *)
Definition feed_java (ds de : Z) : list (Z * Z * Z) :=
  if bool_decide (ds = Window.day_s 0) then [(1, 2, 1); (1, 3, 1)]%Z else [].

Definition feeds_two (t : string) : Z -> Z -> list (Z * Z * Z) :=
  if String.eqb t "java" then feed_java else feed_example.

Definition table_java : table :=
  <[1%Z := mk_row (Window.day_s 0 + 2) 0]> (<[2%Z := mk_row (Window.day_s 0 + 2) 0]> ∅).

Definition runner_two : runner :=
  mk_runner ∅ {[ "c_sharp"%string := table_example; "java"%string := table_java ]}.

(** The warm start leaks across tags, on one input.  [runall] over [c#] then
    [java] commits for [java] other scores than [run("java")] on a fresh
    object: the first PageRank of [java] starts from the scores of [c#]
    left in [self.pager]. *)
Example runall_warm_start_leaks :
  exists r1 r2, runall today_example feeds_two ["c#"; "java"]%string runner_two = (r1, None) /\
    run today_example feed_java runner_two "java" = Ok r2 /\
    r_db r1 !! "java"%string <> r_db r2 !! "java"%string.
Proof.
  exists (fst (runall today_example feeds_two ["c#"; "java"]%string runner_two)).
  exists (match run today_example feed_java runner_two "java" with Ok r => r | Raise _ => runner_two end).
  split_and!; [vm_compute; reflexivity|vm_compute; reflexivity|].
  vm_compute. congruence.
Qed.

Lemma runall_warm_start_witness :
  Tags.tra_escape "c#" <> Tags.tra_escape "java" /\
  exists r', runall today_example feeds_two ["c#"; "java"]%string runner_two = (r', None) /\
  exists r1 tbl', run today_example (feeds_two "c#") runner_two "c#" = Ok r1 /\
    r_db r' !! Tags.tra_escape "java" = Some tbl' /\
    tbl' !! 1%Z = Some (if Window.covered today_example (Window.day_s 0 + 2)
                       then mk_row (Window.day_s 0 + 2)
                              (score (feeds_two "java") (r_pager r1) (Window.window_of (Window.day_s 0 + 2)) 1)
                       else mk_row (Window.day_s 0 + 2) 0).
Proof.
  assert (Hne : Tags.tra_escape "c#" <> Tags.tra_escape "java") by (vm_compute; discriminate).
  split; [exact Hne|].
  set (R := runall today_example feeds_two ["c#"; "java"]%string runner_two).
  assert (HR : R = (R.1, None)) by (vm_compute; reflexivity).
  exists R.1. split; [exact HR|].
  exact (runall_warm_start today_example feeds_two "c#" "java" runner_two R.1 table_java 1
           (mk_row (Window.day_s 0 + 2) 0) Hne HR ltac:(vm_compute; reflexivity) ltac:(vm_compute; reflexivity)).
Defined.

Lemma runall_schema_witness :
  (forall (t : string) ds de, DiGraph.feed_pos (feed_example ds de)) /\ runner_inv runner_example /\
  let '(r', _) := runall today_example (fun _ => feed_example) ["c#"%string] runner_example in
  runner_inv r' /\ ids (r_db r') = ids (r_db runner_example).
Proof.
  assert (Hf : forall (t : string) ds de, DiGraph.feed_pos (feed_example ds de)).
  { intros t ds de. unfold feed_example. repeat case_bool_decide; repeat constructor. }
  assert (Hr : runner_inv runner_example).
  { split; [intros u v Hv; simpl in Hv; by rewrite lookup_empty in Hv|].
    intros name tbl H1 id row H2. simpl in H1. apply lookup_singleton_Some in H1 as [_ <-].
    unfold table_example in H2.
    repeat (apply lookup_insert_Some in H2 as [[_ <-]|[_ H2]]; [simpl; lra|]).
    by rewrite lookup_empty in H2. }
  split; [exact Hf|]. split; [exact Hr|].
  destruct (runall today_example (fun _ => feed_example) ["c#"%string] runner_example) as [r' oe] eqn:E.
  exact (runall_schema _ _ _ _ _ _ Hf Hr E).
Defined.

End PGRunner.
