(* ===== verification/Rating.v ===== *)
(** * The rating library behind [tsrunner.py]: an interface

    [tsrunner.py] rates questions with the [trueskill] package
    ([trueskill.TrueSkill(backend='mpmath', draw_probability=0.2)]).  That
    package is not part of this repository; the runner only calls
    [rate(rating_groups, ranks=...)] on groups of one rating each.  The
    class [Engine] states what the runner relies on: one output group per
    input group.  The runner's theorems are proved for every engine.
    [sample_engine] is a small instance of the class used by the
    witnesses; it is not a model of TrueSkill. *)

From S2P Require Import Prelude.

Module Rating.
Local Open Scope Q_scope.

(** [trueskill.Rating(mu, sigma)] *)
Record rating := mk_rating { mu : Q; sigma : Q }.

(** [tse(group)] of [tsrunner.py:47-48]: the (mu, sigma) of a group's only rating. *)
Definition tse (group : rating) : Q * Q := (mu group, sigma group).

(** The snapshot value [ts = mu - 3 * sigma] of [tsrunner.py:139]. *)
Definition skill (r : rating) : Q := mu r - 3 * sigma r.

(** [self.fresh = trueskill.Rating(8.3333, 2.7778)] *)
Definition fresh : rating := mk_rating (83333 # 10000) (27778 # 10000).

(** The seed rating of the [USER] query: [25.0 AS mu, 25.0 / 3 AS sigma]. *)
Definition seed : rating := mk_rating 25 (25 / 3).

(** [TrueSkill.rate] on groups of one rating: a rating per group, in the
    groups' order; [ranks] are the groups' ranks, lower is better, equal
    ranks are a draw. *)
Class Engine := {
  rate : list rating -> list Z -> list rating;
  rate_length : forall rs ranks, length (rate rs ranks) = length rs
}.

(** [rate(groups)] without [ranks]: trueskill uses [range(len(groups))],
    the first group wins. *)
Definition rate_default `{Engine} (rs : list rating) : list rating :=
  rate rs (map Z.of_nat (seq 0 (length rs))).

(** A test engine: every rating moves by the difference between the mean
    rank and its rank, and its deviation shrinks by a tenth. *)
Definition sample_rate (rs : list rating) (ranks : list Z) : list rating :=
  let m := inject_Z (fold_right Z.add 0%Z ranks) / inject_Z (Z.of_nat (length ranks)) in
  imap (fun i r => mk_rating (mu r + (m - inject_Z (nth i ranks 0%Z))) (sigma r * (9 # 10))) rs.

#[export] Instance sample_engine : Engine.
Proof.
  refine {| rate := sample_rate |}. intros rs ranks. unfold sample_rate. apply length_imap.
Defined.

End Rating.
