(* ===== verification/TSRunner.v ===== *)
(** * The TrueSkill runner ([tsrunner.py], class [TrueSkillRunner])

    The runner keeps the SQLite store [Data/TrueSkill.sqlite], one table
    per escaped tag with rows [(user_id, judge_date, ts, mu, sigma)].  Its
    [run] walks the weekly windows; per window it reads every (question,
    tag) row of the [QUES] query and, per row, loads the ratings of the
    answerers and the asker from the tag's table into [user_ts], applies
    the asker/accepted-answerer game, then the answerers' ranked game, and
    writes [user_ts] back; at the end of the window it sets
    [ts = mu - 3 * sigma] for the users judged in the window, in every
    tag's table, and commits.  When a window raises, the loop stops and
    the object's [__del__] commits what the connection holds, so the
    part of the window that ran is persisted.

    The rating library is the [Rating.Engine] interface; every theorem
    holds for every engine.  The witnesses at the end use
    [Rating.sample_engine]. *)

From S2P Require Import Prelude Window Tags Rating.
From Stdlib Require Import String.

Module TSRunner.
Local Open Scope Q_scope.
Local Open Scope s2p_scope.
Import Rating.

(** A row of a tag table ([tsrunner.py:82-87]); [judge_date] is nullable. *)
Record row := mk_row { judge_date : option Z; ts : Q; mu_ : Q; sigma_ : Q }.

Abbreviation table := (gmap Z row).
Abbreviation store := (gmap string table).

(** A row of the [QUES] query ([tsrunner.py:31-40]): a question under one
    of its tags, its answerers in rank order with their ranks, the asker
    and the accepted answerer (absent when no answer was accepted). *)
Record question := mk_question {
  q_tag : string; rank_id : list Z; rank : list Z; asker_id : Z; accept_id : option Z
}.

(** [user_ts], the dict of [tsrunner.py:112-113]. *)
Abbreviation ledger := (gmap Z (Q * Q)).

Section WithEngine.
Context `{E : Engine}.

(** [SELECT user_id, mu, sigma FROM tag WHERE user_id IN ids], as a dict. *)
Definition fetch_user_ts (tbl : table) (ids : list Z) : ledger :=
  foldr (fun id m => match tbl !! id with
                     | Some r => <[id := (mu_ r, sigma_ r)]> m
                     | None => m
                     end) ∅ ids.

(** [trueskill.Rating(user_ts[id])] *)
Definition to_rating (p : Q * Q) : rating := mk_rating p.1 p.2.

(** The asker/accepted-answerer game, [tsrunner.py:114-124].  When the
    asker has a row, the asker's new rating is dropped; when not, the
    asker plays with [self.fresh] and the result goes into [user_ts]. *)
Definition accept_update (q : question) (user_ts : ledger) : ledger :=
  match accept_id q with
  | Some a =>
      match user_ts !! a with
      | Some ra =>
          match user_ts !! asker_id q with
          | Some rk =>
              let out := rate_default [to_rating ra; to_rating rk] in
              <[a := tse (nth 0 out fresh)]> user_ts
          | None =>
              let out := rate_default [to_rating ra; fresh] in
              <[a := tse (nth 0 out fresh)]> (<[asker_id q := tse (nth 1 out fresh)]> user_ts)
          end
      | None => user_ts
      end
  | None => user_ts
  end.

(** [[trueskill.Rating(user_ts[id]) for id in row['rank_id']]]: the first
    answerer without a rating raises [KeyError]. *)
Fixpoint lookup_all (user_ts : ledger) (ids : list Z) : result (list rating) :=
  match ids with
  | [] => Ok []
  | id :: ids =>
      match user_ts !! id with
      | Some p => rs <- lookup_all user_ts ids ;; Ok (to_rating p :: rs)
      | None => Raise (KeyError id)
      end
  end.

(** [user_ts.update({id: tse(ts) for ts, id in zip(rate_gp, rank_id)})] *)
Definition update_zip (user_ts : ledger) (out : list rating) (ids : list Z) : ledger :=
  fold_left (fun m '(r, id) => <[id := tse r]> m) (zip out ids) user_ts.

(** The answerers' ranked game, [tsrunner.py:125-132]. *)
Definition multi_update (q : question) (user_ts : ledger) : result ledger :=
  if (1 <? List.length (rank_id q))%nat then
    rs <- lookup_all user_ts (rank_id q) ;;
    Ok (update_zip user_ts (rate rs (rank q)) (rank_id q))
  else Ok user_ts.

(** [executemany("UPDATE tag SET mu=?, sigma=? WHERE user_id=?", user_ts.items())]:
    an id without a row changes nothing. *)
Definition write_back (tbl : table) (user_ts : ledger) : table :=
  fold_left (fun t '(id, p) => alter (fun r => mk_row (judge_date r) (ts r) p.1 p.2) id t)
    (map_to_list user_ts) tbl.

(** The body of the question loop, [tsrunner.py:108-135].  The [SELECT]
    fails on a tag without a table, and on a question without answerers:
    [tuple([]) + (asker_id,)] is formatted as [(asker_id,)], and
    [IN (asker_id,)] is a syntax error for SQLite. *)
Definition process_row (db : store) (q : question) : result store :=
  let name := Tags.tra_escape (q_tag q) in
  match db !! name with
  | None => Raise OperationalError
  | Some tbl =>
      if bool_decide (rank_id q = []) then Raise OperationalError else
      let user_ts := accept_update q (fetch_user_ts tbl (rank_id q ++ [asker_id q])) in
      user_ts <- multi_update q user_ts ;;
      Ok (<[name := write_back tbl user_ts]> db)
  end.

(** One row of [UPDATE tag SET ts=mu-3*sigma WHERE judge_date BETWEEN
    day_s AND day_e]; a NULL judge date is never between. *)
Definition snap_row (ds de : Z) (r : row) : row :=
  match judge_date r with
  | Some d => if bool_decide (ds <= d <= de)%Z
              then mk_row (judge_date r) (mu_ r - 3 * sigma_ r) (mu_ r) (sigma_ r)
              else r
  | None => r
  end.

Definition snapshot_table (ds de : Z) (tbl : table) : table := snap_row ds de <$> tbl.

(** One tag of the snapshot loop, [tsrunner.py:138-140]: the [UPDATE]
    raises on a tag without a table. *)
Definition snapshot_tag (ds de : Z) (db : store) (t : string) : result store :=
  let name := Tags.tra_escape t in
  match db !! name with
  | Some tbl => Ok (<[name := snapshot_table ds de tbl]> db)
  | None => Raise OperationalError
  end.

(** [tsrunner.py:137-140]: every tag of [self.tags['tag']]. *)
Definition snapshot (tags : list string) (ds de : Z) (db : store) : result store :=
  foldM (snapshot_tag ds de) tags db.

(** One window, [tsrunner.py:103-141]; [feed ds de] is the [QUES] query.
    The connection keeps the [UPDATE]s that ran before a raise: the
    result is the state of the connection when the window ends or stops,
    and the exception that stopped it. *)
Definition window (feed : Z -> Z -> list question) (tags : list string)
    (db : store) (ind : nat) : store * option exn :=
  let ds := Window.day_s ind in
  let de := Window.day_e ind in
  match foldP process_row (feed ds de) db with
  | (db', None) => foldP (snapshot_tag ds de) tags db'
  | stopped => stopped
  end.

(** The window loop, [commit] after every window.  A raise stops the
    loop, and [__del__] ([tsrunner.py:67-69]) commits what the connection
    holds: the store on disk is the state reached, partial window
    included. *)
Fixpoint run_windows (feed : Z -> Z -> list question) (tags : list string)
    (db : store) (inds : list nat) : store * option exn :=
  match inds with
  | [] => (db, None)
  | i :: inds =>
      match window feed tags db i with
      | (db', None) => run_windows feed tags db' inds
      | stopped => stopped
      end
  end.

(** [run()], [tsrunner.py:97-143]. *)
Definition run (today : Z) (feed : Z -> Z -> list question) (tags : list string)
    (db : store) : store * option exn :=
  run_windows feed tags db (seq 0 (Window.count today)).

(** ** Lemmas on one question *)

Lemma process_row_table db q tbl :
  db !! Tags.tra_escape (q_tag q) = Some tbl -> rank_id q <> [] ->
  process_row db q =
    (U <- multi_update q (accept_update q (fetch_user_ts tbl (rank_id q ++ [asker_id q]))) ;;
     Ok (<[Tags.tra_escape (q_tag q) := write_back tbl U]> db)).
Proof. intros Htbl Hne. unfold process_row. rewrite Htbl. by rewrite bool_decide_eq_false_2. Qed.

(** A question processed without error has a table and an answerer. *)
Lemma process_row_ok db q db' :
  process_row db q = Ok db' ->
  exists tbl, db !! Tags.tra_escape (q_tag q) = Some tbl /\ rank_id q <> [] /\
    process_row db q =
      (U <- multi_update q (accept_update q (fetch_user_ts tbl (rank_id q ++ [asker_id q]))) ;;
       Ok (<[Tags.tra_escape (q_tag q) := write_back tbl U]> db)).
Proof.
  unfold process_row at 1. destruct (db !! _) as [tbl|] eqn:Et; [|discriminate].
  case_bool_decide as Hr; [discriminate|]. intros _. exists tbl. split_and!; [done|done|].
  by apply process_row_table.
Qed.

Lemma write_back_lookup tbl user_ts id :
  write_back tbl user_ts !! id =
  match user_ts !! id with
  | Some p => (fun r => mk_row (judge_date r) (ts r) p.1 p.2) <$> tbl !! id
  | None => tbl !! id
  end.
Proof.
  unfold write_back.
  rewrite (fold_alter_lookup (fun p r => mk_row (judge_date r) (ts r) p.1 p.2)),
    list_to_map_to_list by apply NoDup_fst_map_to_list.
  reflexivity.
Qed.

Lemma fetch_lookup tbl ids id :
  fetch_user_ts tbl ids !! id =
  if bool_decide (id ∈ ids) then (fun r => (mu_ r, sigma_ r)) <$> tbl !! id else None.
Proof.
  unfold fetch_user_ts. induction ids as [|i ids IH]; cbn [foldr].
  - rewrite lookup_empty. by rewrite bool_decide_eq_false_2 by apply not_elem_of_nil.
  - destruct (tbl !! i) as [r|] eqn:Ei; [rewrite lookup_insert|]; rewrite IH;
      destruct (decide (i = id)) as [->|Hne]; repeat case_bool_decide;
      try rewrite Ei; try done; exfalso; set_solver.
Qed.

Lemma accept_update_other q u id :
  id <> asker_id q -> accept_id q <> Some id -> accept_update q u !! id = u !! id.
Proof.
  intros Hk Ha. unfold accept_update.
  destruct (accept_id q) as [a|]; [|done].
  destruct (u !! a); [|done]. destruct (u !! asker_id q);
    rewrite ?lookup_insert_ne by congruence; done.
Qed.

(** The accepted-answer game only writes keys that are present after it. *)
Lemma accept_update_is_Some q u id :
  id <> asker_id q -> is_Some (accept_update q u !! id) <-> is_Some (u !! id).
Proof.
  intros Hk. destruct (decide (accept_id q = Some id)) as [Ha|Ha];
    [|by rewrite accept_update_other].
  unfold accept_update. rewrite Ha.
  destruct (u !! id) eqn:Eu; [|cbv iota; by rewrite Eu].
  destruct (u !! asker_id q); rewrite lookup_insert_eq; done.
Qed.

Lemma update_zip_other u out ids id : id ∉ ids -> update_zip u out ids !! id = u !! id.
Proof.
  unfold update_zip. revert u out. induction ids as [|i ids IH]; intros u [|r out] Hid; simpl; try done.
  rewrite IH by set_solver. apply lookup_insert_ne. set_solver.
Qed.

Lemma lookup_all_ok u ids :
  (exists rs, lookup_all u ids = Ok rs) <-> forall id, id ∈ ids -> is_Some (u !! id).
Proof.
  induction ids as [|i ids IH]; simpl.
  - split; [intros _ id Hid; by apply elem_of_nil in Hid|eauto].
  - split.
    + intros [rs H] id Hid. destruct (u !! i) eqn:Ei; [|discriminate].
      apply elem_of_cons in Hid as [->|Hid]; [by rewrite Ei|].
      destruct (lookup_all u ids) eqn:El; simpl in H; [|discriminate].
      apply IH; eauto.
    + intros H. destruct (H i) as [p Hp]; [left|]. rewrite Hp.
      destruct (proj2 IH) as [rs Hrs]; [intros id Hid; apply H; by right|].
      rewrite Hrs. simpl. eauto.
Qed.

Lemma lookup_all_raise u ids e :
  lookup_all u ids = Raise e -> exists k, k ∈ ids /\ u !! k = None /\ e = KeyError k.
Proof.
  induction ids as [|i ids IH]; simpl; [discriminate|].
  destruct (u !! i) eqn:Ei.
  - destruct (lookup_all u ids) eqn:El; simpl; [discriminate|]. intros [= <-].
    destruct (IH eq_refl) as (k & Hk & Hu & ->). exists k. split_and!; [by right|done|done].
  - intros [= <-]. exists i. split_and!; [left|done|done].
Qed.

(** An answerer who is not the asker has a rating in [user_ts] after the
    accepted-answer game exactly when it has a row. *)
Lemma answerer_in_ledger q tbl id :
  id ∈ rank_id q -> id <> asker_id q ->
  is_Some (accept_update q (fetch_user_ts tbl (rank_id q ++ [asker_id q])) !! id) <->
  is_Some (tbl !! id).
Proof.
  intros Hid Hk. rewrite accept_update_is_Some by done. rewrite fetch_lookup.
  rewrite bool_decide_eq_true_2 by set_solver. destruct (tbl !! id); simpl; [split; eauto|done].
Qed.

(** C7: a question with two or more answerers, none of them the asker,
    is processed when every answerer has a row in the tag's table; when
    one answerer has none, the row raises [KeyError] on an answerer
    without a row.  The missing rating is never replaced by a default
    here: no answerer without a row lets the question be processed. *)
Theorem process_row_result db q tbl :
  db !! Tags.tra_escape (q_tag q) = Some tbl -> asker_id q ∉ rank_id q ->
  (1 < List.length (rank_id q))%nat ->
  ((forall id, id ∈ rank_id q -> is_Some (tbl !! id)) -> exists db', process_row db q = Ok db') /\
  (forall k, k ∈ rank_id q -> tbl !! k = None ->
     exists k', k' ∈ rank_id q /\ tbl !! k' = None /\ process_row db q = Raise (KeyError k')).
Proof.
  intros Htbl Hk Hlen.
  assert (Hne : forall id, id ∈ rank_id q -> id <> asker_id q) by (intros id Hid ->; contradiction).
  rewrite (process_row_table _ _ _ Htbl) by (intros Hn; rewrite Hn in Hlen; simpl in Hlen; lia).
  unfold multi_update.
  rewrite (proj2 (Nat.ltb_lt _ _) Hlen).
  set (U := accept_update q _).
  split.
  - intros Hall. destruct (proj2 (lookup_all_ok U (rank_id q))) as [rs ->]; [|simpl; eauto].
    intros id Hid. apply answerer_in_ledger; [done|by apply Hne|by apply Hall].
  - intros k Hin Hnone. destruct (lookup_all U (rank_id q)) as [rs|e] eqn:El; cbn [bind].
    + exfalso. destruct (proj1 (lookup_all_ok U (rank_id q)) (ex_intro _ rs El) k Hin) as [? HU].
      destruct (proj1 (answerer_in_ledger q tbl k Hin (Hne k Hin)) (ex_intro _ _ HU)) as [? Ht].
      congruence.
    + destruct (lookup_all_raise _ _ _ El) as (k' & Hin' & HU & ->). exists k'. split_and!; [done| |done].
      apply eq_None_not_Some. intros Hs. apply (answerer_in_ledger q tbl k' Hin' (Hne k' Hin')) in Hs.
      destruct Hs as [? HS]. unfold U in HU. congruence.
Qed.

Lemma accept_update_asker q u p :
  accept_id q <> Some (asker_id q) -> u !! asker_id q = Some p ->
  accept_update q u !! asker_id q = Some p.
Proof.
  intros Ha Hp. unfold accept_update. destruct (accept_id q) as [a|]; [|done].
  destruct (u !! a); [|done]. rewrite Hp. rewrite lookup_insert_ne by congruence. done.
Qed.

Lemma multi_update_other q u u' id :
  id ∉ rank_id q -> multi_update q u = Ok u' -> u' !! id = u !! id.
Proof.
  intros Hid. unfold multi_update. destruct (_ <? _)%nat; [|by intros [= <-]].
  destruct (lookup_all u (rank_id q)); simpl; [|discriminate].
  intros [= <-]. by apply update_zip_other.
Qed.

(** C11: processing a question never changes the asker's row when the
    asker neither answered nor had an answer accepted: the asker's new
    rating from the accepted-answer game is dropped when the asker has a
    row, and written by an [UPDATE] that matches no row when not. *)
Theorem asker_row_unchanged db q tbl db' :
  db !! Tags.tra_escape (q_tag q) = Some tbl ->
  asker_id q ∉ rank_id q -> accept_id q <> Some (asker_id q) ->
  process_row db q = Ok db' ->
  exists tbl', db' !! Tags.tra_escape (q_tag q) = Some tbl' /\
    tbl' !! asker_id q = tbl !! asker_id q.
Proof.
  intros Htbl Hk Ha Hp. destruct (process_row_ok _ _ _ Hp) as (tbl0 & Ht0 & Hne & Eq).
  rewrite Htbl in Ht0. injection Ht0 as <-. revert Hp. rewrite Eq.
  set (U0 := fetch_user_ts tbl _).
  destruct (multi_update q (accept_update q U0)) as [U2|] eqn:Em; simpl; [|discriminate].
  intros [= <-]. eexists. rewrite lookup_insert_eq. split; [done|].
  rewrite write_back_lookup, (multi_update_other _ _ _ _ Hk Em).
  destruct (tbl !! asker_id q) as [r|] eqn:Er.
  - assert (U0 !! asker_id q = Some (mu_ r, sigma_ r)) as HU0.
    { unfold U0. rewrite fetch_lookup, bool_decide_eq_true_2 by set_solver. by rewrite Er. }
    rewrite (accept_update_asker _ _ _ Ha HU0). simpl. by destruct r.
  - by destruct (accept_update q U0 !! asker_id q).
Qed.

(** The rating a user's row holds, [self.fresh] for a user without a row. *)
Definition stored (tbl : table) (id : Z) : rating :=
  match tbl !! id with Some r => mk_rating (mu_ r) (sigma_ r) | None => fresh end.

(** The accepted answerer's rating after the asker/accepted-answerer game. *)
Definition accept_game (tbl : table) (q : question) (a : Z) : rating :=
  nth 0 (rate_default [stored tbl a; stored tbl (asker_id q)]) fresh.

Lemma to_rating_tse x : to_rating (tse x) = x.
Proof. by destruct x. Qed.

Lemma fetch_stored tbl ids id r :
  id ∈ ids -> tbl !! id = Some r -> fetch_user_ts tbl ids !! id = Some (tse (stored tbl id)).
Proof.
  intros Hid Hr. rewrite fetch_lookup, bool_decide_eq_true_2 by done.
  unfold stored. by rewrite Hr.
Qed.

(** After the accepted-answer game the accepted answerer holds the game's
    result, whether the asker had a row or played with [self.fresh]. *)
Lemma accept_update_accepted q tbl a r :
  accept_id q = Some a -> a <> asker_id q -> a ∈ rank_id q -> tbl !! a = Some r ->
  accept_update q (fetch_user_ts tbl (rank_id q ++ [asker_id q])) !! a =
  Some (tse (accept_game tbl q a)).
Proof.
  intros Ha Hk Hin Hr. unfold accept_update, accept_game. rewrite Ha.
  rewrite (fetch_stored _ _ _ r) by (set_solver || done).
  rewrite fetch_lookup, bool_decide_eq_true_2 by set_solver.
  destruct (tbl !! asker_id q) as [rk|] eqn:Ek; simpl;
    rewrite lookup_insert_eq, ?to_rating_tse; unfold stored; by rewrite Hr, Ek.
Qed.

(** C6: Scenario 2 of the specification.  With a single answerer [a]
    whose answer is accepted, [a]'s row receives the winner's rating of
    the two-player game against the asker's stored rating, or against
    [self.fresh] when the asker has no row. *)
Theorem accepted_answer_game db q tbl a r :
  db !! Tags.tra_escape (q_tag q) = Some tbl ->
  rank_id q = [a] -> accept_id q = Some a -> a <> asker_id q -> tbl !! a = Some r ->
  exists tbl', process_row db q = Ok (<[Tags.tra_escape (q_tag q) := tbl']> db) /\
    tbl' !! a = Some (mk_row (judge_date r) (ts r) (mu (accept_game tbl q a))
                             (sigma (accept_game tbl q a))).
Proof.
  intros Htbl Hids Ha Hk Hr. rewrite (process_row_table _ _ _ Htbl) by (by rewrite Hids).
  unfold multi_update.
  assert (Hl : (1 <? List.length (rank_id q))%nat = false) by (rewrite Hids; reflexivity).
  rewrite Hl. simpl. eexists. split; [reflexivity|].
  rewrite write_back_lookup, (accept_update_accepted _ _ _ r) by (rewrite ?Hids; set_solver || done).
  by rewrite Hr.
Qed.

Lemma lookup_all_map u ids (g : Z -> rating) :
  (forall id, id ∈ ids -> u !! id = Some (tse (g id))) -> lookup_all u ids = Ok (map g ids).
Proof.
  induction ids as [|i ids IH]; intros H; simpl; [done|].
  rewrite H by left. rewrite IH by (intros; apply H; by right). simpl. by rewrite to_rating_tse.
Qed.

Lemma update_zip_nth u out ids i id :
  NoDup ids -> List.length out = List.length ids -> ids !! i = Some id ->
  update_zip u out ids !! id = Some (tse (nth i out fresh)).
Proof.
  unfold update_zip. revert u out i. induction ids as [|x ids IH]; intros u [|o out] i Hnd Hlen Hi;
    simpl in *; try discriminate.
  apply NoDup_cons in Hnd as [Hx Hnd]. destruct i as [|i]; simpl in Hi.
  - injection Hi as <-. fold (update_zip (<[x:=tse o]> u) out ids).
    rewrite update_zip_other by done. apply lookup_insert_eq.
  - apply IH; [done|lia|done].
Qed.

(** C4: the order of the two games of a question.  With two or more
    distinct answerers, all with rows, the accepted answer [a] among them
    and the asker not among them, the ranked game is played on the ratings
    after the accepted-answer game: [a] enters it with its two-player
    result, the others with their stored ratings; the i-th answerer's row
    then receives the i-th rating of the ranked game. *)
Theorem games_in_order db q tbl a :
  db !! Tags.tra_escape (q_tag q) = Some tbl ->
  NoDup (rank_id q) -> (1 < List.length (rank_id q))%nat -> asker_id q ∉ rank_id q ->
  accept_id q = Some a -> a ∈ rank_id q ->
  (forall id, id ∈ rank_id q -> is_Some (tbl !! id)) ->
  let rs := map (fun id => if bool_decide (id = a) then accept_game tbl q a else stored tbl id)
                (rank_id q) in
  exists tbl', process_row db q = Ok (<[Tags.tra_escape (q_tag q) := tbl']> db) /\
    forall i id r, rank_id q !! i = Some id -> tbl !! id = Some r ->
      tbl' !! id = Some (mk_row (judge_date r) (ts r) (mu (nth i (rate rs (rank q)) fresh))
                                (sigma (nth i (rate rs (rank q)) fresh))).
Proof.
  intros Htbl Hnd Hlen Hk Ha Hin Hall rs.
  rewrite (process_row_table _ _ _ Htbl) by (intros Hn; rewrite Hn in Hlen; simpl in Hlen; lia).
  unfold multi_update.
  rewrite (proj2 (Nat.ltb_lt _ _) Hlen).
  rewrite (lookup_all_map _ _ (fun id => if bool_decide (id = a) then accept_game tbl q a
                                         else stored tbl id)).
  - simpl. eexists. split; [reflexivity|]. intros i id r Hi Hr.
    rewrite write_back_lookup, (update_zip_nth _ _ _ i id) by (rewrite ?rate_length, ?length_map; done).
    by rewrite Hr.
  - intros id Hid. assert (id <> asker_id q) by (intros ->; contradiction).
    destruct (Hall id Hid) as [r Hr]. case_bool_decide as Eid.
    + subst id. by apply (accept_update_accepted _ _ _ r).
    + rewrite accept_update_other by congruence. by apply (fetch_stored _ _ _ r); [set_solver|].
Qed.

(** ** Tags are processed independently *)

(** Processing a question reads and writes the table of its tag only. *)
Lemma process_row_other db q db' name :
  process_row db q = Ok db' -> name <> Tags.tra_escape (q_tag q) -> db' !! name = db !! name.
Proof.
  intros Hp Hn. destruct (process_row_ok _ _ _ Hp) as (tbl & _ & _ & Eq). rewrite Eq in Hp.
  destruct (multi_update _ _); cbn [bind] in Hp; [|discriminate]. injection Hp as <-.
  by rewrite lookup_insert_ne.
Qed.

(** The store has a row for [id] in the table [name]. *)
Definition has_row (db : store) (name : string) (id : Z) : Prop :=
  exists tbl, db !! name = Some tbl /\ is_Some (tbl !! id).

(** The games of a question drop no entry of [user_ts]. *)
Lemma accept_update_keeps q u id : is_Some (u !! id) -> is_Some (accept_update q u !! id).
Proof.
  intros Hs. unfold accept_update. destruct (accept_id q) as [a|]; [|done].
  destruct (u !! a); [|done].
  destruct (u !! asker_id q); rewrite !lookup_insert; repeat case_decide; eauto.
Qed.

(** A question whose answerers all have a row raises no [KeyError]. *)
Lemma process_row_no_key_error db q k :
  (forall id, id ∈ rank_id q -> has_row db (Tags.tra_escape (q_tag q)) id) ->
  process_row db q <> Raise (KeyError k).
Proof.
  intros Hall. unfold process_row. destruct (db !! _) as [tbl|] eqn:Htbl; [|discriminate].
  case_bool_decide; [discriminate|].
  unfold multi_update. destruct (1 <? _)%nat; [|discriminate].
  destruct (lookup_all _ _) eqn:El; cbn [bind]; [discriminate|]. intros _.
  destruct (lookup_all_raise _ _ _ El) as (k' & Hin & HU & _).
  assert (is_Some (accept_update q (fetch_user_ts tbl (rank_id q ++ [asker_id q])) !! k')) as [? Hs];
    [|congruence].
  apply accept_update_keeps. rewrite fetch_lookup, bool_decide_eq_true_2 by set_solver.
  destruct (Hall _ Hin) as (tbl' & Ht' & [r Hr]). rewrite Htbl in Ht'. injection Ht' as <-.
  rewrite Hr. eauto.
Qed.

(** The question loop removes no row. *)
Lemma process_row_has_row db q db' name id :
  process_row db q = Ok db' -> has_row db name id -> has_row db' name id.
Proof.
  intros Hp (tbl & Ht & Hid).
  destruct (decide (name = Tags.tra_escape (q_tag q))) as [->|Hn];
    [|exists tbl; by rewrite (process_row_other _ _ _ _ Hp Hn)].
  destruct (process_row_ok _ _ _ Hp) as (tbl0 & Ht0 & _ & Eq). rewrite Ht in Ht0. injection Ht0 as <-.
  rewrite Eq in Hp. destruct (multi_update _ _) as [U|]; cbn [bind] in Hp; [|discriminate].
  injection Hp as <-. exists (write_back tbl U). rewrite lookup_insert_eq, write_back_lookup.
  split; [done|]. destruct Hid as [r Hr]. rewrite Hr. destruct (U !! id); simpl; eauto.
Qed.

Lemma process_row_local db1 db2 q :
  db1 !! Tags.tra_escape (q_tag q) = db2 !! Tags.tra_escape (q_tag q) ->
  match process_row db1 q, process_row db2 q with
  | Ok a, Ok b => a !! Tags.tra_escape (q_tag q) = b !! Tags.tra_escape (q_tag q)
  | Raise e1, Raise e2 => e1 = e2
  | _, _ => False
  end.
Proof.
  intros Heq. unfold process_row. rewrite Heq.
  destruct (db2 !! _) as [tbl|]; [|done]. case_bool_decide; [done|].
  destruct (multi_update _ _); cbn [bind]; [|done]. by rewrite !lookup_insert_eq.
Qed.

(** The questions of the other tables, dropped from a question loop. *)
Definition of_table (name : string) (qs : list question) : list question :=
  filter (fun q => Tags.tra_escape (q_tag q) = name) qs.

Lemma of_table_fold qs db1 db2 d1 name :
  db1 !! name = db2 !! name -> foldM process_row qs db1 = Ok d1 ->
  exists d2, foldM process_row (of_table name qs) db2 = Ok d2 /\ d2 !! name = d1 !! name.
Proof.
  revert db1 db2. induction qs as [|q qs IH]; intros db1 db2 Heq; cbn [foldM].
  - intros [= <-]. by exists db2.
  - destruct (process_row db1 q) as [a|] eqn:Ea; cbn [bind]; [|discriminate]. intros Hf.
    unfold of_table. rewrite filter_cons. fold (of_table name qs).
    case_decide as Hn.
    + subst name. pose proof (process_row_local db1 db2 q Heq) as Hl. rewrite Ea in Hl.
      cbn [foldM]. destruct (process_row db2 q) as [b|]; [|done]. cbn [bind].
      exact (IH a b Hl Hf).
    + apply (IH a db2); [|done]. rewrite (process_row_other _ _ _ _ Ea) by congruence. done.
Qed.

(** C20: skill is tag-scoped.  When a window's question loop succeeds,
    the table of every tag is what the loop makes of it when it is given
    the questions of that tag alone: questions of other tags never read
    or write it. *)
Theorem questions_tag_scoped qs db db' name :
  foldM process_row qs db = Ok db' ->
  exists dn, foldM process_row (of_table name qs) db = Ok dn /\ dn !! name = db' !! name.
Proof. by apply of_table_fold. Qed.

(** ** Rows across a window *)

Definition row_at (db : store) (name : string) (id : Z) : option row := db !! name ≫= lookup id.

(** What the runner never writes in the question loop: judge date and [ts]. *)
Definition frozen (r : row) : option Z * Q := (judge_date r, ts r).

Lemma process_row_frozen db q db' name id :
  process_row db q = Ok db' -> frozen <$> row_at db' name id = frozen <$> row_at db name id.
Proof.
  intros Hp. destruct (process_row_ok _ _ _ Hp) as (tbl & Et & _ & Eq). revert Hp. rewrite Eq.
  unfold row_at.
  destruct (multi_update _ _) as [U|]; simpl; [intros [= <-]|discriminate].
  rewrite lookup_insert. case_decide as Hn; [subst name; rewrite Et; simpl|done].
  rewrite write_back_lookup. destruct (U !! id), (tbl !! id); done.
Qed.

Lemma process_rows_frozen db qs db' name id :
  foldM process_row qs db = Ok db' -> frozen <$> row_at db' name id = frozen <$> row_at db name id.
Proof.
  revert db. induction qs as [|q qs IH]; intros db; simpl; [by intros [= <-]|].
  destruct (process_row db q) as [db1|] eqn:E1; simpl; [|discriminate].
  intros H. rewrite (IH _ H). by apply (process_row_frozen _ _ _ name id) in E1.
Qed.

Lemma snap_row_idem ds de r : snap_row ds de (snap_row ds de r) = snap_row ds de r.
Proof.
  unfold snap_row. destruct (judge_date r) as [d|] eqn:Ej; [|by rewrite Ej].
  case_bool_decide as Hd; simpl; rewrite ?Ej.
  - by rewrite bool_decide_eq_true_2.
  - by rewrite bool_decide_eq_false_2.
Qed.

(** The [UPDATE] of the snapshot reaches the tables of the runner's tags
    and only those. *)
Lemma snapshot_row_at tags' ds de db db' name id :
  snapshot tags' ds de db = Ok db' ->
  row_at db' name id =
  if bool_decide (name ∈ map Tags.tra_escape tags') then snap_row ds de <$> row_at db name id
  else row_at db name id.
Proof.
  unfold snapshot. revert db. induction tags' as [|t tags' IH]; intros db; cbn [foldM map].
  - intros [= <-]. by rewrite bool_decide_eq_false_2 by apply not_elem_of_nil.
  - unfold snapshot_tag at 1. destruct (db !! Tags.tra_escape t) as [tbl|] eqn:Et; cbn [bind]; [|discriminate].
    intros H. rewrite (IH _ H). unfold row_at at 1 2.
    destruct (decide (Tags.tra_escape t = name)) as [<-|Hn].
    + rewrite lookup_insert_eq, (bool_decide_eq_true_2 (_ ∈ _ :: _)) by apply list_elem_of_here.
      unfold row_at. rewrite Et. cbn [mbind option_bind]. unfold snapshot_table. rewrite lookup_fmap.
      destruct (tbl !! id); case_bool_decide; simpl; rewrite ?snap_row_idem; done.
    + assert (name ∈ Tags.tra_escape t :: map Tags.tra_escape tags' <-> name ∈ map Tags.tra_escape tags')
        as Hiff by (rewrite elem_of_cons; naive_solver).
      rewrite lookup_insert_ne by done.
      by repeat case_bool_decide; tauto.
Qed.

Lemma snap_row_window k r :
  snap_row (Window.day_s k) (Window.day_e k) r =
  match judge_date r with
  | Some d => if Window.in_window d k then mk_row (judge_date r) (mu_ r - 3 * sigma_ r) (mu_ r) (sigma_ r)
              else r
  | None => r
  end.
Proof.
  unfold snap_row, Window.in_window. destruct (judge_date r) as [d|]; [|done].
  destruct (Z.leb_spec (Window.day_s k) d), (Z.leb_spec d (Window.day_e k)); simpl;
    [rewrite bool_decide_eq_true_2 | rewrite bool_decide_eq_false_2..]; try done; lia.
Qed.

(** A window that ends without a raise ran the question loop, then the
    snapshot loop. *)
Lemma window_ok feed tags db k db' :
  window feed tags db k = (db', None) <->
  exists dbp, foldM process_row (feed (Window.day_s k) (Window.day_e k)) db = Ok dbp /\
              snapshot tags (Window.day_s k) (Window.day_e k) dbp = Ok db'.
Proof.
  unfold window, snapshot. destruct (foldP process_row _ db) as [dbp [e|]] eqn:Ep.
  - split; [discriminate|]. intros (dbp' & H1 & _). apply foldP_ok in H1. congruence.
  - apply foldP_ok in Ep. rewrite foldP_ok. split; [eauto|].
    intros (dbp' & H1 & H2). congruence.
Qed.

(** One window on a row of a runner's tag: the judge date stays, and
    [ts] becomes [mu - 3 * sigma] of the row exactly when the judge date
    falls in the window. *)
Lemma window_row_at feed tags db db' k name id r :
  window feed tags db k = (db', None) -> name ∈ map Tags.tra_escape tags ->
  row_at db name id = Some r ->
  exists r', row_at db' name id = Some r' /\ judge_date r' = judge_date r /\
    ts r' = (match judge_date r with
             | Some d => if Window.in_window d k then mu_ r' - 3 * sigma_ r' else ts r
             | None => ts r
             end).
Proof.
  intros Hw Hn Hr. apply window_ok in Hw as (dbp & Ep & Hs).
  apply (process_rows_frozen _ _ _ name id) in Ep. rewrite Hr in Ep.
  destruct (row_at dbp name id) as [rp|] eqn:Erp; [|discriminate].
  unfold frozen in Ep. simpl in Ep. injection Ep as Ej Ets.
  rewrite (snapshot_row_at _ _ _ _ _ _ _ Hs), bool_decide_eq_true_2, Erp by done.
  eexists; split; [done|]. rewrite !snap_row_window, <- Ej, <- Ets.
  destruct (judge_date rp) as [d|] eqn:Ed; [destruct (Window.in_window d k)|]; simpl; rewrite ?Ed; auto.
Qed.

(** ** The windows of a run *)

Section Run.
Variable feed : Z -> Z -> list question.
Variable tags : list string.

(** A window as an all-or-nothing step. *)
Definition window_r (db : store) (i : nat) : result store :=
  match window feed tags db i with (db', None) => Ok db' | (_, Some e) => Raise e end.

(** The store after the first [k] windows, when none of them raises. *)
Definition store_after (db : store) (k : nat) : result store :=
  foldM window_r (seq 0 k) db.

Lemma window_r_ok db i db' : window_r db i = Ok db' <-> window feed tags db i = (db', None).
Proof. unfold window_r. destruct (window feed tags db i) as [d [e|]]; split; congruence. Qed.

(** A window that raises persists what ran before the raise: a prefix of
    its questions, or all of them and the snapshots of a prefix of the
    tags. *)
Lemma window_raise db k db' e :
  window feed tags db k = (db', Some e) <->
  (exists qs1 q qs2, feed (Window.day_s k) (Window.day_e k) = qs1 ++ q :: qs2 /\
     foldM process_row qs1 db = Ok db' /\ process_row db' q = Raise e) \/
  (exists dbp ts1 t ts2, foldM process_row (feed (Window.day_s k) (Window.day_e k)) db = Ok dbp /\
     tags = ts1 ++ t :: ts2 /\ foldM (snapshot_tag (Window.day_s k) (Window.day_e k)) ts1 dbp = Ok db' /\
     snapshot_tag (Window.day_s k) (Window.day_e k) db' t = Raise e).
Proof.
  unfold window. destruct (foldP process_row _ db) as [dbp [e'|]] eqn:Ep.
  - pose proof Ep as Ep'. apply foldP_raise in Ep' as (qs1 & q & qs2 & Hq & H1 & H2).
    split.
    + intros [= -> ->]. left. eauto 10.
    + intros [(qs1' & q' & qs2' & Hq' & H1' & H2')|(dbp' & _ & _ & _ & Hp & _)].
      * assert (Hr : foldP process_row (feed (Window.day_s k) (Window.day_e k)) db = (db', Some e))
          by (apply foldP_raise; eauto 10).
        congruence.
      * apply foldP_ok in Hp. congruence.
  - apply foldP_ok in Ep. rewrite foldP_raise. split.
    + intros (ts1 & t & ts2 & -> & H1 & H2). right. eauto 10.
    + intros [(qs1 & q & qs2 & Hq & H1 & H2)|(dbp' & ts1 & t & ts2 & Hp & -> & H1 & H2)].
      * exfalso. rewrite Hq, foldM_app, H1 in Ep. cbn [bind foldM] in Ep. by rewrite H2 in Ep.
      * rewrite Ep in Hp. injection Hp as <-. by exists ts1, t, ts2.
Qed.

Lemma run_windows_app db l1 l2 :
  run_windows feed tags db (l1 ++ l2) =
  match run_windows feed tags db l1 with
  | (db1, None) => run_windows feed tags db1 l2
  | (db1, Some e) => (db1, Some e)
  end.
Proof.
  revert db. induction l1 as [|i l1 IH]; intros db; simpl; [done|].
  destruct (window feed tags db i) as [db1 [e|]]; [done|apply IH].
Qed.

Lemma store_after_S db k :
  store_after db (S k) = (dbk <- store_after db k ;; window_r dbk k).
Proof.
  unfold store_after. rewrite seq_S, foldM_app. change (0 + k)%nat with k.
  destruct (foldM _ (seq 0 k) db); cbn [bind foldM]; [|done].
  by destruct (window_r _ k).
Qed.

Lemma run_windows_seq n db db' oe :
  run_windows feed tags db (seq 0 n) = (db', oe) ->
  match oe with
  | None => store_after db n = Ok db'
  | Some e => exists k dbk, (k < n)%nat /\ store_after db k = Ok dbk /\
                             window feed tags dbk k = (db', Some e)
  end.
Proof.
  revert db' oe. induction n as [|n IH]; intros db' oe; [simpl; by intros [= <- <-]|].
  rewrite seq_S, run_windows_app. change (0 + n)%nat with n.
  destruct (run_windows feed tags db (seq 0 n)) as [db1 [e|]] eqn:E1.
  - intros [= <- <-]. destruct (IH _ _ eq_refl) as (k & dbk & Hk & H1 & H2).
    exists k, dbk. split_and!; [lia|done|done].
  - specialize (IH _ _ eq_refl). rewrite store_after_S, IH. cbn [run_windows bind].
    unfold window_r. destruct (window feed tags db1 n) as [db2 [e|]] eqn:Ew; intros [= <- <-]; [|done].
    exists n, db1. split_and!; [lia|done|done].
Qed.

(** C13: what a run leaves on disk.  [run] commits after every window;
    when it completes, the store is the store after all windows.  When
    window [k] raises, the store is the store after the windows before
    [k] followed by the part of window [k] that ran before the raise,
    which [__del__] commits: the questions before the failing one, or
    all questions and the snapshots of the tags before the failing one. *)
Theorem run_commits today db db' oe :
  run today feed tags db = (db', oe) ->
  match oe with
  | None => store_after db (Window.count today) = Ok db'
  | Some e => exists k dbk, (k < Window.count today)%nat /\ store_after db k = Ok dbk /\
      ((exists qs1 q qs2, feed (Window.day_s k) (Window.day_e k) = qs1 ++ q :: qs2 /\
          foldM process_row qs1 dbk = Ok db' /\ process_row db' q = Raise e) \/
       (exists dbp ts1 t ts2, foldM process_row (feed (Window.day_s k) (Window.day_e k)) dbk = Ok dbp /\
          tags = ts1 ++ t :: ts2 /\ foldM (snapshot_tag (Window.day_s k) (Window.day_e k)) ts1 dbp = Ok db' /\
          snapshot_tag (Window.day_s k) (Window.day_e k) db' t = Raise e))
  end.
Proof.
  intros H. apply run_windows_seq in H. destruct oe as [e|]; [|done].
  destruct H as (k & dbk & Hk & H1 & H2). exists k, dbk. split_and!; [done|done|].
  by apply window_raise.
Qed.

(** The [ts] of a row after [k] committed windows: set once, to the
    [mu - 3 * sigma] of the row as it stood after the window of its
    judge date, and never touched again. *)
Lemma store_after_ts db k dbk name id r0 :
  name ∈ map Tags.tra_escape tags -> store_after db k = Ok dbk -> row_at db name id = Some r0 ->
  exists rk, row_at dbk name id = Some rk /\ judge_date rk = judge_date r0 /\
    (match judge_date r0 with
     | Some d =>
         if Window.done_by k d then
           exists dbw rw, store_after db (S (Window.window_of d)) = Ok dbw /\
             row_at dbw name id = Some rw /\ ts rk = mu_ rw - 3 * sigma_ rw
         else ts rk = ts r0
     | None => ts rk = ts r0
     end).
Proof.
  intros Hn. revert dbk. induction k as [|k IH]; intros dbk.
  - intros [= <-] Hr. exists r0. split_and!; [done|done|].
    destruct (judge_date r0); [by rewrite Window.done_by_0|done].
  - rewrite store_after_S. destruct (store_after db k) as [dbk0|] eqn:Ek; cbn [bind]; [|discriminate].
    intros Hw Hr. apply window_r_ok in Hw. destruct (IH _ eq_refl Hr) as (rk0 & Hrk0 & Ej0 & Hts0).
    destruct (window_row_at _ _ _ _ _ _ _ _ Hw Hn Hrk0) as (r' & Hr' & Ej' & Hts').
    exists r'. split_and!; [done|congruence|]. rewrite Ej0 in Hts'.
    destruct (judge_date r0) as [d|]; [|congruence].
    rewrite Window.done_by_S. destruct (Window.in_window d k) eqn:Ew.
    + rewrite orb_true_r. apply Window.in_window_spec in Ew as [_ <-].
      exists dbk, r'. rewrite store_after_S, Ek. cbn [bind]. by rewrite window_r_ok.
    + rewrite orb_false_r. rewrite Hts'. exact Hts0.
Qed.

(** C2: the [ts] snapshot of a completed run.  Every row of a table of
    the runner's tags keeps its judge date; when the judge date falls in a
    processed window, its [ts] is [mu - 3 * sigma] of the row as committed
    at the end of that window (later windows leave it alone); otherwise
    [ts] keeps its value from before the run. *)
Theorem run_ts_snapshot today db db' name id r0 :
  run today feed tags db = (db', None) -> name ∈ map Tags.tra_escape tags ->
  row_at db name id = Some r0 ->
  exists r', row_at db' name id = Some r' /\ judge_date r' = judge_date r0 /\
    (match judge_date r0 with
     | Some d =>
         if Window.covered today d then
           exists dbw rw, store_after db (S (Window.window_of d)) = Ok dbw /\
             row_at dbw name id = Some rw /\ ts r' = mu_ rw - 3 * sigma_ rw
         else ts r' = ts r0
     | None => ts r' = ts r0
     end).
Proof.
  intros Hrun Hn Hr. apply run_windows_seq in Hrun.
  destruct (store_after_ts db _ _ _ _ _ Hn Hrun Hr) as (r' & H1 & H2 & H3).
  exists r'. split_and!; [done|done|].
  destruct (judge_date r0); [by rewrite Window.covered_done_by|done].
Qed.

End Run.

End WithEngine.

(** ** Witnesses

    A table [c_sharp] with the asker 1 and the answerers 2 and 3; user 1
    is judged in window 0, user 2 in window 1, user 3 never.  The engine
    is [Rating.sample_engine]. *)

Definition row_example (d : option Z) : row := mk_row d 0 25 (25 / 3).

Definition tbl_example : table :=
  {[ 1%Z := row_example (Some (Window.day_s 0 + 3)%Z);
     2%Z := row_example (Some (Window.day_s 1 + 2)%Z);
     3%Z := row_example None ]}.

Definition db_example : store := {[ "c_sharp"%string := tbl_example ]}.

(** Two answerers, the answer of 2 accepted. *)
Definition q_two : question := mk_question "c#" [2; 3]%Z [0; 1]%Z 1 (Some 2%Z).

(** One answerer, whose answer is accepted. *)
Definition q_one : question := mk_question "c#" [2]%Z [0]%Z 1 (Some 2%Z).

(** Two answerers, one of them (4) without a row. *)
Definition q_unknown : question := mk_question "c#" [2; 4]%Z [0; 1]%Z 1 None.

Lemma db_example_c_sharp : db_example !! Tags.tra_escape "c#" = Some tbl_example.
Proof. vm_compute. reflexivity. Qed.

Lemma process_row_result_witness :
  (exists db', process_row db_example q_two = Ok db') /\
  (exists k', k' ∈ [2; 4]%Z /\ tbl_example !! k' = None /\ process_row db_example q_unknown = Raise (KeyError k')).
Proof.
  split.
  - refine (proj1 (process_row_result db_example q_two tbl_example _ _ _) _).
    + vm_compute. reflexivity.
    + decide_concrete.
    + vm_compute. lia.
    + intros id Hid. elem_cases Hid; vm_compute; eauto.
  - refine (proj2 (process_row_result db_example q_unknown tbl_example _ _ _) 4%Z _ _).
    + vm_compute. reflexivity.
    + decide_concrete.
    + vm_compute. lia.
    + decide_concrete.
    + vm_compute. reflexivity.
Defined.

Lemma asker_row_unchanged_witness :
  exists db', process_row db_example q_two = Ok db' /\
  exists tbl', db' !! Tags.tra_escape "c#" = Some tbl' /\ tbl' !! 1%Z = tbl_example !! 1%Z.
Proof.
  assert (H : exists db', process_row db_example q_two = Ok db') by (eexists; vm_compute; reflexivity).
  destruct H as [db' H]. exists db'. split; [exact H|].
  refine (asker_row_unchanged db_example q_two tbl_example db' _ _ _ H).
  - vm_compute. reflexivity.
  - decide_concrete.
  - discriminate.
Defined.

Lemma accepted_answer_game_witness :
  exists tbl', process_row db_example q_one = Ok (<[Tags.tra_escape "c#" := tbl']> db_example) /\
    tbl' !! 2%Z = Some (mk_row (Some (Window.day_s 1 + 2)%Z) 0
                         (mu (accept_game tbl_example q_one 2)) (sigma (accept_game tbl_example q_one 2))).
Proof.
  refine (accepted_answer_game db_example q_one tbl_example 2 (row_example (Some (Window.day_s 1 + 2)%Z))
            _ _ _ _ _).
  - vm_compute. reflexivity.
  - reflexivity.
  - reflexivity.
  - discriminate.
  - vm_compute. reflexivity.
Defined.

Lemma games_in_order_witness :
  exists tbl', process_row db_example q_two = Ok (<[Tags.tra_escape "c#" := tbl']> db_example) /\
    forall i id r, [2; 3]%Z !! i = Some id -> tbl_example !! id = Some r ->
      tbl' !! id = Some (mk_row (judge_date r) (ts r)
        (mu (nth i (rate [accept_game tbl_example q_two 2; stored tbl_example 3] [0; 1]%Z) fresh))
        (sigma (nth i (rate [accept_game tbl_example q_two 2; stored tbl_example 3] [0; 1]%Z) fresh))).
Proof.
  refine (games_in_order db_example q_two tbl_example 2 _ _ _ _ _ _ _).
  - vm_compute. reflexivity.
  - decide_concrete.
  - vm_compute. lia.
  - decide_concrete.
  - reflexivity.
  - decide_concrete.
  - intros id Hid. elem_cases Hid; vm_compute; eauto.
Defined.

(** Window 0 holds [q_two], window 1 holds [q_one]; [today_ts_example]
    gives two windows. *)
Definition feed_ts_example (ds de : Z) : list question :=
  if (ds =? Window.day_s 0)%Z then [q_two]
  else if (ds =? Window.day_s 1)%Z then [q_one] else [].

Definition today_ts_example : Z := 733777.

(** Window 0 holds [q_one], then [q_unknown], whose answerer 4 has no row. *)
Definition feed_fail_example (ds de : Z) : list question :=
  if (ds =? Window.day_s 0)%Z then [q_one; q_unknown] else [].

Lemma run_commits_witness :
  exists db' e, run today_ts_example feed_fail_example ["c#"]%string db_example = (db', Some e) /\
  exists k dbk, (k < Window.count today_ts_example)%nat /\
    store_after feed_fail_example ["c#"]%string db_example k = Ok dbk /\
    ((exists qs1 q qs2, feed_fail_example (Window.day_s k) (Window.day_e k) = qs1 ++ q :: qs2 /\
        foldM process_row qs1 dbk = Ok db' /\ process_row db' q = Raise e) \/
     (exists dbp ts1 t ts2, foldM process_row (feed_fail_example (Window.day_s k) (Window.day_e k)) dbk = Ok dbp /\
        ["c#"]%string = ts1 ++ t :: ts2 /\
        foldM (snapshot_tag (Window.day_s k) (Window.day_e k)) ts1 dbp = Ok db' /\
        snapshot_tag (Window.day_s k) (Window.day_e k) db' t = Raise e)).
Proof.
  assert (H : exists db' e, run today_ts_example feed_fail_example ["c#"]%string db_example = (db', Some e))
    by (do 2 eexists; vm_compute; reflexivity).
  destruct H as (db' & e & H). exists db', e. split; [exact H|].
  exact (run_commits feed_fail_example _ _ _ _ _ H).
Defined.

(** A window is not atomic, on one input.  In this run the second question of
    window 0 raises [KeyError 4]; the store left on disk holds the rating
    updates of the first question of that window, which no run of whole
    windows produces: it differs from the store before the run, and the
    run stopped in the first window. *)
Example run_partial_window_persisted :
  exists db', run today_ts_example feed_fail_example ["c#"]%string db_example = (db', Some (KeyError 4)) /\
    db' <> db_example /\ store_after feed_fail_example ["c#"]%string db_example 0 = Ok db_example /\
    (forall k, (0 < k)%nat -> exists e, store_after feed_fail_example ["c#"]%string db_example k = Raise e).
Proof.
  exists (fst (run today_ts_example feed_fail_example ["c#"]%string db_example)).
  split_and!; [vm_compute; reflexivity| |reflexivity|].
  - intros Heq. apply (f_equal (fun d => row_at d "c_sharp" 2)) in Heq. vm_compute in Heq. congruence.
  - intros [|k] Hk; [lia|]. induction k as [|k IH].
    + exists (KeyError 4). vm_compute. reflexivity.
    + destruct IH as [e He]; [lia|]. exists e. by rewrite store_after_S, He.
Qed.

Lemma run_ts_snapshot_witness :
  exists db', run today_ts_example feed_ts_example ["c#"]%string db_example = (db', None) /\
  exists r', row_at db' "c_sharp" 1 = Some r' /\ judge_date r' = Some (Window.day_s 0 + 3)%Z /\
    (if Window.covered today_ts_example (Window.day_s 0 + 3)
     then exists dbw rw,
       store_after feed_ts_example ["c#"]%string db_example (S (Window.window_of (Window.day_s 0 + 3))) = Ok dbw /\
       row_at dbw "c_sharp" 1 = Some rw /\ ts r' = mu_ rw - 3 * sigma_ rw
     else ts r' = 0).
Proof.
  assert (H : exists db', run today_ts_example feed_ts_example ["c#"]%string db_example = (db', None))
    by (eexists; vm_compute; reflexivity).
  destruct H as (db' & H). exists db'. split; [exact H|].
  refine (run_ts_snapshot feed_ts_example _ _ _ _ _ _ (row_example (Some (Window.day_s 0 + 3)%Z)) H _ _).
  - decide_concrete.
  - vm_compute. reflexivity.
Defined.

(** A second table [java], and a question of [java] with the same users. *)
Definition db_two : store := <["java"%string := tbl_example]> db_example.

Definition q_java : question := mk_question "java" [3; 2]%Z [0; 1]%Z 1 None.

Lemma questions_tag_scoped_witness :
  exists db', foldM process_row [q_two; q_java] db_two = Ok db' /\
  exists dn, foldM process_row (of_table "c_sharp" [q_two; q_java]) db_two = Ok dn /\
    dn !! "c_sharp"%string = db' !! "c_sharp"%string.
Proof.
  assert (H : exists db', foldM process_row [q_two; q_java] db_two = Ok db') by (eexists; vm_compute; reflexivity).
  destruct H as [db' H]. exists db'. split; [exact H|].
  exact (questions_tag_scoped _ _ _ _ H).
Defined.

End TSRunner.
