(* ===== verification/TSMachine.v ===== *)
(** * The TrueSkill run as a state machine

    The specification describes the per-tag loop as a machine with states
    seeding, processing-window(n), snapshotting(n) and committed(n), and
    asks that a crash leave the store at the last committed window.  This
    file gives [TrueSkillRunner.run] ([tsrunner.py:97-143]) that shape: a
    state holds the store on disk, the connection's view of it (what is
    not committed yet) and the phase the loop is in.  The steps are the
    statements of the loop: opening window [k], one question of the
    window's [QUES] rows ([process_row]), one tag's snapshot [UPDATE], the
    [commit] that closes the window, and the exit of the loop.  A raise
    ends the run; [__del__] commits what the connection holds.  A [kill]
    (the process dies, no destructor runs) loses the uncommitted work.

    The theorems: the states reachable with kills satisfy an invariant,
    proved by rule induction, which says what the disk holds in every
    phase, in particular that a kill leaves the store after the committed
    windows; and [run] is the machine's execution without kills: [run]
    returns [(db', oe)] exactly when that execution ends in the final
    state with disk [db'] (the step relation is deterministic); and the
    machine terminates: every state is strongly normalising ([sn]), kills
    included. *)

From S2P Require Import Prelude Window Tags Rating TSRunner.
From Stdlib Require Import String.

Module TSMachine.
Import TSRunner.

(** Where the loop of [run] is. *)
Inductive phase :=
| Committed (k : nat)
| Processing (k : nat) (qs : list question)
| Snapshotting (k : nat) (ts : list string)
| Done
| Dead (e : option exn).

(** The store on disk, the connection's view, the phase. *)
Record state := mk_state { disk : store; conn : store; ph : phase }.

Definition init (db : store) : state := mk_state db db (Committed 0).

(** Where a run that returned [(db', oe)] stops. *)
Definition final (db' : store) (oe : option exn) : state :=
  mk_state db' db' (match oe with None => Done | Some e => Dead (Some e) end).

Section Machine.
Context `{E : Rating.Engine}.
Variable feed : Z -> Z -> list question.
Variable tags : list string.
(** [int(cnt / 7)], the number of windows. *)
Variable n : nat.

(** The statements of the loop. *)
Inductive step : state -> state -> Prop :=
| step_open k d :
    (k < n)%nat ->
    step (mk_state d d (Committed k)) (mk_state d d (Processing k (feed (Window.day_s k) (Window.day_e k))))
| step_exit d : step (mk_state d d (Committed n)) (mk_state d d Done)
| step_question k d c q qs c' :
    process_row c q = Ok c' ->
    step (mk_state d c (Processing k (q :: qs))) (mk_state d c' (Processing k qs))
| step_question_raise k d c q qs e :
    process_row c q = Raise e ->
    step (mk_state d c (Processing k (q :: qs))) (mk_state c c (Dead (Some e)))
| step_snapshots k d c : step (mk_state d c (Processing k [])) (mk_state d c (Snapshotting k tags))
| step_snapshot k d c t ts c' :
    snapshot_tag (Window.day_s k) (Window.day_e k) c t = Ok c' ->
    step (mk_state d c (Snapshotting k (t :: ts))) (mk_state d c' (Snapshotting k ts))
| step_snapshot_raise k d c t ts e :
    snapshot_tag (Window.day_s k) (Window.day_e k) c t = Raise e ->
    step (mk_state d c (Snapshotting k (t :: ts))) (mk_state c c (Dead (Some e)))
| step_commit k d c : step (mk_state d c (Snapshotting k [])) (mk_state c c (Committed (S k))).

(** The process may die in any phase of the loop. *)
Definition running (p : phase) : bool :=
  match p with Committed _ | Processing _ _ | Snapshotting _ _ => true | _ => false end.

Inductive kstep : state -> state -> Prop :=
| kstep_step s s' : step s s' -> kstep s s'
| kstep_kill s : running (ph s) = true -> kstep s (mk_state (disk s) (disk s) (Dead None)).

(** ** The invariant of the reachable states *)

(** What the disk and the connection hold in each phase, for a run that
    started on the store [db]: [store_after] is the store after a number
    of whole windows. *)
Definition inv (db : store) (s : state) : Prop :=
  match ph s with
  | Committed k => (k <= n)%nat /\ store_after feed tags db k = Ok (disk s) /\ conn s = disk s
  | Processing k qs => (k < n)%nat /\ store_after feed tags db k = Ok (disk s) /\
      exists qs0, feed (Window.day_s k) (Window.day_e k) = qs0 ++ qs /\
                  foldM process_row qs0 (disk s) = Ok (conn s)
  | Snapshotting k ts => (k < n)%nat /\ store_after feed tags db k = Ok (disk s) /\
      exists dbp ts0, foldM process_row (feed (Window.day_s k) (Window.day_e k)) (disk s) = Ok dbp /\
        tags = ts0 ++ ts /\ foldM (snapshot_tag (Window.day_s k) (Window.day_e k)) ts0 dbp = Ok (conn s)
  | Done => store_after feed tags db n = Ok (disk s)
  | Dead None => exists k, (k <= n)%nat /\ store_after feed tags db k = Ok (disk s)
  | Dead (Some e) => exists k dbk, (k < n)%nat /\ store_after feed tags db k = Ok dbk /\
      ((exists qs1 q qs2, feed (Window.day_s k) (Window.day_e k) = qs1 ++ q :: qs2 /\
          foldM process_row qs1 dbk = Ok (disk s) /\ process_row (disk s) q = Raise e) \/
       (exists dbp ts1 t ts2, foldM process_row (feed (Window.day_s k) (Window.day_e k)) dbk = Ok dbp /\
          tags = ts1 ++ t :: ts2 /\ foldM (snapshot_tag (Window.day_s k) (Window.day_e k)) ts1 dbp = Ok (disk s) /\
          snapshot_tag (Window.day_s k) (Window.day_e k) (disk s) t = Raise e))
  end.

(** A loop body that returns extends the prefix it has run. *)
Lemma foldM_snoc {A B} (f : A -> B -> result A) l b a a1 a2 :
  foldM f l a = Ok a1 -> f a1 b = Ok a2 -> foldM f (l ++ [b]) a = Ok a2.
Proof. intros H1 H2. rewrite foldM_app, H1. cbn [bind foldM]. by rewrite H2. Qed.

Lemma inv_step db s s' : step s s' -> inv db s -> inv db s'.
Proof.
  destruct 1 as [k d Hk|d|k d c q qs c' Hq|k d c q qs e Hq|k d c|k d c t ts c' Ht|k d c t ts e Ht|k d c];
    unfold inv; cbn [ph disk conn].
  - intros (_ & Hst & _). split_and!; [done|done|]. by exists [].
  - by intros (_ & Hst & _).
  - intros (Hk & Hst & qs0 & Hf & Hq0). split_and!; [done|done|].
    exists (qs0 ++ [q]). split; [by rewrite Hf, <- app_assoc|]. by apply (foldM_snoc _ _ _ _ c).
  - intros (Hk & Hst & qs0 & Hf & Hq0). exists k, d. split_and!; [done|done|]. left. by exists qs0, q, qs.
  - intros (Hk & Hst & qs0 & Hf & Hq0). split_and!; [done|done|].
    exists c, []. rewrite app_nil_r in Hf. by rewrite Hf.
  - intros (Hk & Hst & dbp & ts0 & Hp & Ht0 & Hs0). split_and!; [done|done|].
    exists dbp, (ts0 ++ [t]). split_and!; [done|by rewrite Ht0, <- app_assoc|]. by apply (foldM_snoc _ _ _ _ c).
  - intros (Hk & Hst & dbp & ts0 & Hp & Ht0 & Hs0). exists k, d. split_and!; [done|done|].
    right. by exists dbp, ts0, t, ts.
  - intros (Hk & Hst & dbp & ts0 & Hp & Ht0 & Hs0). rewrite app_nil_r in Ht0. rewrite <- Ht0 in Hs0.
    split_and!; [lia| |done]. rewrite store_after_S, Hst. cbn [bind]. apply window_r_ok.
    unfold window. cbv zeta. rewrite (proj2 (foldP_ok _ _ _ _) Hp). by apply foldP_ok.
Qed.

Lemma inv_kstep db s s' : kstep s s' -> inv db s -> inv db s'.
Proof.
  intros [s1 s2 Hs|s1 Hr]; [by apply inv_step|].
  destruct s1 as [d c [k|k qs|k ts| |e]]; try discriminate; unfold inv; cbn [ph disk conn].
  - intros (Hk & Hst & _). by exists k.
  - intros (Hk & Hst & _). exists k. split; [lia|done].
  - intros (Hk & Hst & _). exists k. split; [lia|done].
Qed.

(** ** The execution without kills *)

Lemma questions_exec k d qs c :
  match foldP process_row qs c with
  | (c', None) => rtc step (mk_state d c (Processing k qs)) (mk_state d c' (Processing k []))
  | (c', Some e) => rtc step (mk_state d c (Processing k qs)) (mk_state c' c' (Dead (Some e)))
  end.
Proof.
  revert c. induction qs as [|q qs IH]; intros c; cbn [foldP]; [apply rtc_refl|].
  destruct (process_row c q) as [c1|e] eqn:Hq.
  - specialize (IH c1). destruct (foldP process_row qs c1) as [c' [e|]];
      (eapply rtc_l; [by constructor|exact IH]).
  - apply rtc_once. by constructor.
Qed.

Lemma snapshots_exec k d ts c :
  match foldP (snapshot_tag (Window.day_s k) (Window.day_e k)) ts c with
  | (c', None) => rtc step (mk_state d c (Snapshotting k ts)) (mk_state d c' (Snapshotting k []))
  | (c', Some e) => rtc step (mk_state d c (Snapshotting k ts)) (mk_state c' c' (Dead (Some e)))
  end.
Proof.
  revert c. induction ts as [|t ts IH]; intros c; cbn [foldP]; [apply rtc_refl|].
  destruct (snapshot_tag _ _ c t) as [c1|e] eqn:Ht.
  - specialize (IH c1). destruct (foldP _ ts c1) as [c' [e|]];
      (eapply rtc_l; [by constructor|exact IH]).
  - apply rtc_once. by constructor.
Qed.

Lemma window_exec d k : (k < n)%nat ->
  match window feed tags d k with
  | (d', None) => rtc step (mk_state d d (Committed k)) (mk_state d' d' (Committed (S k)))
  | (d', Some e) => rtc step (mk_state d d (Committed k)) (mk_state d' d' (Dead (Some e)))
  end.
Proof.
  intros Hk. unfold window. cbv zeta.
  pose proof (questions_exec k d (feed (Window.day_s k) (Window.day_e k)) d) as Hq.
  destruct (foldP process_row (feed (Window.day_s k) (Window.day_e k)) d) as [c [e|]] eqn:Ef;
    cbv iota; [eapply rtc_l; [apply step_open, Hk|exact Hq]|].
  pose proof (snapshots_exec k d tags c) as Hs.
  destruct (foldP (snapshot_tag (Window.day_s k) (Window.day_e k)) tags c) as [c' [e|]] eqn:Es;
    cbv iota; (eapply rtc_l; [apply step_open, Hk|]); (eapply rtc_trans; [exact Hq|]);
    (eapply rtc_l; [apply step_snapshots|]); [exact Hs|].
  eapply rtc_r; [exact Hs|apply step_commit].
Qed.

Lemma run_windows_exec m k d : (k + m = n)%nat ->
  match run_windows feed tags d (seq k m) with
  | (d', None) => rtc step (mk_state d d (Committed k)) (mk_state d' d' (Committed n))
  | (d', Some e) => rtc step (mk_state d d (Committed k)) (mk_state d' d' (Dead (Some e)))
  end.
Proof.
  revert k d. induction m as [|m IH]; intros k d Hkm; cbn [seq run_windows].
  - replace k with n by lia. apply rtc_refl.
  - pose proof (window_exec d k ltac:(lia)) as Hw. destruct (window feed tags d k) as [d1 [e|]]; [done|].
    specialize (IH (S k) d1 ltac:(lia)).
    destruct (run_windows feed tags d1 (seq (S k) m)) as [d' [e|]]; eapply rtc_trans; eauto.
Qed.

(** The machine has one way to go from every state. *)
Lemma step_det s s1 s2 : step s s1 -> step s s2 -> s1 = s2.
Proof. intros H1 H2. destruct H1; inversion H2; subst; try congruence; lia. Qed.

Lemma final_stuck db' oe s : ~ step (final db' oe) s.
Proof. intros Hs. destruct oe; inversion Hs. Qed.

Lemma rtc_step_final x y z :
  rtc step x y -> rtc step x z -> (forall w, ~ step y w) -> (forall w, ~ step z w) -> y = z.
Proof.
  intros Hxy. revert z. induction Hxy as [x|x x1 y Hx1 _ IH]; intros z Hxz Hy Hz.
  - destruct Hxz as [|x x2 z Hx2 _]; [done|]. by destruct (Hy x2).
  - destruct Hxz as [|x x2 z Hx2 Hz2]; [by destruct (Hz x1)|].
    apply IH; [|done|done]. by rewrite (step_det _ _ _ Hx1 Hx2).
Qed.

(** ** Termination *)

Lemma sn_intro s : (forall s', kstep s s' -> sn kstep s') -> sn kstep s.
Proof. intros H. constructor. intros s' Hs. by apply H. Qed.

(** The loop has ended: no statement runs and no process is left. *)
Lemma sn_stopped d c p : running p = false -> sn kstep (mk_state d c p).
Proof.
  intros Hp. apply sn_intro. intros s' Hs.
  inversion Hs as [? ? Hst|? Hr]; subst; [|simpl in Hr; congruence].
  destruct p; try discriminate; inversion Hst.
Qed.

Ltac sn_next := first [by apply sn_stopped | done | eauto].

Lemma sn_snapshotting k : (forall d, sn kstep (mk_state d d (Committed (S k)))) ->
  forall ts d c, sn kstep (mk_state d c (Snapshotting k ts)).
Proof.
  intros Hc ts. induction ts as [|t ts IH]; intros d c; apply sn_intro; intros s' Hs;
    inversion Hs as [? ? Hst|? Hr]; subst; [inversion Hst; subst; sn_next|sn_next|
                                            inversion Hst; subst; sn_next|sn_next].
Qed.

Lemma sn_processing k : (forall d c, sn kstep (mk_state d c (Snapshotting k tags))) ->
  forall qs d c, sn kstep (mk_state d c (Processing k qs)).
Proof.
  intros Hs0 qs. induction qs as [|q qs IH]; intros d c; apply sn_intro; intros s' Hs;
    inversion Hs as [? ? Hst|? Hr]; subst; [inversion Hst; subst; sn_next|sn_next|
                                            inversion Hst; subst; sn_next|sn_next].
Qed.

(** Every window is left for the next one, and there are [n] of them. *)
Lemma sn_committed m : forall k d c, (n - k = m)%nat -> sn kstep (mk_state d c (Committed k)).
Proof.
  induction m as [|m IH]; intros k d c Hm; apply sn_intro; intros s' Hs;
    (inversion Hs as [? ? Hst|? Hr]; subst; [inversion Hst; subst|sn_next]).
  - exfalso. lia.
  - sn_next.
  - apply sn_processing. intros. apply sn_snapshotting. intros. apply IH. lia.
  - sn_next.
Qed.

End Machine.

(** ** What the machine shows *)

(** C14: Crash safety, by rule induction on the machine with kills:
    every state reachable from a store [db] satisfies [inv].  In
    particular a process killed at any point leaves the store after the
    windows committed so far (the loop commits after every window), while
    a raise leaves, through [__del__]'s commit, the committed windows
    followed by the part of the failing window that ran before the raise. *)
Theorem reachable_inv `{Rating.Engine} feed tags n db s :
  rtc (kstep feed tags n) (init db) s -> inv feed tags n db s.
Proof.
  revert s. apply (rtc_ind_r (inv feed tags n db)).
  - unfold inv. cbn. split_and!; [lia|done|done].
  - intros y z _ Hyz Hy. by apply (inv_kstep feed tags n db y z).
Qed.

(** [run] is the machine's execution without kills: [run] returns
    [(db', oe)] exactly when the machine goes from the store [db] to the
    final state with disk [db'], [Done] or dead with the exception. *)
Theorem run_exec `{Rating.Engine} today feed tags db db' oe :
  run today feed tags db = (db', oe) <->
  rtc (step feed tags (Window.count today)) (init db) (final db' oe).
Proof.
  assert (Hr : rtc (step feed tags (Window.count today)) (init db)
                   (final (run today feed tags db).1 (run today feed tags db).2)).
  { pose proof (run_windows_exec feed tags (Window.count today) (Window.count today) 0 db eq_refl) as Hw.
    unfold run, init, final. destruct (run_windows feed tags db _) as [d [e|]]; [done|].
    eapply rtc_r; [exact Hw|constructor]. }
  split; [intros Hrun; by rewrite Hrun in Hr|intros Hx].
  assert (Heq : final db' oe = final (run today feed tags db).1 (run today feed tags db).2)
    by (eapply rtc_step_final; [exact Hx|exact Hr|apply final_stuck|apply final_stuck]).
  destruct (run today feed tags db) as [d e']. unfold final in Heq. cbn in Heq.
  destruct oe, e'; simplify_eq; done.
Qed.


(** Termination: the run has no infinite execution, kills
    included: from every state, every sequence of statements is finite.
    Each window's question and tag loops are finite, and every window is
    followed by the next of the [n] windows. *)
Theorem machine_terminates `{Rating.Engine} feed tags n s : sn (kstep feed tags n) s.
Proof.
  destruct s as [d c [k|k qs|k ts| |e]].
  - by apply (sn_committed feed tags n (n - k)).
  - apply sn_processing. intros. apply sn_snapshotting. intros. by apply (sn_committed _ _ _ (n - S k)).
  - apply sn_snapshotting. intros. by apply (sn_committed _ _ _ (n - S k)).
  - by apply sn_stopped.
  - by apply sn_stopped.
Qed.

(** ** Witness: killed after the first question of window 0 *)

#[local] Existing Instance Rating.sample_engine.

(** The run of [TSRunner]'s example opens window 0, processes its
    question [q_two], and is killed before the window's commit: the disk
    still holds the store it started from. *)
Lemma reachable_inv_witness :
  rtc (kstep feed_ts_example ["c#"%string] 2) (init db_example) (mk_state db_example db_example (Dead None)) /\
  inv feed_ts_example ["c#"%string] 2 db_example (mk_state db_example db_example (Dead None)).
Proof.
  set (c := match process_row db_example q_two with Ok c => c | Raise _ => db_example end).
  assert (Hq : process_row db_example q_two = Ok c) by (vm_compute; reflexivity).
  assert (Hr : rtc (kstep feed_ts_example ["c#"%string] 2) (init db_example)
                 (mk_state db_example db_example (Dead None))).
  { eapply rtc_l; [apply kstep_step, step_open; lia|].
    change (feed_ts_example (Window.day_s 0) (Window.day_e 0)) with [q_two].
    eapply rtc_l; [apply kstep_step; eapply step_question; exact Hq|].
    apply rtc_once. by apply kstep_kill. }
  split; [exact Hr|]. exact (reachable_inv _ _ _ _ _ Hr).
Defined.

End TSMachine.
