(* ===== verification/Feed.v ===== *)
(** * The BigQuery feeds of the runners

    The runners read the warehouse table [SOFeature.QuestionRankS], one
    row per question with its tags, its answerers [rank_id] and their
    [rank]s (lower is better), its asker and its accepted answerer.  Two
    queries read it per window:
    - the edge query [QUES] of [pgrunner.py:26-35] (the same text in
      [pagerank.py:27-36] is [PRRunner.QUES])
      pairs every two answerers of a question of the tag asked in the
      window, keeps the pairs [(src, tar)] where [tar] ranks better than
      [src], and counts them per pair ([GROUP BY src, tar]);
    - the question query [QUES] of [tsrunner.py:31-40] returns one row per
      (question, tag) for the questions asked in the window.
    BigQuery returns the groups in no particular order: the theorems on the
    edge feed hold for every order of its rows. *)

From S2P Require Import Prelude Window DiGraph TSRunner.
From Stdlib Require Import String.

Module Feed.
Local Open Scope Z_scope.
Local Open Scope s2p_scope.

(** A row of [SOFeature.QuestionRankS]; [creation_date] is the day ordinal
    of [DATE(creation_date)]. *)
Record qrow := mk_qrow {
  creation_date : Z; tags : list string; rank_id : list Z; rank : list Z;
  asker_id : Z; accept_id : option Z
}.

(** [DATE(creation_date) BETWEEN '{days}' AND '{daye}'] *)
Definition in_dates (ds de : Z) (q : qrow) : bool := bool_decide (ds <= creation_date q <= de).

(** The rows the edge query selects: [... AND '{tag}' IN UNNEST(tags)]. *)
Definition selected (rows : list qrow) (tag : string) (ds de : Z) : list qrow :=
  filter (fun q => in_dates ds de q = true /\ tag ∈ tags q) rows.

(** [UNNEST(rank_id) AS src WITH OFFSET off_s, UNNEST(rank_id) AS tar WITH
    OFFSET off_t WHERE rank[OFFSET(off_t)] - rank[OFFSET(off_s)] < 0]: the
    pairs of one question. *)
Definition beats (q : qrow) : list (Z * Z) :=
  '(s, rs) ← zip (rank_id q) (rank q);
  '(t, rt) ← zip (rank_id q) (rank q);
  if bool_decide (rt - rs < 0) then [(s, t)] else [].

(** [rank[OFFSET(i)]] past the end of [rank] is an error of BigQuery. *)
Definition short_rank (q : qrow) : bool := bool_decide (List.length (rank q) < List.length (rank_id q))%nat.

(** [SELECT src, tar, COUNT] of each group of [GROUP BY src, tar] *)
Definition group_count (ps : list (Z * Z)) : gmap (Z * Z) Z :=
  foldr (fun p m => <[p := default 0 (m !! p) + 1]> m) ∅ ps.

Definition edge_rows (m : gmap (Z * Z) Z) : list (Z * Z * Z) :=
  (fun '(p, c) => (p.1, p.2, c)) <$> map_to_list m.

(** The edge query of a tag and a window. *)
Definition edge_query (rows : list qrow) (tag : string) (ds de : Z) : result (list (Z * Z * Z)) :=
  let sel := selected rows tag ds de in
  if existsb short_rank sel then Raise QueryError
  else Ok (edge_rows (group_count (sel ≫= beats))).

(** The question query of [tsrunner.py]: [FROM QuestionRankS,
    QuestionRankS.tags AS tag], one row per tag of a question. *)
Definition ques_query (rows : list qrow) (ds de : Z) : list TSRunner.question :=
  filter (fun q => in_dates ds de q = true) rows ≫= fun q =>
    (fun t => TSRunner.mk_question t (rank_id q) (rank q) (asker_id q) (accept_id q)) <$> tags q.

(** ** The edge feed *)

(** The feed's weights do not depend on the order of its rows. *)
#[export] Instance feed_weight_perm :
  Proper ((≡ₚ) ==> (=) ==> (=) ==> (=)) DiGraph.feed_weight.
Proof.
  intros l1 l2 Hp u ? <- v ? <-.
  induction Hp as [|[[s t] w] l1 l2 _ IH|[[s t] w] [[s' t'] w'] l|l1 l2 l3 _ IH1 _ IH2];
    rewrite ?DiGraph.feed_weight_cons; lia.
Qed.

Lemma edge_rows_insert m s t c :
  m !! (s, t) = None -> edge_rows (<[(s, t) := c]> m) ≡ₚ (s, t, c) :: edge_rows m.
Proof. intros Hm. unfold edge_rows. by rewrite map_to_list_insert. Qed.

Lemma feed_weight_edge_rows m u v :
  DiGraph.feed_weight (edge_rows m) u v = default 0 (m !! (u, v)).
Proof.
  induction m as [|[s t] c m Hm IH] using map_ind.
  - unfold edge_rows. by rewrite map_to_list_empty, lookup_empty.
  - rewrite edge_rows_insert, DiGraph.feed_weight_cons, IH, lookup_insert by done.
    case_bool_decide as H; case_decide as H'; simplify_eq/=; try lia.
    rewrite Hm. simpl. lia.
Qed.

Lemma group_count_lookup ps p :
  default 0 (group_count ps !! p) = Z.of_nat (List.length (filter (fun x => x = p) ps)).
Proof.
  induction ps as [|x ps IH]; cbn [group_count foldr]; [by rewrite lookup_empty|].
  fold (group_count ps). rewrite filter_cons, lookup_insert.
  case_decide; simplify_eq/=; [|done]. rewrite Nat2Z.inj_succ, <- IH. lia.
Qed.

Lemma group_count_pos ps : map_Forall (fun _ c => 0 < c) (group_count ps).
Proof.
  induction ps as [|x ps IH]; cbn [group_count foldr]; [apply map_Forall_empty|].
  fold (group_count ps). apply map_Forall_insert_2; [|done].
  destruct (group_count ps !! x) eqn:E; simpl; [|lia]. specialize (IH _ _ E). simpl in IH. lia.
Qed.

Lemma edge_rows_pos m : map_Forall (fun _ c => 0 < c) m -> DiGraph.feed_pos (edge_rows m).
Proof.
  intros Hm. apply Forall_fmap, Forall_forall. intros [[s t] c] Hin.
  apply elem_of_map_to_list in Hin. exact (Hm _ _ Hin).
Qed.

Lemma elem_of_edge_rows m s t c : (s, t, c) ∈ edge_rows m <-> m !! (s, t) = Some c.
Proof.
  unfold edge_rows. rewrite list_elem_of_fmap. split.
  - intros ([[s' t'] c'] & [= -> -> ->] & Hin). by apply elem_of_map_to_list in Hin.
  - intros Hl. exists ((s, t), c). split; [done|]. by apply elem_of_map_to_list.
Qed.

Lemma elem_of_zip_lookup (l k : list Z) x y :
  (x, y) ∈ zip l k <-> exists i, l !! i = Some x /\ k !! i = Some y.
Proof.
  rewrite list_elem_of_lookup. setoid_rewrite lookup_zip_with. split.
  - intros [i Hi]. exists i. destruct (l !! i), (k !! i); simplify_eq/=; done.
  - intros (i & Hl & Hk). exists i. by rewrite Hl, Hk.
Qed.

(** A pair of [beats q]: [tar] ranks strictly better than [src]. *)
Lemma elem_of_beats q s t :
  (s, t) ∈ beats q <->
  exists i j rs rt, rank_id q !! i = Some s /\ rank q !! i = Some rs /\
                    rank_id q !! j = Some t /\ rank q !! j = Some rt /\ rt < rs.
Proof.
  unfold beats. rewrite list_elem_of_bind. split.
  - intros ([s' rs] & Hin & Hz). apply elem_of_zip_lookup in Hz as (i & Hi1 & Hi2).
    apply list_elem_of_bind in Hin as ([t' rt] & Hin & Hz). apply elem_of_zip_lookup in Hz as (j & Hj1 & Hj2).
    case_bool_decide; [|by apply elem_of_nil in Hin]. apply list_elem_of_singleton in Hin. simplify_eq.
    exists i, j, rs, rt. split_and!; done || lia.
  - intros (i & j & rs & rt & Hi1 & Hi2 & Hj1 & Hj2 & Hlt). exists (s, rs).
    split; [|apply elem_of_zip_lookup; eauto]. apply list_elem_of_bind. exists (t, rt).
    split; [|apply elem_of_zip_lookup; eauto]. rewrite bool_decide_eq_true_2 by lia. set_solver.
Qed.

(** C16: the edge feed of a window, in whatever order BigQuery returns
    its rows.  Every weight is positive; the weight the feed carries for
    [(u, v)] is the number of (question, [src] offset, [tar] offset)
    instances of the selected questions with [src = u], [tar = v] and
    [tar] ranked strictly better; and an edge [(s, t, w)] means that [t]
    outranked [s] in a question of the tag asked in the window. *)
Theorem edge_query_spec rows tag ds de E E' :
  edge_query rows tag ds de = Ok E -> E' ≡ₚ E ->
  DiGraph.feed_pos E' /\
  (forall u v, DiGraph.feed_weight E' u v =
     Z.of_nat (List.length (filter (fun x => x = (u, v)) (selected rows tag ds de ≫= beats)))) /\
  (forall s t w, (s, t, w) ∈ E' ->
     exists q i j rs rt, q ∈ selected rows tag ds de /\
       rank_id q !! i = Some s /\ rank q !! i = Some rs /\
       rank_id q !! j = Some t /\ rank q !! j = Some rt /\ rt < rs).
Proof.
  unfold edge_query. destruct (existsb _ _); [discriminate|]. intros [= <-] Hp.
  split_and!.
  - unfold DiGraph.feed_pos. rewrite Hp. apply edge_rows_pos, group_count_pos.
  - intros u v. by rewrite Hp, feed_weight_edge_rows, group_count_lookup.
  - intros s t w Hin. rewrite Hp, elem_of_edge_rows in Hin.
    assert (Hc : 0 < default 0 (group_count (selected rows tag ds de ≫= beats) !! (s, t)))
      by (rewrite Hin; exact (group_count_pos _ _ _ Hin)).
    rewrite group_count_lookup in Hc.
    destruct (filter _ _) as [|x l] eqn:Ef; [simpl in Hc; lia|].
    assert (Hx : x ∈ filter (fun x => x = (s, t)) (selected rows tag ds de ≫= beats)) by (rewrite Ef; set_solver).
    apply list_elem_of_filter in Hx as [-> Hx]. apply list_elem_of_bind in Hx as (q & Hb & Hq).
    apply elem_of_beats in Hb as (i & j & rs & rt & H). exists q, i, j, rs, rt. tauto.
Qed.

(** ** Witnesses *)

(** Scenario 1 of the specification as [QuestionRankS] rows: in week 0,
    two questions of [c#] where 2 ranks above 1; in week 1, one where 3
    ranks above 2. *)
Definition rows_example : list qrow :=
  [mk_qrow (Window.day_s 0 + 1) ["c#"%string] [2; 1] [1; 2] 5 None;
   mk_qrow (Window.day_s 0 + 3) ["c#"%string; "java"%string] [2; 1] [1; 2] 6 (Some 2);
   mk_qrow (Window.day_s 1 + 1) ["c#"%string] [3; 2] [1; 2] 7 None].

Lemma edge_query_spec_witness :
  exists E, edge_query rows_example "c#" (Window.day_s 0) (Window.day_e 0) = Ok E /\
    DiGraph.feed_pos E /\ DiGraph.feed_weight E 1 2 = 2 /\ DiGraph.feed_weight E 2 1 = 0.
Proof.
  assert (HE : exists E, edge_query rows_example "c#" (Window.day_s 0) (Window.day_e 0) = Ok E)
    by (eexists; vm_compute; reflexivity).
  destruct HE as [E HE]. exists E. split; [exact HE|].
  destruct (edge_query_spec _ _ _ _ _ E HE (reflexivity E)) as (Hpos & Hw & _).
  split; [exact Hpos|]. rewrite !Hw. split; vm_compute; reflexivity.
Defined.

End Feed.
