(* ===== verification/Setup.v ===== *)
(** * Table creation: [create_table] of the two runners

    Both runners seed one SQLite table per tag from a BigQuery [USER]
    query before [run]:
    - [PGRunner.create_table] ([pgrunner.py:70-87]) iterates the values of
      the [tag] column of the [TAGS] query; per tag it creates the table
      if needed, empties it, drops its index, appends the [USER] rows,
      recreates the index and commits;
    - [TrueSkillRunner.create_table] ([tsrunner.py:76-94]) iterates
      [self.tags], the [TAGS] DataFrame itself.  Iterating a pandas
      DataFrame yields its column labels, so the loop runs once, for the
      label ["tag"]: it creates and fills a table named [tag], and none for
      the tags of the column.  The main block then runs [run], whose
      snapshot loop iterates the column's values.

    A table is modelled as in [PGRunner] and [TSRunner]; the SQLite index
    names are kept in a set, since [CREATE INDEX] without [IF NOT EXISTS]
    raises on an index that exists.  A pass of a loop that raises returns
    the state it committed ([foldS]): [CREATE TABLE IF NOT EXISTS] outside
    a transaction commits at once, and pandas' [to_sql] commits its rows,
    with the [DELETE] before it, or rolls them back when it raises. *)

From S2P Require Import Prelude Window Tags Rating PGRunner TSRunner.
From Stdlib Require Import String.

(** The result of [_query(TAGS)]: a DataFrame with its column labels and
    its [tag] column. *)
Record dataframe := mk_dataframe { columns : list string; tag_column : list string }.

(** [df.to_sql(name, con, if_exists='append', index=False)] into a table
    whose [user_id] is the primary key: the rows are inserted in order,
    and an id already present raises. *)
Definition to_sql_append {R} (tbl : gmap Z R) (rows : list (Z * R)) : result (gmap Z R) :=
  foldM (fun t '(id, r) => if bool_decide (is_Some (t !! id)) then Raise IntegrityError
                           else Ok (<[id := r]> t)) rows tbl.

(** An append that succeeds inserted rows with distinct ids, none of them
    in the table before. *)
Lemma to_sql_append_ok {R} (tbl tbl' : gmap Z R) rows :
  to_sql_append tbl rows = Ok tbl' ->
  NoDup rows.*1 /\ Forall (fun id => tbl !! id = None) rows.*1 /\ tbl' = list_to_map rows ∪ tbl.
Proof.
  unfold to_sql_append. revert tbl. induction rows as [|[id r] rows IH]; intros tbl; cbn [foldM].
  - intros [= <-]. split_and!; [apply NoDup_nil_2|apply Forall_nil_2|by rewrite list_to_map_nil, (left_id_L ∅ union)].
  - case_bool_decide as Hid; cbn [bind]; [discriminate|]. intros H.
    destruct (IH _ H) as (Hnd & Hall & ->). apply eq_None_not_Some in Hid.
    assert (Hn : id ∉ rows.*1).
    { intros Hin. rewrite Forall_forall in Hall. specialize (Hall _ Hin). by rewrite lookup_insert_eq in Hall. }
    cbn [fmap list_fmap fst list_to_map foldr]. split_and!.
    + by constructor.
    + constructor; [done|].
      eapply Forall_impl; [exact Hall|]. intros i Hi. simpl in Hi.
      rewrite lookup_insert in Hi. by case_decide.
    + simpl. rewrite <- insert_union_l, insert_union_r; [done|]. by apply not_elem_of_list_to_map_1.
Qed.

(** An append raises, and then [IntegrityError], exactly when two rows
    share an id or a row's id is in the table already. *)
Lemma to_sql_append_raise {R} (tbl : gmap Z R) rows e :
  to_sql_append tbl rows = Raise e <->
  e = IntegrityError /\ ~ (NoDup rows.*1 /\ Forall (fun id => tbl !! id = None) rows.*1).
Proof.
  unfold to_sql_append. revert tbl. induction rows as [|[id r] rows IH]; intros tbl; cbn [foldM].
  - split; [discriminate|]. intros [_ Hn]. exfalso. apply Hn. split; constructor.
  - cbn [fmap list_fmap fst]. rewrite NoDup_cons, Forall_cons.
    case_bool_decide as Hid; cbn [bind].
    + split; [intros [= <-]|intros [-> _]; done]. split; [done|].
      intros (_ & Hn & _). rewrite Hn in Hid. by destruct Hid.
    + rewrite IH. apply eq_None_not_Some in Hid.
      assert (Hf : Forall (fun i => <[id:=r]> tbl !! i = None) rows.*1 <->
                   id ∉ rows.*1 /\ Forall (fun i => tbl !! i = None) rows.*1).
      { rewrite !Forall_forall. split.
        - intros H. split.
          + intros Hin. specialize (H _ Hin). by rewrite lookup_insert_eq in H.
          + intros i Hi. specialize (H _ Hi). rewrite lookup_insert in H. by case_decide.
        - intros [Hn H] i Hi. rewrite lookup_insert_ne; [by apply H|]. intros ->. contradiction. }
      rewrite Hf. tauto.
Qed.

Module PGSetup.
Local Open Scope Q_scope.
Local Open Scope s2p_scope.

(** The SQLite file [Data/PageRank.sqlite]: tables and index names. *)
Record prdb := mk_prdb { tables : gmap string PGRunner.table; indexes : gset string }.

(** One tag of the loop, [pgrunner.py:73-86]; [users t] is the result of
    the [USER] query of tag [t].  [CREATE TABLE IF NOT EXISTS] commits at
    once (no transaction is open); [DELETE] opens a transaction that
    [DROP INDEX IF EXISTS] joins; [to_sql] commits it with the appended
    rows, or rolls it back and raises; [CREATE INDEX] and [commit] follow.
    The state reached is returned with the exception, if any. *)
Definition create_tag (users : string -> list (Z * PGRunner.row)) (db : prdb) (t : string)
    : prdb * option exn :=
  let name := Tags.tra_escape t in
  let idx := ("idx_" ++ name)%string in
  match to_sql_append ∅ (users t) with
  | Ok tbl => (mk_prdb (<[name := tbl]> (tables db)) ({[idx]} ∪ indexes db), None)
  | Raise e => (mk_prdb (<[name := default ∅ (tables db !! name)]> (tables db)) (indexes db), Some e)
  end.

(** [create_table], [pgrunner.py:70-87]: a commit after every tag, so a
    raise leaves the tags before it created. *)
Definition create_table (users : string -> list (Z * PGRunner.row)) (tags : dataframe) (db : prdb)
    : prdb * option exn :=
  foldS (create_tag users) (tag_column tags) db.

(** The main block, [pgrunner.py:135-138]: [create_table()], then
    [runall()] on the object, whose [self.pager] starts empty; the store
    left on disk after [__del__]. *)
Definition main (today : Z) (users : string -> list (Z * PGRunner.row))
    (feeds : string -> Z -> Z -> list (Z * Z * Z)) (tags : dataframe) (db : prdb)
    : gmap string PGRunner.table * option exn :=
  match create_table users tags db with
  | (db1, None) =>
      let '(r, oe) := PGRunner.runall today feeds (tag_column tags) (PGRunner.mk_runner ∅ (tables db1)) in
      (PGRunner.__del__ r, oe)
  | (db1, Some e) => (tables db1, Some e)
  end.

Lemma create_tag_ok users db t db' :
  stepM (create_tag users) db t = Ok db' <->
  exists tbl, to_sql_append ∅ (users t) = Ok tbl /\
    db' = mk_prdb (<[Tags.tra_escape t := tbl]> (tables db)) ({[("idx_" ++ Tags.tra_escape t)%string]} ∪ indexes db).
Proof.
  unfold stepM, create_tag. destruct (to_sql_append ∅ (users t)) as [tbl|e]; simpl.
  - split; [intros [= <-]; eauto|intros (? & [= <-] & ->); done].
  - split; [discriminate|intros (? & ? & _); discriminate].
Qed.

Lemma create_tag_tables users db t db' :
  stepM (create_tag users) db t = Ok db' ->
  tables db' = <[Tags.tra_escape t := list_to_map (users t)]> (tables db).
Proof.
  intros (tbl & E & ->)%create_tag_ok. simpl.
  apply to_sql_append_ok in E as (_ & _ & ->). by rewrite (right_id_L ∅ union).
Qed.

Lemma create_tags_table users l db db' t :
  foldM (stepM (create_tag users)) l db = Ok db' ->
  t ∈ l \/ tables db !! Tags.tra_escape t = Some (list_to_map (users t)) ->
  (forall t', t' ∈ l -> Tags.tra_escape t' = Tags.tra_escape t -> t' = t) ->
  tables db' !! Tags.tra_escape t = Some (list_to_map (users t)).
Proof.
  revert db. induction l as [|t0 l IH]; intros db; cbn [foldM].
  - intros [= <-] [Hin|Ht] _; [by apply elem_of_nil in Hin|done].
  - destruct (stepM (create_tag users) db t0) as [db1|] eqn:E1; cbn [bind]; [|discriminate].
    intros Hf Hin Hinj. apply (IH db1 Hf); [|intros t' Ht'; apply Hinj; set_solver].
    apply create_tag_tables in E1. rewrite E1.
    destruct (decide (Tags.tra_escape t0 = Tags.tra_escape t)) as [Heq|Hne].
    + right. rewrite Heq, lookup_insert_eq. rewrite (Hinj t0) by (set_solver || done). done.
    + rewrite lookup_insert_ne by done. destruct Hin as [[->|Hin]%elem_of_cons|Ht]; [done|by left|by right].
Qed.

(** [create_table] completes when no [USER] query of the column repeats
    a user. *)
Lemma create_table_complete users tags db :
  (forall t, t ∈ tag_column tags -> NoDup (users t).*1) -> exists db1, create_table users tags db = (db1, None).
Proof.
  unfold create_table. generalize (tag_column tags) as l. intros l.
  revert db. induction l as [|t l IH]; intros db Hnd; [by eexists|]. cbn [foldS].
  unfold create_tag at 1. destruct (to_sql_append ∅ (users t)) as [tbl|e] eqn:Ea.
  - apply IH. intros t' Ht'. apply Hnd. by right.
  - exfalso. apply to_sql_append_raise in Ea as [_ Hn]. apply Hn. split; [apply Hnd; by left|].
    apply Forall_forall. intros id _. apply lookup_empty.
Qed.

(** C22: [PGRunner.create_table] resets.  After it completes, the table
    of every tag of the column holds exactly the rows of its [USER] query,
    whatever the database held before (provided no other tag of the column
    escapes to the same name). *)
Theorem create_table_resets users tags db db' t :
  create_table users tags db = (db', None) -> t ∈ tag_column tags ->
  (forall t', t' ∈ tag_column tags -> Tags.tra_escape t' = Tags.tra_escape t -> t' = t) ->
  tables db' !! Tags.tra_escape t = Some (list_to_map (users t)).
Proof.
  intros H Ht Hinj. apply foldS_ok in H. by apply (create_tags_table _ _ _ _ _ H); [left|].
Qed.

(** A database whose [c_sharp] table holds scores of an earlier run. *)
Definition users_example (t : string) : list (Z * PGRunner.row) :=
  [(1%Z, PGRunner.mk_row 733300 0); (2%Z, PGRunner.mk_row 733310 0)].

Definition prdb_example : prdb :=
  mk_prdb {[ "c_sharp"%string := {[ 1%Z := PGRunner.mk_row 733300 5; 7%Z := PGRunner.mk_row 733301 2 ]} ]} ∅.

Definition pg_tags_example : dataframe := mk_dataframe ["tag"%string] ["c#"%string; "java"%string].

Lemma create_table_resets_witness :
  exists db', create_table users_example pg_tags_example prdb_example = (db', None) /\
    tables db' !! Tags.tra_escape "c#" = Some (list_to_map (users_example "c#")).
Proof.
  exists (fst (create_table users_example pg_tags_example prdb_example)).
  assert (H : create_table users_example pg_tags_example prdb_example =
              (fst (create_table users_example pg_tags_example prdb_example), None))
    by (vm_compute; reflexivity).
  split; [exact H|]. refine (create_table_resets _ _ _ _ _ H _ _).
  - apply elem_of_cons. by left.
  - intros t' Ht'. elem_cases Ht'; [done|]. vm_compute. discriminate.
Defined.

End PGSetup.

Module TSSetup.
Local Open Scope Q_scope.
Local Open Scope s2p_scope.

(** The SQLite file [Data/TrueSkill.sqlite]. *)
Record tsdb := mk_tsdb { tables : TSRunner.store; indexes : gset string }.

(** One pass of the loop, [tsrunner.py:79-92], for the label [t]:
    [CREATE TABLE IF NOT EXISTS] keeps the rows of an existing table,
    [to_sql] appends and commits, or rolls back and raises, and
    [CREATE INDEX] raises on an index that exists.  What ran before a
    raise stays: [to_sql] committed it, or [__del__] commits it. *)
Definition create_tag (users : string -> list (Z * TSRunner.row)) (db : tsdb) (t : string)
    : tsdb * option exn :=
  let name := Tags.tra_escape t in
  let idx := ("idx_" ++ name)%string in
  let cur := default ∅ (tables db !! name) in
  match to_sql_append cur (users t) with
  | Raise e => (mk_tsdb (<[name := cur]> (tables db)) (indexes db), Some e)
  | Ok tbl =>
      if bool_decide (idx ∈ indexes db) then (mk_tsdb (<[name := tbl]> (tables db)) (indexes db), Some OperationalError)
      else (mk_tsdb (<[name := tbl]> (tables db)) ({[idx]} ∪ indexes db), None)
  end.

(** [create_table], [tsrunner.py:76-94]: [for tag in tqdm(self.tags)]
    iterates the DataFrame, that is its column labels.  The commit comes
    after the loop; on a raise, [__del__] commits what ran. *)
Definition create_table (users : string -> list (Z * TSRunner.row)) (tags : dataframe) (db : tsdb)
    : tsdb * option exn :=
  foldS (create_tag users) (columns tags) db.

(** A pass that completes appends the query's rows to the table. *)
Lemma ts_create_tag_ok users db t db' :
  create_tag users db t = (db', None) ->
  exists tbl, to_sql_append (default ∅ (tables db !! Tags.tra_escape t)) (users t) = Ok tbl /\
    tables db' = <[Tags.tra_escape t := tbl]> (tables db).
Proof.
  unfold create_tag. destruct (to_sql_append _ _) as [tbl|e]; [|discriminate].
  case_bool_decide; [discriminate|]. intros [= <-]. by exists tbl.
Qed.

(** The main block, [tsrunner.py:146-149]: [create_table()], then [run()]
    over the values of the [tag] column; the store left on disk. *)
Definition main `{Rating.Engine} (today : Z) (users : string -> list (Z * TSRunner.row))
    (feed : Z -> Z -> list TSRunner.question) (tags : dataframe) (db : tsdb) : TSRunner.store * option exn :=
  match create_table users tags db with
  | (db1, None) => TSRunner.run today feed (tag_column tags) (tables db1)
  | (db1, Some e) => (tables db1, Some e)
  end.

Section Breaks.
Context `{Rating.Engine}.

(** The question loop creates no table. *)
Lemma process_rows_keys qs db db' name :
  foldM TSRunner.process_row qs db = Ok db' -> is_Some (db' !! name) <-> is_Some (db !! name).
Proof.
  revert db. induction qs as [|q qs IH]; intros db; cbn [foldM]; [by intros [= <-]|].
  destruct (TSRunner.process_row db q) as [db1|] eqn:E1; cbn [bind]; [|discriminate].
  intros Hf. rewrite (IH _ Hf).
  destruct (decide (name = Tags.tra_escape (TSRunner.q_tag q))) as [->|Hn].
  - destruct (TSRunner.process_row_ok _ _ _ E1) as (tbl & Ht & _ & Eq). rewrite Eq in E1.
    destruct (TSRunner.multi_update _ _); cbn [bind] in E1; [|discriminate]. injection E1 as <-.
    rewrite lookup_insert_eq, Ht. split; eauto.
  - by rewrite (TSRunner.process_row_other _ _ _ _ E1 Hn).
Qed.

(** The snapshot loop needs a table for every tag it updates. *)
Lemma snapshot_needs_tables tags ds de db db' t :
  TSRunner.snapshot tags ds de db = Ok db' -> t ∈ tags -> is_Some (db !! Tags.tra_escape t).
Proof.
  unfold TSRunner.snapshot. revert db. induction tags as [|t0 tags IH]; intros db; cbn [foldM].
  - intros _ Ht. by apply elem_of_nil in Ht.
  - unfold TSRunner.snapshot_tag at 1. destruct (db !! Tags.tra_escape t0) as [tbl|] eqn:E0;
      cbn [bind]; [|discriminate].
    intros Hf [->|Ht]%elem_of_cons; [by rewrite E0|].
    specialize (IH _ Hf Ht). destruct (decide (Tags.tra_escape t = Tags.tra_escape t0)) as [Heq|Hn].
    + rewrite Heq, E0. eauto.
    + by rewrite lookup_insert_ne in IH by congruence.
Qed.

(** A run over a tag whose table is missing raises in its first window:
    either a question of the window raises, or the snapshot loop reaches
    the missing table. *)
Lemma run_breaks today feed tags db t :
  t ∈ tags -> db !! Tags.tra_escape t = None -> (0 < Window.count today)%nat ->
  exists db' e, TSRunner.run today feed tags db = (db', Some e).
Proof.
  intros Ht Hdb Hk. unfold TSRunner.run. destruct (Window.count today) as [|n]; [lia|].
  cbn [seq TSRunner.run_windows].
  destruct (TSRunner.window feed tags db 0) as [db2 [e|]] eqn:Ew; [eauto|].
  exfalso. apply TSRunner.window_ok in Ew as (dbp & Hp & Hs).
  apply (snapshot_needs_tables _ _ _ _ _ t) in Hs; [|done].
  apply (process_rows_keys _ _ _ (Tags.tra_escape t)) in Hp. apply Hp in Hs. rewrite Hdb in Hs.
  by destruct Hs.
Qed.

(** [create_table] over a DataFrame whose one column label is [tag]
    creates the table [tag] and no other. *)
Lemma create_table_column users tags db db1 name :
  columns tags = ["tag"%string] -> create_table users tags db = (db1, None) -> name <> "tag"%string ->
  tables db1 !! name = tables db !! name.
Proof.
  intros Hc. unfold create_table. rewrite Hc. cbn [foldS].
  destruct (create_tag users db "tag") as [db1' [e|]] eqn:Ec; [discriminate|]. intros [= <-] Hn.
  destruct (ts_create_tag_ok _ _ _ _ Ec) as (tbl & _ & ->).
  rewrite lookup_insert_ne; [done|]. intros Heq. apply Hn. rewrite <- Heq. vm_compute. reflexivity.
Qed.

(** C12: the TrueSkill script never completes on a fresh database.
    [create_table] makes only the table [tag]; as soon as one tag of the
    column escapes to another name whose table does not exist, the first
    window of [run] raises: either a question of that window raises, or
    the snapshot loop reaches that tag's missing table. *)
Theorem main_breaks today users feed tags db t :
  columns tags = ["tag"%string] -> t ∈ tag_column tags -> Tags.tra_escape t <> "tag"%string ->
  tables db !! Tags.tra_escape t = None -> (0 < Window.count today)%nat ->
  exists db' e, main today users feed tags db = (db', Some e).
Proof.
  intros Hc Ht Hn Hdb Hk. unfold main.
  destruct (create_table users tags db) as [db1 [e|]] eqn:Ec; [eauto|].
  apply (run_breaks _ _ _ _ t); [done| |done].
  by rewrite (create_table_column _ _ _ _ _ Hc Ec).
Qed.

End Breaks.

Import Rating.

(** The [TAGS] DataFrame of two tags, on a fresh database. *)
Definition tags_example : dataframe := mk_dataframe ["tag"%string] ["c#"%string; "java"%string].

Lemma main_breaks_witness :
  exists db' e, main TSRunner.today_ts_example (fun _ => []) (fun _ _ => []) tags_example (mk_tsdb ∅ ∅) =
                (db', Some e).
Proof.
  refine (main_breaks TSRunner.today_ts_example (fun _ => []) (fun _ _ => []) tags_example (mk_tsdb ∅ ∅)
            "c#" eq_refl _ _ eq_refl _).
  - apply elem_of_cons. by left.
  - vm_compute. discriminate.
  - vm_compute. lia.
Defined.

End TSSetup.
