(* ===== verification/Seed.v ===== *)
(** * The seed feed: the [TAGS] and [USER] queries

    The runners seed their tables from the warehouse table
    [SOFeature.Score600], one row per (user, tag) observation with its
    owner and its creation date:
    - [TAGS] ([pgrunner.py:14], [tsrunner.py:14]) is
      [SELECT DISTINCT tag FROM Score600], a DataFrame of one column;
    - the PageRank [USER] query ([pgrunner.py:17-23]; the same text in
      [pagerank.py:18-24] is [PRRunner.USER]) selects the rows of the tag, with the judge date
      [creation_date + 120 days] and the score [0.0];
    - the TrueSkill [USER] query ([tsrunner.py:17-28]) selects the
      answerers of the questions of the tag in [QuestionRankS], LEFT JOINed
      with their [Score600] rows of the tag, [DISTINCT]: an answerer without
      such a row gets a NULL judge date.

    The theorems compose these queries with the table creation of
    [Setup.v] and with the question loop of [TSRunner.v]: a user seen twice
    in [Score600] for a tag makes [create_table] raise [IntegrityError];
    a seeded PageRank table holds the judge dates of the seed feed; and a
    TrueSkill store seeded for the tags of a window raises no [KeyError]
    in that window's question loop. *)

From S2P Require Import Prelude Window Tags Rating PGRunner TSRunner Feed Setup.
From Stdlib Require Import String.

Module Seed.
Local Open Scope Z_scope.
Local Open Scope s2p_scope.

(** A row of [SOFeature.Score600]; [sc_creation_date] is the day ordinal
    of [DATE(creation_date)]. *)
Record score_row := mk_score_row { owner_user_id : Z; sc_creation_date : Z; sc_tag : string }.

(** [_query(TAGS)]: the DataFrame of the one column [tag], its values
    distinct. *)
Definition tags_query (scores : list score_row) : dataframe :=
  mk_dataframe ["tag"%string] (remove_dups (sc_tag <$> scores)).

(** The PageRank [USER] query with [{period}] and [{tag}]:
    [SELECT owner_user_id, DATE_ADD(DATE(creation_date), INTERVAL period DAY),
     0.0 FROM Score600 WHERE tag = '{tag}']. *)
Definition user_query (period : Z) (scores : list score_row) (tag : string) : list (Z * PGRunner.row) :=
  (fun s => (owner_user_id s, PGRunner.mk_row (sc_creation_date s + period) 0%Q)) <$>
    filter (fun s => sc_tag s = tag) scores.

(** [LEFT JOIN Score600 SC ON SC.owner_user_id = user_id AND SC.tag = '{tag}']:
    the judge dates the join gives the answerer [u], a NULL one when no
    row matches. *)
Definition left_join (period : Z) (scores : list score_row) (tag : string) (u : Z) : list (option Z) :=
  match filter (fun s => owner_user_id s = u /\ sc_tag s = tag) scores with
  | [] => [None]
  | ms => (fun s => Some (sc_creation_date s + period)) <$> ms
  end.

(** The TrueSkill [USER] query: for the questions of the tag, every
    answerer of [rank_id] with each judge date of the join, [DISTINCT];
    the other columns are the constants [0.0], [25.0] and [25.0 / 3]. *)
Definition ts_user_query (period : Z) (qrs : list Feed.qrow) (scores : list score_row) (tag : string)
    : list (Z * TSRunner.row) :=
  (fun '(u, jd) => (u, TSRunner.mk_row jd 0%Q (Rating.mu Rating.seed) (Rating.sigma Rating.seed))) <$>
  remove_dups (filter (fun q => tag ∈ Feed.tags q) qrs ≫= fun q =>
                 Feed.rank_id q ≫= fun u => pair u <$> left_join period scores tag u).

(** ** The PageRank seed *)

Lemma user_query_ids period scores t :
  (user_query period scores t).*1 = owner_user_id <$> filter (fun s => sc_tag s = t) scores.
Proof. unfold user_query. by rewrite <- list_fmap_compose. Qed.

Lemma elem_of_user_query period scores t u r :
  (u, r) ∈ user_query period scores t <->
  exists s, s ∈ scores /\ sc_tag s = t /\ owner_user_id s = u /\
            r = PGRunner.mk_row (sc_creation_date s + period) 0.
Proof.
  unfold user_query. rewrite list_elem_of_fmap. split.
  - intros (s & [= -> ->] & Hs). apply list_elem_of_filter in Hs as [Ht Hs]. by exists s.
  - intros (s & Hs & Ht & <- & ->). exists s. split; [done|]. by apply list_elem_of_filter.
Qed.

(** ** The TrueSkill seed *)

(** The join gives every answerer at least one judge date. *)
Lemma left_join_nonempty period scores t u : exists jd, jd ∈ left_join period scores t u.
Proof.
  unfold left_join. destruct (filter _ scores) as [|s ms].
  - exists None. apply list_elem_of_here.
  - exists (Some (sc_creation_date s + period)). apply list_elem_of_here.
Qed.

(** Every answerer of a question of the tag is seeded. *)
Lemma ts_user_query_answerer period qrs scores t qr u :
  qr ∈ qrs -> t ∈ Feed.tags qr -> u ∈ Feed.rank_id qr -> u ∈ (ts_user_query period qrs scores t).*1.
Proof.
  intros Hq Ht Hu. destruct (left_join_nonempty period scores t u) as [jd Hjd].
  apply list_elem_of_fmap. exists (u, TSRunner.mk_row jd 0%Q (Rating.mu Rating.seed) (Rating.sigma Rating.seed)).
  split; [done|]. apply list_elem_of_fmap. exists (u, jd). split; [done|].
  apply elem_of_remove_dups, list_elem_of_bind. exists qr. split; [|by apply list_elem_of_filter].
  apply list_elem_of_bind. exists u. split; [|done]. apply list_elem_of_fmap. by exists jd.
Qed.

(** A question of the window's [QUES] feed comes from a row of
    [QuestionRankS] under one of its tags. *)
Lemma ques_query_source qrs ds de q :
  q ∈ Feed.ques_query qrs ds de ->
  exists qr, qr ∈ qrs /\ TSRunner.q_tag q ∈ Feed.tags qr /\ TSRunner.rank_id q = Feed.rank_id qr.
Proof.
  unfold Feed.ques_query. intros (qr & Hq & Hqr)%list_elem_of_bind.
  apply list_elem_of_filter in Hqr as [_ Hqr]. apply list_elem_of_fmap in Hq as (t & -> & Ht).
  by exists qr.
Qed.

(** [create_tag] of [tsrunner.py] keeps the rows of the store and adds
    the rows of its query. *)
Lemma ts_create_tag_has_row users db t db' name id :
  stepM (TSSetup.create_tag users) db t = Ok db' ->
  TSRunner.has_row (TSSetup.tables db) name id \/ (name = Tags.tra_escape t /\ id ∈ (users t).*1) ->
  TSRunner.has_row (TSSetup.tables db') name id.
Proof.
  unfold stepM. destruct (TSSetup.create_tag users db t) as [db1 [e|]] eqn:Ec; [discriminate|].
  intros [= <-]. destruct (TSSetup.ts_create_tag_ok _ _ _ _ Ec) as (tbl & E & ->).
  apply to_sql_append_ok in E as (_ & _ & ->).
  destruct (decide (name = Tags.tra_escape t)) as [->|Hn].
  - intros H. eexists. rewrite lookup_insert_eq. split; [done|]. apply lookup_union_is_Some.
    destruct H as [(tbl0 & Ht0 & Hs)|[_ Hid]].
    + right. rewrite Ht0. done.
    + left. apply not_eq_None_Some. intros Hn. by apply not_elem_of_list_to_map_2 in Hn.
  - intros [(tbl0 & Ht0 & Hs)|[-> _]]; [|done]. exists tbl0. by rewrite lookup_insert_ne by congruence.
Qed.

Lemma ts_create_tags_has_row users tags db0 db t id :
  foldM (stepM (TSSetup.create_tag users)) tags db0 = Ok db -> t ∈ tags -> id ∈ (users t).*1 ->
  TSRunner.has_row (TSSetup.tables db) (Tags.tra_escape t) id.
Proof.
  revert db0. induction tags as [|t0 tags IH]; intros db0; cbn [foldM];
    [intros _ Ht; by apply elem_of_nil in Ht|].
  destruct (stepM (TSSetup.create_tag users) db0 t0) as [db1|] eqn:E; cbn [bind]; [|discriminate].
  intros Hf [->|Ht]%elem_of_cons Hid; [|by apply (IH db1)].
  apply (foldM_inv (fun d => TSRunner.has_row (TSSetup.tables d) (Tags.tra_escape t0) id)
           (stepM (TSSetup.create_tag users)) tags db1 db).
  - intros a b a' Ha Hb. eapply ts_create_tag_has_row; [exact Hb|by left].
  - eapply ts_create_tag_has_row; [exact E|by right].
  - exact Hf.
Qed.

(** ** What the seed guarantees *)

(** C10: [PGRunner.create_table] on the seed feed raises exactly when a
    user has two [Score600] rows of the tag: [to_sql] appends into a table
    whose [user_id] is the primary key, and raises [IntegrityError]. *)
Theorem seed_integrity scores db t e :
  (PGSetup.create_tag (user_query 120 scores) db t).2 = Some e <->
  e = IntegrityError /\ ~ NoDup (owner_user_id <$> filter (fun s => sc_tag s = t) scores).
Proof.
  unfold PGSetup.create_tag. rewrite <- (user_query_ids 120).
  destruct (to_sql_append ∅ (user_query 120 scores t)) as [tbl|e'] eqn:E; simpl.
  - split; [discriminate|]. intros [-> Hn]. exfalso. apply Hn. by apply to_sql_append_ok in E as [? _].
  - apply to_sql_append_raise in E as [-> Hn].
    split; [intros [= <-]|intros [-> _]; done]. split; [done|]. intros Hnd. apply Hn.
    split; [done|]. apply Forall_forall. intros id _. apply lookup_empty.
Qed.

(** C23: Every seeded PageRank table holds the seed feed: after
    [create_table] on the [TAGS] DataFrame completes, the table of a tag
    has a row for [u] exactly when [Score600] has a row of [u] for the
    tag, with judge date [creation_date + 120] and score [0] (provided no
    other tag escapes to the same name). *)
Theorem seeded_pg_rows scores db db' t u r :
  PGSetup.create_table (user_query 120 scores) (tags_query scores) db = (db', None) ->
  t ∈ tag_column (tags_query scores) ->
  (forall t', t' ∈ tag_column (tags_query scores) -> Tags.tra_escape t' = Tags.tra_escape t -> t' = t) ->
  exists tbl, PGSetup.tables db' !! Tags.tra_escape t = Some tbl /\
    (tbl !! u = Some r <->
     exists s, s ∈ scores /\ sc_tag s = t /\ owner_user_id s = u /\
               r = PGRunner.mk_row (sc_creation_date s + 120) 0).
Proof.
  intros H Ht Hinj. apply foldS_ok in H.
  destruct (foldM_ok_elem _ _ _ _ _ H Ht) as (db0 & db1 & (tbl & Ea & _)%PGSetup.create_tag_ok).
  apply to_sql_append_ok in Ea as [Hnd _].
  exists (list_to_map (user_query 120 scores t)). split.
  - by apply (PGSetup.create_tags_table _ _ _ _ _ H); [left|].
  - by rewrite <- elem_of_list_to_map, elem_of_user_query by done.
Qed.

(** C9: Seeding prevents [KeyError]: when [create_table]'s loop body of
    [tsrunner.py] has seeded, from the [USER] query, the tables of every
    tag a window's questions carry, the window's question loop raises no
    [KeyError]: every answerer has a row before a game references it. *)
Theorem seeded_window_no_key_error `{Rating.Engine} qrs scores tags db0 db ds de k :
  foldS (TSSetup.create_tag (ts_user_query 120 qrs scores)) tags db0 = (db, None) ->
  (forall q, q ∈ Feed.ques_query qrs ds de -> TSRunner.q_tag q ∈ tags) ->
  foldM TSRunner.process_row (Feed.ques_query qrs ds de) (TSSetup.tables db) <> Raise (KeyError k).
Proof.
  intros Hc%foldS_ok Htags He.
  refine (foldM_raise_inv
            (fun d => forall q, q ∈ Feed.ques_query qrs ds de -> forall id, id ∈ TSRunner.rank_id q ->
                        TSRunner.has_row d (Tags.tra_escape (TSRunner.q_tag q)) id)
            (fun e => e <> KeyError k) _ _ _ _ _ _ _ He eq_refl).
  - intros a b a' _ Ha Hp q Hq id Hid. eapply TSRunner.process_row_has_row; [exact Hp|by apply Ha].
  - intros a b e Hb Ha Hp ->. exact (TSRunner.process_row_no_key_error a b k (Ha b Hb) Hp).
  - intros q Hq id Hid. destruct (ques_query_source _ _ _ _ Hq) as (qr & Hqr & Htag & Hrk).
    apply (ts_create_tags_has_row (ts_user_query 120 qrs scores) tags db0); [done|by apply Htags|].
    apply (ts_user_query_answerer _ _ _ _ qr); [done|done|by rewrite <- Hrk].
Qed.

(** ** Witnesses *)

(** Users 1 and 2 observed under [c#], user 1 also under [java]. *)
Definition scores_example : list score_row :=
  [mk_score_row 1 733000 "c#"; mk_score_row 2 733010 "c#"; mk_score_row 1 733020 "java"]%string.

Lemma seeded_pg_rows_witness :
  exists db', PGSetup.create_table (user_query 120 scores_example) (tags_query scores_example)
                (PGSetup.mk_prdb ∅ ∅) = (db', None) /\
    exists tbl, PGSetup.tables db' !! Tags.tra_escape "c#" = Some tbl /\
      (tbl !! 1 = Some (PGRunner.mk_row 733120 0) <->
       exists s, s ∈ scores_example /\ sc_tag s = "c#"%string /\ owner_user_id s = 1 /\
                 PGRunner.mk_row 733120 0 = PGRunner.mk_row (sc_creation_date s + 120) 0).
Proof.
  set (C := PGSetup.create_table (user_query 120 scores_example) (tags_query scores_example)
              (PGSetup.mk_prdb ∅ ∅)).
  assert (HC : C = (C.1, None)) by (vm_compute; reflexivity).
  exists C.1. split; [exact HC|]. apply (seeded_pg_rows _ _ _ _ _ _ HC).
  - apply list_elem_of_here.
  - intros t' Ht'. vm_compute in Ht'. elem_cases Ht'; [done|]. vm_compute. discriminate.
Defined.

#[local] Existing Instance Rating.sample_engine.

(** A question of [c#] in the first week, answered by users 1 and 2. *)
Definition qrs_example : list Feed.qrow :=
  [Feed.mk_qrow (Window.day_s 0) ["c#"%string] [1; 2] [1; 2] 3 (Some 1)].

Lemma seeded_window_no_key_error_witness :
  exists db, foldS (TSSetup.create_tag (ts_user_query 120 qrs_example scores_example)) ["c#"%string]
               (TSSetup.mk_tsdb ∅ ∅) = (db, None) /\
    (forall q, q ∈ Feed.ques_query qrs_example (Window.day_s 0) (Window.day_e 0) ->
               TSRunner.q_tag q ∈ ["c#"%string]) /\
    foldM TSRunner.process_row (Feed.ques_query qrs_example (Window.day_s 0) (Window.day_e 0))
      (TSSetup.tables db) <> Raise (KeyError 1).
Proof.
  set (F := foldS (TSSetup.create_tag (ts_user_query 120 qrs_example scores_example)) ["c#"%string]
              (TSSetup.mk_tsdb ∅ ∅)).
  set (db := F.1).
  assert (HF : F = (db, None)) by (vm_compute; reflexivity).
  assert (Ht : forall q, q ∈ Feed.ques_query qrs_example (Window.day_s 0) (Window.day_e 0) ->
                         TSRunner.q_tag q ∈ ["c#"%string]).
  { intros q Hq. vm_compute in Hq. elem_cases Hq. apply list_elem_of_here. }
  exists db. split; [exact HF|]. split; [exact Ht|].
  exact (seeded_window_no_key_error qrs_example scores_example ["c#"%string] _ db _ _ 1 HF Ht).
Defined.

End Seed.
