(* ===== verification/PRRunner.v ===== *)
(** * The single-tag PageRank runner ([pagerank.py], class [PRRunner])

    [pagerank.py] is the earlier, one-tag-per-object version of
    [pgrunner.py]: a [PRRunner] is built for one table name ([self.tag],
    already escaped, e.g. [c_sharp]); it keeps its graph in [self.graph]
    and its warm start in [self.pager]; [create_table] seeds the table of
    [self.tag] from the [USER] query of the unescaped tag; [run] walks the
    weekly windows like [PGRunner.run], asking the feed for the unescaped
    tag ([tra(self.tag)], e.g. [c#]).  The script's main loop builds a
    fresh object per tag of [TAGS] and calls [create_table] and [run].
    The index [idx_tag] is dropped and recreated by every [create_table]
    and never read: it is not modelled.

    The [USER] and [QUES] queries are the text of [pgrunner.py]'s, here
    with the script's own definitions; [__del__] closes the connection
    without a commit, so a [run] that raises loses all its windows.

    The main theorem is a refinement: the script leaves on disk, tag after
    tag, what the loop body of [PGRunner.create_table] followed by
    [PGRunner.run] with an empty warm start leaves for the unescaped tag,
    as soon as escaping the unescaped name gives the name back (true of
    every name of [TAGS]).  From it and the [USER] query, [script_rows]
    says what the tables hold when the script completes: a row per user of
    [Score600] under the tag, with the seeded judge date and the snapshot
    of the window of that date. *)

From S2P Require Import Prelude Window Tags DiGraph PageRank PGRunner Feed Setup Seed.
From Stdlib Require Import String.

Module PRRunner.
Local Open Scope Q_scope.
Local Open Scope s2p_scope.

(** [TAGS], [pagerank.py:14-15]. *)
Definition TAGS : list string :=
  ["javascript"; "java"; "python"; "c_sharp"; "php"; "android"; "jquery"; "c_plus"; "css"; "html"]%string.

(** [USER], [pagerank.py:18-24], with [{period}] and [{tag}]: the rows of
    [Score600] of the tag, with the judge date [creation_date + period]
    and the score [0.0]. *)
Definition USER (period : Z) (scores : list Seed.score_row) (tag : string) : list (Z * PGRunner.row) :=
  (fun s => (Seed.owner_user_id s, PGRunner.mk_row (Seed.sc_creation_date s + period)%Z 0)) <$>
    filter (fun s => Seed.sc_tag s = tag) scores.

(** [QUES], [pagerank.py:27-36], with [{tag}], [{days}] and [{daye}]: the
    pairs [(src, tar)] of answerers of a selected question where [tar]
    ranks better, counted per pair; [rank[OFFSET(i)]] past the end of
    [rank] fails the query. *)
Definition QUES (rows : list Feed.qrow) (tag : string) (days daye : Z) : result (list (Z * Z * Z)) :=
  let sel := Feed.selected rows tag days daye in
  if existsb Feed.short_rank sel then Raise QueryError
  else Ok (Feed.edge_rows (Feed.group_count (sel ≫= Feed.beats))).

(** The object: [self.graph], [self.pager], [self.tag] and the committed
    tables of [self.prdb]. *)
Record prrunner := mk_prrunner {
  graph : DiGraph.t; pager : gmap Z Q; tag : string; prdb : gmap string PGRunner.table
}.

(** [__init__], [pagerank.py:45-55]. *)
Definition init (tag : string) (db : gmap string PGRunner.table) : prrunner :=
  mk_prrunner DiGraph.empty ∅ tag db.

(** [self._pager(uid)], [pagerank.py:62-66]: the score of [uid] in
    [self.pager], [0.0] when it has none. *)
Definition _pager (r : prrunner) (uid : Z) : Q :=
  match pager r !! uid with Some v => v | None => 0 end.

(** Lines 103-114: the edge loop on [self.graph], then PageRank
    warm-started from [self.pager]. *)
Definition ingest_window (edges : list (Z * Z * Z)) (r : prrunner) : result prrunner :=
  let g := DiGraph.ingest (graph r) edges in
  start <- PGRunner.pr_start g (pager r) ;;
  Ok (mk_prrunner g (match PageRank.pagerank_scipy g 200 start with
                     | Some x => x
                     | None => pager r
                     end) (tag r) (prdb r)).

(** Lines 116-123: [num = self.graph.number_of_nodes()], and the
    [UPDATE] of the users judged in the window. *)
Definition snapshot (r : prrunner) (ds de : Z) (tbl : PGRunner.table) : PGRunner.table :=
  let num := inject_Z (Z.of_nat (DiGraph.number_of_nodes (graph r))) in
  PGRunner.set_pagerank tbl
    (map (fun id => (_pager r id * num, id)) (PGRunner.judge_user tbl ds de)).

(** The loop body, lines 97-124; the table is the uncommitted state of
    [self.tag]. *)
Definition window (feed : Z -> Z -> list (Z * Z * Z)) (st : prrunner * PGRunner.table) (ind : nat)
    : result (prrunner * PGRunner.table) :=
  let '(r, tbl) := st in
  let ds := Window.day_s ind in
  let de := Window.day_e ind in
  r' <- ingest_window (feed ds de) r ;;
  Ok (r', snapshot r' ds de tbl).

(** [run()], lines 91-127; [feeds t] is the [QUES] query of tag [t].  The
    commit follows the loop; [__del__] only closes the connection. *)
Definition run (today : Z) (feeds : string -> Z -> Z -> list (Z * Z * Z)) (r : prrunner)
    : result prrunner :=
  let feed := feeds (Tags.tra_unescape (tag r)) in
  match Window.count today with
  | O => Ok r
  | n =>
      match prdb r !! tag r with
      | None =>
          _ <- ingest_window (feed (Window.day_s 0) (Window.day_e 0)) r ;;
          Raise OperationalError
      | Some tbl =>
          st <- foldM (window feed) (seq 0 n) (r, tbl) ;;
          Ok (mk_prrunner (graph st.1) (pager st.1) (tag st.1) (<[tag r := st.2]> (prdb r)))
      end
  end.

(** [create_table()], lines 73-88, for [self.tag]: [CREATE TABLE IF NOT
    EXISTS] commits at once; [DELETE] and [DROP INDEX IF EXISTS] join the
    transaction that [to_sql] commits with the rows of the [USER] query of
    [tra(self.tag)], or rolls back when it raises; [CREATE INDEX] on the
    dropped index and [commit] follow.  [users u] is the [USER] query of
    the unescaped tag [u]. *)
Definition create_table (users : string -> list (Z * PGRunner.row)) (r : prrunner) : prrunner * option exn :=
  match to_sql_append ∅ (users (Tags.tra_unescape (tag r))) with
  | Ok tbl => (mk_prrunner (graph r) (pager r) (tag r) (<[tag r := tbl]> (prdb r)), None)
  | Raise e =>
      (mk_prrunner (graph r) (pager r) (tag r) (<[tag r := default ∅ (prdb r !! tag r)]> (prdb r)), Some e)
  end.

(** [__del__], lines 58-59: the connection is closed without a commit;
    what stays on disk is what was committed. *)
Definition __del__ (r : prrunner) : gmap string PGRunner.table := prdb r.

(** The body of the main loop, lines 131-135, for the table name [t]: a
    fresh object, [create_table()] and [run()]; [del PRR] closes the
    connection without a commit, so a raise of [run] loses its windows and
    leaves what [create_table] committed. *)
Definition main_tag (today : Z) (users : string -> list (Z * PGRunner.row))
    (feeds : string -> Z -> Z -> list (Z * Z * Z)) (db : gmap string PGRunner.table) (t : string)
    : gmap string PGRunner.table * option exn :=
  match create_table users (init t db) with
  | (r1, None) =>
      match run today feeds r1 with
      | Ok r2 => (__del__ r2, None)
      | Raise e => (__del__ r1, Some e)
      end
  | (r1, Some e) => (__del__ r1, Some e)
  end.

(** The main loop, lines 130-135: a raise ends the script with what was
    committed, the tables of the tags before and what [create_table] of
    the tag committed. *)
Definition main (today : Z) (users : string -> list (Z * PGRunner.row))
    (feeds : string -> Z -> Z -> list (Z * Z * Z)) (tags : list string)
    (db : gmap string PGRunner.table) : gmap string PGRunner.table * option exn :=
  foldS (main_tag today users feeds) tags db.

(** ** Refinement of [PGRunner.run] *)

Definition to_engine (r : prrunner) : PGRunner.engine := PGRunner.mk_engine (graph r) (pager r).

Lemma ingest_window_engine edges r :
  ingest_window edges r =
  (e <- PGRunner.update_engine edges (to_engine r) ;;
   Ok (mk_prrunner (PGRunner.graph e) (PGRunner.pager e) (tag r) (prdb r))).
Proof. unfold ingest_window, PGRunner.update_engine. simpl. by destruct (PGRunner.pr_start _ _). Qed.

Lemma window_fold_engine feed l r tbl :
  foldM (window feed) l (r, tbl) =
  (st <- foldM (PGRunner.window feed) l (to_engine r, tbl) ;;
   Ok (mk_prrunner (PGRunner.graph st.1) (PGRunner.pager st.1) (tag r) (prdb r), st.2)).
Proof.
  revert r tbl. induction l as [|i l IH]; intros r tbl; [by destruct r|]. cbn [foldM].
  unfold window at 1, PGRunner.window at 1. cbv beta iota zeta.
  rewrite ingest_window_engine. destruct (PGRunner.update_engine _ _) as [e|]; cbn [bind]; [|done].
  rewrite IH. unfold to_engine. simpl. by destruct e.
Qed.

(** On an object whose graph is empty (a fresh one), [PRRunner.run]
    raises what [PGRunner.run] raises for the unescaped tag with the same
    warm start and store, and otherwise ends with the same [pager] and the
    same committed store, provided escaping the unescaped table name gives
    it back. *)
Lemma run_refines today feeds r :
  graph r = DiGraph.empty -> Tags.tra_escape (Tags.tra_unescape (tag r)) = tag r ->
  (r' <- run today feeds r ;; Ok (PGRunner.mk_runner (pager r') (prdb r'))) =
  PGRunner.run today (feeds (Tags.tra_unescape (tag r))) (PGRunner.mk_runner (pager r) (prdb r))
    (Tags.tra_unescape (tag r)).
Proof.
  intros Hg Ht. unfold run, PGRunner.run. cbn [PGRunner.r_db PGRunner.r_pager]. rewrite Ht.
  destruct (Window.count today) as [|n]; [by destruct r|].
  destruct (prdb r !! tag r) as [tbl|].
  - rewrite window_fold_engine. unfold to_engine. rewrite Hg.
    by destruct (foldM _ _ _) as [[e tbl']|].
  - rewrite ingest_window_engine. unfold to_engine. rewrite Hg.
    by destruct (PGRunner.update_engine _ _).
Qed.

(** Every name of [TAGS] is given back by escaping its unescaped form. *)
Lemma TAGS_escape_unescape : Forall (fun t => Tags.tra_escape (Tags.tra_unescape t) = t) TAGS.
Proof. repeat constructor; vm_compute; reflexivity. Qed.


(** [create_table] of [pagerank.py] on a fresh object does what the loop
    body of [PGRunner.create_table] does for the unescaped tag. *)
Lemma create_table_refines users t db :
  Tags.tra_escape (Tags.tra_unescape t) = t ->
  create_table users (init t db) =
  (mk_prrunner DiGraph.empty ∅ t
     (PGSetup.tables (PGSetup.create_tag users (PGSetup.mk_prdb db ∅) (Tags.tra_unescape t)).1),
   (PGSetup.create_tag users (PGSetup.mk_prdb db ∅) (Tags.tra_unescape t)).2).
Proof.
  intros Ht. unfold create_table, PGSetup.create_tag. cbn [init tag prdb graph pager PGSetup.tables].
  rewrite Ht. by destruct (to_sql_append ∅ _).
Qed.

(** C21: [pagerank.py] refines [pgrunner.py] without its cross-tag
    warm start.  The script's main loop over table names that escaping
    gives back leaves on disk, tag after tag, what the loop body of
    [PGRunner.create_table] followed by [PGRunner.run] on an object with an
    empty [self.pager] leaves for the unescaped tag, and stops with the
    same exception. *)
Theorem main_refines today users feeds tags db :
  Forall (fun t => Tags.tra_escape (Tags.tra_unescape t) = t) tags ->
  main today users feeds tags db =
  foldS (fun db t =>
           match PGSetup.create_tag users (PGSetup.mk_prdb db ∅) (Tags.tra_unescape t) with
           | (p1, None) =>
               match PGRunner.run today (feeds (Tags.tra_unescape t))
                       (PGRunner.mk_runner ∅ (PGSetup.tables p1)) (Tags.tra_unescape t) with
               | Ok r' => (PGRunner.r_db r', None)
               | Raise e => (PGSetup.tables p1, Some e)
               end
           | (p1, Some e) => (PGSetup.tables p1, Some e)
           end) tags db.
Proof.
  intros Hall. unfold main. revert db. induction Hall as [|t tags Ht _ IH]; intros db; [done|].
  cbn [foldS]. unfold main_tag at 1, __del__. rewrite (create_table_refines users t db Ht).
  destruct (PGSetup.create_tag users (PGSetup.mk_prdb db ∅) (Tags.tra_unescape t)) as [p1 [e|]];
    cbn [fst snd prdb]; [done|].
  pose proof (run_refines today feeds (mk_prrunner DiGraph.empty ∅ t (PGSetup.tables p1)) eq_refl Ht) as Hr.
  cbn [tag pager prdb] in Hr. rewrite <- Hr.
  destruct (run today feeds _) as [r2|e]; cbn [bind PGRunner.r_db]; [apply IH|done].
Qed.

(** ** The tables the script leaves *)

(** [run] writes only the table of [self.tag]. *)
Lemma run_prdb_other today feeds r r' k :
  run today feeds r = Ok r' -> k <> tag r -> prdb r' !! k = prdb r !! k.
Proof.
  unfold run. destruct (Window.count today) as [|n]; [by intros [= <-]|].
  destruct (prdb r !! tag r) as [tbl|].
  - intros (st & _ & [= <-])%bind_Ok Hk. cbn [prdb]. by rewrite lookup_insert_ne by congruence.
  - intros (? & _ & ?)%bind_Ok. discriminate.
Qed.

(** The loop body at [t] writes only the table [t]. *)
Lemma main_tag_other today users feeds db t db' :
  stepM (main_tag today users feeds) db t = Ok db' -> forall k, k <> t -> db' !! k = db !! k.
Proof.
  unfold stepM, main_tag, create_table, __del__. cbn [init tag graph pager prdb].
  destruct (to_sql_append ∅ _) as [tbl|e]; cbv iota; [|discriminate].
  destruct (run today feeds _) as [r2|e] eqn:Er; [|discriminate]. intros [= <-] k Hk.
  rewrite (run_prdb_other _ _ _ _ _ Er) by done. cbn [prdb]. by rewrite lookup_insert_ne by congruence.
Qed.

(** What the loop body leaves in the table [t]: the seeded rows, each
    with its judge date, and the snapshot score of the window of its judge
    date when a processed window contains it. *)
Definition script_table today (users : string -> list (Z * PGRunner.row))
    (feeds : string -> Z -> Z -> list (Z * Z * Z)) (t : string) (o : option PGRunner.table) : Prop :=
  exists tbl0 tbl, to_sql_append ∅ (users (Tags.tra_unescape t)) = Ok tbl0 /\ o = Some tbl /\
    forall id, tbl !! id =
      (fun row => if Window.covered today (PGRunner.judge_date row)
                  then PGRunner.mk_row (PGRunner.judge_date row)
                         (PGRunner.score (feeds (Tags.tra_unescape t)) ∅
                            (Window.window_of (PGRunner.judge_date row)) id)
                  else row) <$> tbl0 !! id.

Lemma main_tag_table today users feeds db t db' :
  Tags.tra_escape (Tags.tra_unescape t) = t ->
  stepM (main_tag today users feeds) db t = Ok db' -> script_table today users feeds t (db' !! t).
Proof.
  intros Ht. unfold stepM, main_tag, create_table. cbn [init tag graph pager prdb].
  destruct (to_sql_append ∅ _) as [tbl0|e] eqn:Ea; cbv iota; [|discriminate].
  destruct (run today feeds _) as [r2|e] eqn:Er; [|discriminate]. intros [= <-].
  pose proof (run_refines today feeds (mk_prrunner DiGraph.empty ∅ t (<[t := tbl0]> db)) eq_refl Ht) as Hr.
  rewrite Er in Hr. cbn [bind tag pager prdb] in Hr. symmetry in Hr.
  destruct (PGRunner.run_table _ _ _ _ _ tbl0 Hr) as (tbl & H1 & H2).
  { cbn [PGRunner.r_db]. by rewrite Ht, lookup_insert_eq. }
  exists tbl0, tbl. rewrite Ht in H1. by split_and!.
Qed.

(** C31: The tables of the [pagerank.py] script.  When its main loop over
    [TAGS] completes on the [USER] query of [Score600], the table of a
    name [t] of [TAGS] has a row exactly for the users [Score600] observes
    under the unescaped tag [tra(t)]; the row keeps the judge date
    [creation_date + 120] of the seeding and holds the snapshot score of
    the window of that date, from a fresh warm start, or [0.0] when no
    processed window contains it. *)
Theorem script_rows today scores feeds db db' t id row :
  main today (USER 120 scores) feeds TAGS db = (db', None) -> t ∈ TAGS ->
  (exists tbl, db' !! t = Some tbl /\ tbl !! id = Some row) <->
  exists s, s ∈ scores /\ Seed.sc_tag s = Tags.tra_unescape t /\ Seed.owner_user_id s = id /\
    let jd := (Seed.sc_creation_date s + 120)%Z in
    row = if Window.covered today jd
          then PGRunner.mk_row jd (PGRunner.score (feeds (Tags.tra_unescape t)) ∅ (Window.window_of jd) id)
          else PGRunner.mk_row jd 0.
Proof.
  intros Hm%foldS_ok Ht.
  assert (He : Tags.tra_escape (Tags.tra_unescape t) = t).
  { exact (proj1 (Forall_forall _ TAGS) TAGS_escape_unescape t Ht). }
  destruct (foldM_local _ (main_tag_other today (USER 120 scores) feeds)
              (script_table today (USER 120 scores) feeds t) TAGS db db' t)
    as (tbl0 & tbl & Ea & Hl & Hid); [|decide_concrete|exact Hm|exact Ht|].
  { intros m0 m1 E. exact (main_tag_table _ _ _ _ _ _ He E). }
  rewrite Hl. apply to_sql_append_ok in Ea as (Hnd & _ & ->).
  change (USER 120 scores) with (Seed.user_query 120 scores) in *.
  setoid_rewrite (right_id_L ∅ union) in Hid. split.
  - intros (? & [= <-] & Hr). rewrite Hid in Hr.
    destruct (list_to_map _ !! id) as [r0|] eqn:E0; [|discriminate]. injection Hr as <-.
    apply elem_of_list_to_map in E0; [|done]. apply Seed.elem_of_user_query in E0 as (s & Hs & Hst & Hid' & ->).
    exists s. done.
  - intros (s & Hs & Hst & <- & ->). eexists. split; [done|]. rewrite Hid.
    rewrite (proj1 (elem_of_list_to_map _ _ (PGRunner.mk_row (Seed.sc_creation_date s + 120) 0) Hnd)); [done|].
    apply Seed.elem_of_user_query. by exists s.
Qed.

(** ** Witnesses *)

Definition db_example : gmap string PGRunner.table := {[ "c_sharp"%string := PGRunner.table_example ]}.

Lemma main_refines_witness :
  Forall (fun t => Tags.tra_escape (Tags.tra_unescape t) = t) TAGS /\
  main PGRunner.today_example PGSetup.users_example (fun _ => PGRunner.feed_example) TAGS db_example =
  foldS (fun db t =>
           match PGSetup.create_tag PGSetup.users_example (PGSetup.mk_prdb db ∅) (Tags.tra_unescape t) with
           | (p1, None) =>
               match PGRunner.run PGRunner.today_example PGRunner.feed_example
                       (PGRunner.mk_runner ∅ (PGSetup.tables p1)) (Tags.tra_unescape t) with
               | Ok r' => (PGRunner.r_db r', None)
               | Raise e => (PGSetup.tables p1, Some e)
               end
           | (p1, Some e) => (PGSetup.tables p1, Some e)
           end) TAGS db_example.
Proof.
  split; [exact TAGS_escape_unescape|].
  exact (main_refines PGRunner.today_example PGSetup.users_example (fun _ => PGRunner.feed_example)
           TAGS db_example TAGS_escape_unescape).
Defined.
(** Users 1 and 3 observed under [c#], judged in weeks 0 and 1. *)
Definition scores_example : list Seed.score_row :=
  [Seed.mk_score_row 1 (Window.day_s 0 + 3 - 120) "c#"; Seed.mk_score_row 3 (Window.day_s 1 + 6 - 120) "c#"]%Z.

Lemma script_rows_witness :
  exists db', main PGRunner.today_example (USER 120 scores_example) (fun _ => PGRunner.feed_example) TAGS ∅
              = (db', None) /\
    ((exists tbl, db' !! "c_sharp"%string = Some tbl /\
       tbl !! 1%Z = Some (PGRunner.mk_row (Window.day_s 0 + 3) (PGRunner.score PGRunner.feed_example ∅ 0 1))) <->
     exists s, s ∈ scores_example /\ Seed.sc_tag s = Tags.tra_unescape "c_sharp" /\ Seed.owner_user_id s = 1%Z /\
       let jd := (Seed.sc_creation_date s + 120)%Z in
       PGRunner.mk_row (Window.day_s 0 + 3) (PGRunner.score PGRunner.feed_example ∅ 0 1) =
         if Window.covered PGRunner.today_example jd
         then PGRunner.mk_row jd (PGRunner.score ((fun _ => PGRunner.feed_example) (Tags.tra_unescape "c_sharp")) ∅
                                   (Window.window_of jd) 1)
         else PGRunner.mk_row jd 0).
Proof.
  set (M := main PGRunner.today_example (USER 120 scores_example) (fun _ => PGRunner.feed_example) TAGS ∅).
  assert (HM : M = (M.1, None)) by (vm_compute; reflexivity).
  exists M.1. split; [exact HM|].
  exact (script_rows _ _ _ _ _ "c_sharp" 1 _ HM ltac:(decide_concrete)).
Defined.

End PRRunner.
