(* ===== verification/Dataset.v ===== *)
(** * The dataset generator ([dataset.py], class [DatasetGenerator])

    [dataset_gen] builds one table per tag of [self.tags] in
    [Data/StackExpert.sqlite]: the feature rows of the BigQuery script
    [Script/Dataset.sql], indexed by user id, left-joined with the
    [pagerank] column of the tag's table in [Data/PageRank.sqlite] and
    with the [ts] column of the rows with a judge date in the tag's table
    of [Data/TrueSkill.sqlite]; missing values become [0.0]
    ([fillna]); the table is created by [CREATE TABLE] (without
    [IF NOT EXISTS]) and filled by [to_sql].  [__del__] commits.

    A DataFrame indexed by id is a finite map from id to the list of its
    other columns, [None] standing for a missing value (NaN).  The feature
    query's result is an input ([Script/Dataset.sql] is not in the
    repository); [preprocessing], which submits the BigQuery scripts
    [Script/Score.sql] and [Script/Rank.sql], is modelled by the jobs it
    submits, in order, with their date arguments, and a theorem relates
    these to the runners' windows.  The main block dispatches on the mode
    read by [input()].  A completed [dataset_gen] cannot be run again: the
    second run raises at its first tag.  An end-to-end
    theorem composes [PGRunner.run], [TrueSkillRunner.run] and the loop
    body of [dataset_gen]: a dataset row carries the two snapshots. *)

From S2P Require Import Prelude Window Tags Rating PGRunner TSRunner.
From Stdlib Require Import String.

Module Dataset.
Local Open Scope Q_scope.
Local Open Scope s2p_scope.

(** The columns of [TABLE] after [id], [dataset.py:28-67]. *)
Definition TABLE_columns : list string :=
  ["EXPERT_SCORE"; "CNT_A"; "AVG_A_SCORE"; "MAX_A_SCORE"; "SUM_A_SCORE"; "MED_A_SCORE";
   "AVG_A_SPAN"; "MAX_A_SPAN"; "SUM_A_SPAN"; "MED_A_SPAN"; "CNT_T"; "SUM_T_SCORE";
   "MAX_T_SCORE"; "SUM_T_SPAN"; "MAX_T_SPAN"; "AVG_A_ENTRO"; "MAX_A_ENTRO"; "SUM_A_ENTRO";
   "MED_A_ENTRO"; "AVG_A_CNT"; "MAX_A_CNT"; "SUM_A_CNT"; "MED_A_CNT"; "AVG_A_LEN";
   "MAX_A_LEN"; "SUM_A_LEN"; "MED_A_LEN"; "CNT_Q"; "SUM_Q_SPAN"; "MAX_Q_SPAN"; "CNT_C";
   "SUM_C_SPAN"; "MAX_C_SPAN"; "VAL_U_PGR"; "VAL_U_TRS"]%string.

(** [self.tags], [dataset.py:83-84]. *)
Definition tags : list string :=
  ["css"; "javascript"; "java"; "python"; "c_sharp"; "php"; "android"; "c_plus"; "html"; "jquery"]%string.

(** A DataFrame indexed by [id]: the other columns of each row. *)
Abbreviation frame := (gmap Z (list (option Q))).

(** [read_sql_query(SQQUERY_PGR.format(tag), pgr, index_col='id')],
    [dataset.py:15-19]: a missing table raises. *)
Definition read_pgr (pgr : gmap string PGRunner.table) (tag : string) : result (gmap Z Q) :=
  match pgr !! tag with
  | Some tbl => Ok (PGRunner.pagerank <$> tbl)
  | None => Raise DatabaseError
  end.

(** [read_sql_query(SQQUERY_TS.format(tag), trs, index_col='id')],
    [dataset.py:21-26]: the rows with a judge date. *)
Definition read_trs (trs : TSRunner.store) (tag : string) : result (gmap Z Q) :=
  match trs !! tag with
  | Some tbl => Ok (TSRunner.ts <$> filter (fun '(_, r) => is_Some (TSRunner.judge_date r)) tbl)
  | None => Raise DatabaseError
  end.

(** [features.join(col)]: a left join on the index; the joined column is
    appended, NaN where the id has no value. *)
Definition join (f : frame) (col : gmap Z Q) : frame :=
  map_imap (fun id cols => Some (cols ++ [col !! id])) f.

(** [features.fillna(0.0)] *)
Definition fillna (f : frame) : gmap Z (list Q) := fmap (map (default 0)) f.

(** The loop body of [dataset_gen], [dataset.py:118-130]; [features tag]
    is the result of [Script/Dataset.sql] for the tag. *)
Definition gen_tag (features : string -> frame) (pgr : gmap string PGRunner.table)
    (trs : TSRunner.store) (data : gmap string (gmap Z (list Q))) (tag : string)
    : result (gmap string (gmap Z (list Q))) :=
  p <- read_pgr pgr tag ;;
  t <- read_trs trs tag ;;
  if bool_decide (is_Some (data !! tag)) then Raise OperationalError
  else Ok (<[tag := fillna (join (join (features tag) p) t)]> data).

(** [dataset_gen], [dataset.py:112-130]: the tables of the tags before a
    raise stay, as [__del__] commits. *)
Definition dataset_gen (features : string -> frame) (pgr : gmap string PGRunner.table)
    (trs : TSRunner.store) (data : gmap string (gmap Z (list Q))) : gmap string (gmap Z (list Q)) * option exn :=
  foldP (gen_tag features pgr trs) tags data.

(** The arguments of the scripts of [preprocessing], [dataset.py:98-100]:
    [period = 120], [udate = today - 630 days] and
    [adate = today - (630 - period) days], as day ordinals. *)
Record prep_args := mk_prep_args { period : Z; udate : Z; adate : Z }.

Definition preprocessing_args (today : Z) : prep_args :=
  mk_prep_args 120 (today - 630) (today - (630 - 120)).

(** [preprocessing], [dataset.py:96-109]: [read_gbq] of the script
    [Script/Score.sql], then of [Script/Rank.sql], both formatted with
    [arg]; [read_gbq] waits for its job and raises when the job fails, so a
    failing first job skips the second.  [read_gbq f a] is the outcome of
    the job of the script [f] with the arguments [a]; the result is the
    list of the jobs that completed, in order. *)
Definition preprocessing (read_gbq : string -> prep_args -> option exn) (today : Z)
    : list (string * prep_args) * option exn :=
  let arg := preprocessing_args today in
  foldS (fun jobs f => match read_gbq f arg with
                       | None => (jobs ++ [(f, arg)], None)
                       | Some e => (jobs, Some e)
                       end) ["Script/Score.sql"; "Script/Rank.sql"]%string [].

(** The modes of the main block, [dataset.py:135-143]. *)
Inductive mode := Preprocess | Generate | NoMode.

(** [OPT == '1'] and [OPT == '2'] compare the whole line [input()] read. *)
Definition main_mode (opt : string) : mode :=
  if String.eqb opt "1" then Preprocess else if String.eqb opt "2" then Generate else NoMode.

(** The main block: the BigQuery jobs of [preprocessing] and the tables of
    [Data/StackExpert.sqlite]; [preprocessing] writes only BigQuery
    tables, [dataset_gen] only the dataset. *)
Definition main (opt : string) (read_gbq : string -> prep_args -> option exn) (today : Z)
    (features : string -> frame) (pgr : gmap string PGRunner.table) (trs : TSRunner.store)
    (data : gmap string (gmap Z (list Q))) : list (string * prep_args) * gmap string (gmap Z (list Q)) * option exn :=
  match main_mode opt with
  | Preprocess => let '(jobs, oe) := preprocessing read_gbq today in (jobs, data, oe)
  | Generate => let '(data', oe) := dataset_gen features pgr trs data in ([], data', oe)
  | NoMode => ([], data, None)
  end.

(** ** The rows of a generated table *)

Definition pgr_value (tbl : PGRunner.table) (id : Z) : Q :=
  match tbl !! id with Some r => PGRunner.pagerank r | None => 0 end.

Definition trs_value (tbl : TSRunner.table) (id : Z) : Q :=
  match tbl !! id with
  | Some r => match TSRunner.judge_date r with Some _ => TSRunner.ts r | None => 0 end
  | None => 0
  end.

Lemma join_lookup f col id :
  join f col !! id = (fun cols => cols ++ [col !! id]) <$> f !! id.
Proof. unfold join. rewrite map_lookup_imap. by destruct (f !! id). Qed.

Lemma read_trs_lookup tbl id :
  default 0 ((TSRunner.ts <$> filter (fun '(_, r) => is_Some (TSRunner.judge_date r)) tbl) !! id) =
  trs_value tbl id.
Proof.
  unfold trs_value. rewrite lookup_fmap, map_lookup_filter.
  destruct (tbl !! id) as [r|]; [simpl|done].
  destruct (TSRunner.judge_date r) eqn:Ej.
  - rewrite option_guard_True by eauto. done.
  - rewrite option_guard_False by (by intros []). done.
Qed.

(** C25: a generated row.  When the loop body succeeds for a tag, the
    tag had a PageRank table and a TrueSkill table and no dataset table;
    the new table has a row for every feature row, with its feature
    values (missing ones as [0.0]), then the user's [pagerank] ([0.0]
    without a row) and the user's [ts] ([0.0] without a row or without a
    judge date). *)
Theorem gen_tag_rows features pgr trs data tag data' :
  gen_tag features pgr trs data tag = Ok data' ->
  exists tp tt, pgr !! tag = Some tp /\ trs !! tag = Some tt /\ data !! tag = None /\
    exists out, data' = <[tag := out]> data /\
    forall id, out !! id =
      (fun cols => map (default 0) cols ++ [pgr_value tp id; trs_value tt id]) <$> features tag !! id.
Proof.
  unfold gen_tag, read_pgr, read_trs.
  destruct (pgr !! tag) as [tp|]; cbn [bind]; [|discriminate].
  destruct (trs !! tag) as [tt|]; cbn [bind]; [|discriminate].
  case_bool_decide as Hd; [discriminate|]. intros [= <-].
  exists tp, tt. split_and!; [done|done|by apply eq_None_not_Some|].
  eexists. split; [reflexivity|]. intros id.
  unfold fillna. rewrite lookup_fmap, !join_lookup.
  destruct (features tag !! id) as [cols|]; [simpl|done]. f_equal.
  rewrite !map_app, <- app_assoc. cbn [map app]. rewrite read_trs_lookup.
  unfold pgr_value. rewrite lookup_fmap. by destruct (tp !! id).
Qed.

(** ** Running the generator twice *)

(** A loop body that succeeds had both score tables of its tag, and adds
    the dataset table of its tag to the ones there were. *)
Lemma gen_tag_ok features pgr trs data tag data' :
  gen_tag features pgr trs data tag = Ok data' ->
  is_Some (pgr !! tag) /\ is_Some (trs !! tag) /\ is_Some (data' !! tag) /\
  forall k, is_Some (data !! k) -> is_Some (data' !! k).
Proof.
  unfold gen_tag, read_pgr, read_trs.
  destruct (pgr !! tag); cbn [bind]; [|discriminate].
  destruct (trs !! tag); cbn [bind]; [|discriminate]. intros Hg.
  assert (exists out, data' = <[tag := out]> data) as [out ->]
    by (repeat case_bool_decide; first [discriminate | injection Hg as <-; eauto]).
  split_and!; [eauto|eauto|by rewrite lookup_insert_eq|].
  intros k Hk. destruct (decide (k = tag)) as [->|Hn]; [by rewrite lookup_insert_eq|].
  by rewrite lookup_insert_ne by congruence.
Qed.

(** C32: [dataset_gen] cannot be run twice.  After a run that completes,
    a second run on the same score databases raises [OperationalError] at
    its first tag, [css], whose table exists ([CREATE TABLE] has no
    [IF NOT EXISTS]), and leaves the dataset as it was. *)
Theorem dataset_gen_rerun features features' pgr trs data data' :
  dataset_gen features pgr trs data = (data', None) ->
  dataset_gen features' pgr trs data' = (data', Some OperationalError).
Proof.
  unfold dataset_gen. intros Hd%foldP_ok.
  assert (Htags : tags = "css"%string :: tail tags) by reflexivity.
  rewrite Htags in Hd |- *. cbn [foldM] in Hd.
  destruct (gen_tag features pgr trs data "css") as [d1|] eqn:E1; cbn [bind] in Hd; [|discriminate].
  apply gen_tag_ok in E1 as ([tp Hp] & [tt Ht] & Hc & _).
  assert (Hc' : is_Some (data' !! "css"%string)).
  { refine (foldM_inv (fun d => is_Some (d !! "css"%string)) _ _ _ _ _ Hc Hd).
    intros a b a' Ha Hb. by apply (gen_tag_ok _ _ _ _ _ _ Hb). }
  cbn [foldP]. unfold gen_tag at 1, read_pgr, read_trs. rewrite Hp, Ht. cbn [bind].
  by rewrite bool_decide_eq_true_2.
Qed.

(** ** End to end: the scores a dataset row carries *)

(** The conclusion of [dataset_row_scores]: the row of [id] in the new
    table is its feature values, then [pgv], then [tsv], where [pgv] is
    the PageRank snapshot of the row [prow] and [tsv] the TrueSkill
    snapshot of the row [r0]. *)
Definition row_scores `{Rating.Engine} today pfeed (r : PGRunner.runner) tfeed ttags db (t : string)
    (data' : gmap string (gmap Z (list Q))) (id : Z) (cols : list (option Q))
    (prow : PGRunner.row) (r0 : TSRunner.row) : Prop :=
  exists out pgv tsv, data' !! Tags.tra_escape t = Some out /\
    out !! id = Some (map (default 0) cols ++ [pgv; tsv]) /\
    pgv = (if Window.covered today (PGRunner.judge_date prow)
           then PGRunner.score pfeed (PGRunner.r_pager r) (Window.window_of (PGRunner.judge_date prow)) id
           else PGRunner.pagerank prow) /\
    match TSRunner.judge_date r0 with
    | Some d =>
        if Window.covered today d
        then exists dbw rw, TSRunner.store_after tfeed ttags db (S (Window.window_of d)) = Ok dbw /\
               TSRunner.row_at dbw (Tags.tra_escape t) id = Some rw /\
               tsv = TSRunner.mu_ rw - 3 * TSRunner.sigma_ rw
        else tsv = TSRunner.ts r0
    | None => tsv = 0
    end.

(** C24: End to end.  When [PGRunner.run] and [TrueSkillRunner.run]
    complete for the tag [t] and the loop body of [dataset_gen] then
    builds the table [tra t], the row of a user with a feature row and
    rows in both score tables holds its features, then the PageRank
    snapshot of the window of its judge date (its seeded value when no
    processed window contains it), then the TrueSkill snapshot
    [mu - 3 * sigma] at the end of that window (its old [ts] when not
    covered, [0.0] without a judge date). *)
Theorem dataset_row_scores `{Rating.Engine} today pfeed r t r' tbl prow tfeed ttags db db' r0
    features data data' id cols :
  PGRunner.run today pfeed r t = Ok r' ->
  PGRunner.r_db r !! Tags.tra_escape t = Some tbl -> tbl !! id = Some prow ->
  TSRunner.run today tfeed ttags db = (db', None) -> t ∈ ttags ->
  TSRunner.row_at db (Tags.tra_escape t) id = Some r0 ->
  gen_tag features (PGRunner.r_db r') db' data (Tags.tra_escape t) = Ok data' ->
  features (Tags.tra_escape t) !! id = Some cols ->
  row_scores today pfeed r tfeed ttags db t data' id cols prow r0.
Proof.
  intros Hpg Htbl Hprow Hts Ht Hr0 Hgen Hcols.
  destruct (PGRunner.run_table _ _ _ _ _ _ Hpg Htbl) as (tp & Htp & Hlp).
  apply TSRunner.run_windows_seq in Hts.
  assert (Hn : Tags.tra_escape t ∈ map Tags.tra_escape ttags) by (by apply list_elem_of_fmap_2).
  destruct (TSRunner.store_after_ts _ _ _ _ _ _ _ _ Hn Hts Hr0) as (rt & Hr' & Hj & Hts').
  unfold TSRunner.row_at in Hr'. destruct (db' !! Tags.tra_escape t) as [tt|] eqn:Htt; [|discriminate].
  simpl in Hr'. unfold gen_tag, read_pgr, read_trs in Hgen. rewrite Htp, Htt in Hgen. cbn [bind] in Hgen.
  case_bool_decide; [discriminate|]. injection Hgen as <-.
  eexists _, (pgr_value tp id), (trs_value tt id). split; [apply lookup_insert_eq|]. split_and!.
  - unfold fillna. rewrite lookup_fmap, !join_lookup, Hcols. simpl. f_equal.
    rewrite !map_app, <- app_assoc. cbn [map app]. rewrite read_trs_lookup.
    unfold pgr_value. rewrite lookup_fmap. by destruct (tp !! id).
  - unfold pgr_value. rewrite Hlp, Hprow. simpl. by destruct (Window.covered _ _).
  - unfold trs_value. rewrite Hr', Hj. destruct (TSRunner.judge_date r0) as [d|]; [|done].
    rewrite Window.covered_done_by. by destruct (Window.done_by _ d).
Qed.

(** ** The last window and the preprocessing dates *)

(** C26: The runners' windows stop at most six days before [adate], the
    latest judge date of the users [preprocessing] selects ([udate] plus
    the period), when both run on the same day: of the dates from
    [oriday] to [adate], exactly those after the last window's end are
    never snapshotted, and there are at most six of them. *)
Theorem preprocessing_window_gap today d :
  (0 < Window.count today)%nat -> (Window.oriday <= d <= adate (preprocessing_args today))%Z ->
  (Window.covered today d = false <-> (Window.day_e (Window.count today - 1) < d)%Z) /\
  (adate (preprocessing_args today) - Window.day_e (Window.count today - 1) <= 6)%Z.
Proof.
  unfold Window.covered, Window.count, Window.day_e, Window.cnt, preprocessing_args. cbn [adate].
  intros Hc Hd. set (c := (today - Window.oriday - 629 + 120)%Z) in *.
  assert (Hq : (0 < Z.quot c 7)%Z) by lia.
  assert (Hc0 : (0 <= c)%Z).
  { destruct (Z_le_gt_dec 0 c) as [|Hneg]; [done|]. exfalso.
    rewrite <- (Z.opp_involutive c), Z.quot_opp_l in Hq by lia.
    pose proof (Z.quot_pos (- c) 7 ltac:(lia) ltac:(lia)). lia. }
  rewrite Z.quot_div_nonneg in * by lia.
  rewrite Nat2Z.inj_sub, Z2Nat.id by lia. cbn [Z.of_nat Pos.of_succ_nat].
  pose proof (Z.mod_pos_bound c 7). pose proof (Z.div_mod c 7).
  rewrite andb_false_iff, Z.leb_gt, Z.ltb_ge. lia.
Qed.

(** ** Witnesses *)

(** Users 1 and 2 have feature rows (user 2 with a missing value); user 1
    has a PageRank row and a TrueSkill row with a judge date, user 2 a
    TrueSkill row without one. *)
Definition features_example (tag : string) : frame :=
  {[ 1%Z := [Some 3; Some (1 # 2)]; 2%Z := [None; Some 1] ]}.

Definition pgr_example : gmap string PGRunner.table :=
  {[ "java"%string := {[ 1%Z := PGRunner.mk_row 733300 (3 # 2) ]} ]}.

Definition trs_example : TSRunner.store :=
  {[ "java"%string := {[ 1%Z := TSRunner.mk_row (Some 733300%Z) 7 20 (13 / 3);
                        2%Z := TSRunner.mk_row None 5 25 (25 / 3) ]} ]}.

Lemma gen_tag_rows_witness :
  exists data', gen_tag features_example pgr_example trs_example ∅ "java" = Ok data' /\
  exists tp tt, pgr_example !! "java"%string = Some tp /\ trs_example !! "java"%string = Some tt /\
    (∅ : gmap string (gmap Z (list Q))) !! "java"%string = None /\
    exists out, data' = <["java"%string := out]> ∅ /\
    forall id, out !! id =
      (fun cols => map (default 0) cols ++ [pgr_value tp id; trs_value tt id]) <$> features_example "java" !! id.
Proof.
  assert (H : exists data', gen_tag features_example pgr_example trs_example ∅ "java" = Ok data')
    by (eexists; vm_compute; reflexivity).
  destruct H as [data' H]. exists data'. split; [exact H|].
  exact (gen_tag_rows _ _ _ _ _ _ H).
Defined.

(** A run on ordinal 733780 ([2010-01-04]): two windows, [adate] three
    days after the second one ends; the judge date 733269 is never
    snapshotted. *)
Lemma preprocessing_window_gap_witness :
  (0 < Window.count 733780)%nat /\ (Window.oriday <= 733269 <= adate (preprocessing_args 733780))%Z /\
  (Window.covered 733780 733269 = false <-> (Window.day_e (Window.count 733780 - 1) < 733269)%Z) /\
  (adate (preprocessing_args 733780) - Window.day_e (Window.count 733780 - 1) <= 6)%Z.
Proof.
  assert (H1 : (0 < Window.count 733780)%nat) by (vm_compute; lia).
  assert (H2 : (Window.oriday <= 733269 <= adate (preprocessing_args 733780))%Z) by (vm_compute; split; discriminate).
  split; [exact H1|]. split; [exact H2|]. exact (preprocessing_window_gap 733780 733269 H1 H2).
Defined.

(** Both score databases with an empty table for every tag of
    [self.tags]. *)
Definition pgr_all : gmap string PGRunner.table := list_to_map ((fun t => (t, ∅)) <$> tags).
Definition trs_all : TSRunner.store := list_to_map ((fun t => (t, ∅)) <$> tags).

Lemma dataset_gen_rerun_witness :
  exists data', dataset_gen (fun _ => ∅) pgr_all trs_all ∅ = (data', None) /\
    dataset_gen (fun _ => ∅) pgr_all trs_all data' = (data', Some OperationalError).
Proof.
  set (D := dataset_gen (fun _ => ∅) pgr_all trs_all ∅).
  assert (HD : D = (D.1, None)) by (vm_compute; reflexivity).
  exists D.1. split; [exact HD|]. exact (dataset_gen_rerun _ _ _ _ _ _ HD).
Defined.

#[local] Existing Instance Rating.sample_engine.

(** The PageRank and TrueSkill example runs of [c#] on the same day, then
    the dataset table [c_sharp]: user 1 has rows in both score tables. *)
Lemma dataset_row_scores_witness :
  exists r' db' data' tbl prow r0 cols,
    PGRunner.run PGRunner.today_example PGRunner.feed_example PGRunner.runner_example "c#" = Ok r' /\
    PGRunner.r_db PGRunner.runner_example !! Tags.tra_escape "c#" = Some tbl /\ tbl !! 1%Z = Some prow /\
    TSRunner.run PGRunner.today_example TSRunner.feed_ts_example ["c#"%string] TSRunner.db_example = (db', None) /\
    "c#"%string ∈ ["c#"%string] /\
    TSRunner.row_at TSRunner.db_example (Tags.tra_escape "c#") 1 = Some r0 /\
    gen_tag features_example (PGRunner.r_db r') db' ∅ (Tags.tra_escape "c#") = Ok data' /\
    features_example (Tags.tra_escape "c#") !! 1%Z = Some cols /\
    row_scores PGRunner.today_example PGRunner.feed_example PGRunner.runner_example TSRunner.feed_ts_example
      ["c#"%string] TSRunner.db_example "c#" data' 1 cols prow r0.
Proof.
  set (P := PGRunner.run PGRunner.today_example PGRunner.feed_example PGRunner.runner_example "c#").
  set (r' := match P with Ok r => r | Raise _ => PGRunner.runner_example end).
  assert (H1 : P = Ok r') by (vm_compute; reflexivity).
  set (T := TSRunner.run PGRunner.today_example TSRunner.feed_ts_example ["c#"%string] TSRunner.db_example).
  assert (H4 : T = (T.1, None)) by (vm_compute; reflexivity).
  set (data' := match gen_tag features_example (PGRunner.r_db r') T.1 ∅ (Tags.tra_escape "c#") with
                | Ok d => d | Raise _ => ∅ end).
  assert (H7 : gen_tag features_example (PGRunner.r_db r') T.1 ∅ (Tags.tra_escape "c#") = Ok data')
    by (vm_compute; reflexivity).
  assert (H2 : PGRunner.r_db PGRunner.runner_example !! Tags.tra_escape "c#" = Some PGRunner.table_example)
    by (vm_compute; reflexivity).
  assert (H3 : PGRunner.table_example !! 1%Z = Some (PGRunner.mk_row (Window.day_s 0 + 3) 0))
    by (vm_compute; reflexivity).
  assert (H5 : "c#"%string ∈ ["c#"%string]) by apply list_elem_of_here.
  assert (H6 : TSRunner.row_at TSRunner.db_example (Tags.tra_escape "c#") 1 =
               Some (TSRunner.row_example (Some (Window.day_s 0 + 3)%Z))) by (vm_compute; reflexivity).
  assert (H8 : features_example (Tags.tra_escape "c#") !! 1%Z = Some [Some 3; Some (1 # 2)])
    by (vm_compute; reflexivity).
  exists r', T.1, data', PGRunner.table_example, (PGRunner.mk_row (Window.day_s 0 + 3) 0),
    (TSRunner.row_example (Some (Window.day_s 0 + 3)%Z)), [Some 3; Some (1 # 2)].
  split_and!; try assumption.
  exact (dataset_row_scores _ _ _ _ _ _ _ _ _ _ _ _ _ _ _ _ _ H1 H2 H3 H4 H5 H6 H7 H8).
Defined.

End Dataset.
