(* ===== verification/Scripts.v ===== *)
(** * The scripts on the warehouse

    [tsrunner.py]'s main block builds a [TrueSkillRunner] and calls
    [create_table()] and [run()].  [__init__] ([tsrunner.py:53-64]) opens
    [Data/TrueSkill.sqlite], builds the rating environment and the fresh
    rating, and stores in [self.tags] the DataFrame of [_query(TAGS)], the
    distinct tags of [SOFeature.Score600].  [create_table] runs the
    TrueSkill [USER] query per tag it iterates, and [run] the question
    query [QUES] per window, both on [SOFeature.QuestionRankS].

    This file closes the script over the two warehouse tables: [main] is
    the script on given rows of [Score600] and [QuestionRankS], the
    object [__init__] builds feeding [TSSetup.main] (whose defect, the
    iteration over the DataFrame's column labels, is [TSSetup.main_breaks]).

    [PGScript] closes [pgrunner.py]'s main block ([PGSetup.main]) over the
    [TAGS] and [USER] queries of [Score600]: the judge dates its tables
    hold are the seeded ones, [creation_date + 120], whatever [runall]
    raises afterwards. *)

From S2P Require Import Prelude Window Tags Rating PGRunner TSRunner Feed Setup Seed.
From Stdlib Require Import String.

Module TSScript.
Local Open Scope s2p_scope.

(** The object after [__init__], [tsrunner.py:53-64]: the connection
    [self.tsdb], [self.fresh], and [self.tags]. *)
Record trueskill_runner := mk_trueskill_runner {
  tsdb : TSSetup.tsdb; fresh : Rating.rating; tags : dataframe
}.

(** [__init__] on the rows [scores] of [Score600]: [self.tags] is the
    result of [_query(TAGS)]. *)
Definition __init__ (scores : list Seed.score_row) (db : TSSetup.tsdb) : trueskill_runner :=
  mk_trueskill_runner db Rating.fresh (Seed.tags_query scores).

(** The main block, [tsrunner.py:146-149], on the rows [scores] of
    [Score600] and [qrs] of [QuestionRankS]: [create_table()] with the
    [USER] query ([period = 120]), then [run()] with the [QUES] query. *)
Definition main `{Rating.Engine} (today : Z) (scores : list Seed.score_row) (qrs : list Feed.qrow)
    (db : TSSetup.tsdb) : TSRunner.store * option exn :=
  let TSR := __init__ scores db in
  TSSetup.main today (Seed.ts_user_query 120 qrs scores) (Feed.ques_query qrs) (tags TSR) (tsdb TSR).

End TSScript.

Module PGScript.
Import Seed.
Local Open Scope Z_scope.
Local Open Scope s2p_scope.

(** C33: Judge dates are set once, at seeding.  When [pgrunner.py]'s
    main block runs on the [TAGS] and [USER] queries of [Score600], no tag
    of which observes a user twice, then whatever [runall] raises, the
    table of a tag has a row for [id] with judge date [jd] exactly when
    [Score600] observes [id] under the tag with [creation_date + 120 = jd]
    (provided no other tag escapes to the same name). *)
Theorem script_judge_dates today scores feeds db db' oe t id jd :
  (forall t', t' ∈ tag_column (tags_query scores) ->
              NoDup (owner_user_id <$> filter (fun s => sc_tag s = t') scores)) ->
  (forall t', t' ∈ tag_column (tags_query scores) -> Tags.tra_escape t' = Tags.tra_escape t -> t' = t) ->
  PGSetup.main today (user_query 120 scores) feeds (tags_query scores) db = (db', oe) ->
  t ∈ tag_column (tags_query scores) ->
  (exists tbl row, db' !! Tags.tra_escape t = Some tbl /\ tbl !! id = Some row /\ PGRunner.judge_date row = jd) <->
  exists s, s ∈ scores /\ sc_tag s = t /\ owner_user_id s = id /\ jd = sc_creation_date s + 120.
Proof.
  intros Hnd Hinj Hm Ht.
  destruct (PGSetup.create_table_complete (user_query 120 scores) (tags_query scores) db) as [db1 Ec].
  { intros t' Ht'. rewrite user_query_ids. by apply Hnd. }
  unfold PGSetup.main in Hm. rewrite Ec in Hm.
  destruct (PGRunner.runall _ _ _ _) as [r oe'] eqn:Er. injection Hm as <- _.
  apply PGRunner.runall_judge_dates in Er.
  pose proof (PGSetup.create_tags_table _ _ _ _ t (proj1 (foldS_ok _ _ _ _) Ec) (or_introl Ht) Hinj) as Hs.
  assert (Hk : PGRunner.dates <$> PGRunner.r_db r !! Tags.tra_escape t =
               Some (PGRunner.dates (list_to_map (user_query 120 scores t)))).
  { rewrite <- lookup_fmap, Er. cbn [PGRunner.r_db]. by rewrite lookup_fmap, Hs. }
  apply fmap_Some in Hk as (tbl & Htbl & Hjd). unfold PGRunner.__del__. rewrite Htbl.
  assert (Hn : NoDup (user_query 120 scores t).*1) by (rewrite user_query_ids; by apply Hnd).
  split.
  - intros (? & row & [= <-] & Hr & <-).
    assert (Hd : PGRunner.dates tbl !! id = Some (PGRunner.judge_date row)) by (unfold PGRunner.dates; by rewrite lookup_fmap, Hr).
    rewrite <- Hjd in Hd. unfold PGRunner.dates in Hd. apply lookup_fmap_Some in Hd as (row0 & <- & Hr0).
    apply elem_of_list_to_map in Hr0; [|done]. apply elem_of_user_query in Hr0 as (s & Hs0 & Hst & Hid & ->).
    by exists s.
  - intros (s & Hs0 & Hst & <- & ->).
    assert (Hr0 : (list_to_map (user_query 120 scores t) : PGRunner.table) !! owner_user_id s =
                  Some (PGRunner.mk_row (sc_creation_date s + 120) 0)).
    { apply elem_of_list_to_map; [done|]. apply elem_of_user_query. by exists s. }
    assert (Hd : PGRunner.dates tbl !! owner_user_id s = Some (sc_creation_date s + 120)).
    { rewrite <- Hjd. unfold PGRunner.dates. by rewrite lookup_fmap, Hr0. }
    unfold PGRunner.dates in Hd. apply lookup_fmap_Some in Hd as (row & Hj & Hr).
    by exists tbl, row.
Qed.

(** The [c#] and [java] rows of [Seed.scores_example] and the example
    feed of [c#] for every tag: user 1 is judged on day 733120 under [c#]. *)
Lemma script_judge_dates_witness :
  exists db' oe, PGSetup.main PGRunner.today_example (user_query 120 scores_example)
                   (fun _ => PGRunner.feed_example) (tags_query scores_example) (PGSetup.mk_prdb ∅ ∅) = (db', oe) /\
    ((exists tbl row, db' !! Tags.tra_escape "c#" = Some tbl /\ tbl !! 1 = Some row /\ PGRunner.judge_date row = 733120) <->
     exists s, s ∈ scores_example /\ sc_tag s = "c#"%string /\ owner_user_id s = 1 /\ 733120 = sc_creation_date s + 120).
Proof.
  set (M := PGSetup.main PGRunner.today_example (user_query 120 scores_example)
              (fun _ => PGRunner.feed_example) (tags_query scores_example) (PGSetup.mk_prdb ∅ ∅)).
  exists M.1, M.2. split; [by destruct M|].
  refine (script_judge_dates _ _ _ _ _ _ _ _ _ _ _ (surjective_pairing M) _).
  - intros t' Ht'. vm_compute in Ht'. elem_cases Ht'; vm_compute; repeat constructor; set_solver.
  - intros t' Ht'. vm_compute in Ht'. elem_cases Ht'; [done|]. vm_compute. discriminate.
  - apply list_elem_of_here.
Defined.

End PGScript.
